(** * Station Agricole: telemetry ingestion pipeline of [server.js]

    A shallow embedding of the MQTT ingestion path of the station server:
    the JSONPath extractor and validator, the ChirpStack command encoder,
    the topic dispatch of the [message] callback, the sensor and reservoir
    handlers, the bounded histories, the history query and the
    registration of a sensor.

    Modelling conventions.
    - A JavaScript string is the sequence of its UTF-8 bytes ([string]);
      [trim], [parseFloat] and [parseInt] strip the white space of the
      language, ASCII or not; [toLowerCase] maps the ASCII letters, which
      decides every comparison the server makes with its result.
    - A JavaScript number is [number]: NaN, the two infinities, or a finite
      binary64 value denoted by the rational it equals; a decimal literal
      is rounded to the nearest binary64 value.  The sign of zero is not
      represented.
    - [null] is [jv JNull], [undefined] is [undefined]; a block that may
      throw has a [completion].
    - A history table is a plain object: reading a key it does not own
      finds what every object inherits from [Object.prototype].
    - A point in time ([new Date()], [Date.now()]) is its number of
      milliseconds since the epoch.  A handler is given the instant [now]
      at which it runs and reads the clock as [now] throughout.
    - [io.emit] is the list of events a handler returns; the mutable
      [stationData] is passed in and returned. *)

From Stdlib Require Import ZArith QArith Qround Ascii String List Lia Bool.
From stdpp Require Import base option list gmap strings pretty.
Import ListNotations.

Set Warnings "-register-all,-abstract-large-number".

Local Open Scope list_scope.
Local Open Scope string_scope.

(* ================================================================== *)
(** * Characters and the string primitives the server calls *)
(* ================================================================== *)

Definition code (c : ascii) : N := N_of_ascii c.

Definition in_range (lo hi : N) (c : ascii) : bool :=
  ((lo <=? code c) && (code c <=? hi))%N.

Definition is_digit (c : ascii) : bool := in_range 48 57 c.
Definition is_upper (c : ascii) : bool := in_range 65 90 c.
Definition is_lower (c : ascii) : bool := in_range 97 122 c.

(** [[a-zA-Z_]] and [[a-zA-Z0-9_]] of the validation pattern. *)
Definition is_ident_start (c : ascii) : bool :=
  is_upper c || is_lower c || (c =? "_")%char.
Definition is_ident_char (c : ascii) : bool :=
  is_ident_start c || is_digit c.

(** White space removed by [trim], [parseFloat] and [parseInt]: the
    characters of one byte (TAB, LF, VT, FF, CR, SPACE), of two bytes
    (U+00A0) and of three bytes (U+1680, U+2000 to U+200A, U+2028, U+2029,
    U+202F, U+205F, U+3000, U+FEFF), by their UTF-8 encoding. *)
Definition is_space (c : ascii) : bool :=
  in_range 9 13 c || (code c =? 32)%N.

Definition is_space2 (c d : ascii) : bool :=
  ((code c =? 194) && (code d =? 160))%N.

Definition is_space3 (c d e : ascii) : bool :=
  ((code c =? 225) && (code d =? 154) && (code e =? 128)
   || (code c =? 226) && (code d =? 128)
      && (in_range 128 138 e || in_range 168 169 e || (code e =? 175))
   || (code c =? 226) && (code d =? 129) && (code e =? 159)
   || (code c =? 227) && (code d =? 128) && (code e =? 128)
   || (code c =? 239) && (code d =? 187) && (code e =? 191))%N.

Definition dquote : ascii := "034"%char.
Definition backslash : ascii := "092"%char.

Definition digit_value (c : ascii) : Z := (Z.of_N (code c) - 48)%Z.

Definition str_is_empty (s : string) : bool :=
  match s with EmptyString => true | String _ _ => false end.

(** [s.indexOf(c)] for a one-character needle; [-1] when absent. *)
Fixpoint indexOf_from (s : string) (c : ascii) (i : Z) : Z :=
  match s with
  | EmptyString => (-1)%Z
  | String a r => if (a =? c)%char then i else indexOf_from r c (i + 1)%Z
  end.

Definition indexOf (s : string) (c : ascii) : Z := indexOf_from s c 0%Z.

(** [s.includes(c)] for a one-character needle. *)
Fixpoint includes (s : string) (c : ascii) : bool :=
  match s with
  | EmptyString => false
  | String a r => (a =? c)%char || includes r c
  end.

(** [s.substring(start, end)]: both bounds are clamped to [0, length]
    and swapped when [start > end]. *)
Definition substring (s : string) (start end_ : Z) : string :=
  let len := Z.of_nat (String.length s) in
  let a := Z.min (Z.max start 0) len in
  let b := Z.min (Z.max end_ 0) len in
  let lo := Z.min a b in
  let hi := Z.max a b in
  String.substring (Z.to_nat lo) (Z.to_nat (hi - lo)) s.

(** [s.split(sep)] for a one-character separator. *)
Fixpoint split (s : string) (sep : ascii) : list string :=
  match s with
  | EmptyString => [EmptyString]
  | String c r =>
      if (c =? sep)%char then EmptyString :: split r sep
      else match split r sep with
           | [] => [String c EmptyString]
           | p :: ps => String c p :: ps
           end
  end.

Fixpoint trimStart (s : string) : string :=
  match s with
  | EmptyString => EmptyString
  | String c r =>
      if is_space c then trimStart r
      else
        match r with
        | String d r1 =>
            if is_space2 c d then trimStart r1
            else
              match r1 with
              | String e r2 => if is_space3 c d e then trimStart r2 else s
              | EmptyString => s
              end
        | EmptyString => s
        end
  end.

(** A text ends where nothing but white space follows. *)
Fixpoint trimEnd (s : string) : string :=
  match s with
  | EmptyString => EmptyString
  | String c r =>
      if str_is_empty (trimStart s) then EmptyString else String c (trimEnd r)
  end.

Definition trim (s : string) : string := trimEnd (trimStart s).

Definition lower_char (c : ascii) : ascii :=
  if is_upper c then ascii_of_N (code c + 32) else c.

Fixpoint toLowerCase (s : string) : string :=
  match s with
  | EmptyString => EmptyString
  | String c r => String (lower_char c) (toLowerCase r)
  end.

Fixpoint all_chars (p : ascii -> bool) (s : string) : bool :=
  match s with
  | EmptyString => true
  | String c r => p c && all_chars p r
  end.

(** Longest prefix of [s] whose characters satisfy [p], and the rest. *)
Fixpoint span (p : ascii -> bool) (s : string) : string * string :=
  match s with
  | EmptyString => (EmptyString, EmptyString)
  | String c r =>
      if p c then let '(a, b) := span p r in (String c a, b)
      else (EmptyString, s)
  end.

Fixpoint starts_with (pre s : string) : bool :=
  match pre, s with
  | EmptyString, _ => true
  | String a p, String b r => (a =? b)%char && starts_with p r
  | String _ _, EmptyString => false
  end.

(** Value of a run of digits in the given radix, most significant first. *)
Fixpoint radix_value (radix : Z) (digit : ascii -> Z) (acc : Z) (s : string) : Z :=
  match s with
  | EmptyString => acc
  | String c r => radix_value radix digit (acc * radix + digit c)%Z r
  end.

Definition decimal_value (s : string) : Z := radix_value 10 digit_value 0 s.

Definition is_hex_digit (c : ascii) : bool :=
  is_digit c || in_range 65 70 c || in_range 97 102 c.

Definition hex_digit_value (c : ascii) : Z :=
  if is_digit c then digit_value c
  else if in_range 65 70 c then (Z.of_N (code c) - 55)%Z
  else (Z.of_N (code c) - 87)%Z.

(* ================================================================== *)
(** * Numbers *)
(* ================================================================== *)

Inductive number : Type :=
  | NaN
  | NegInf
  | Finite (q : Q)
  | PosInf.

Definition Qlt_bool (x y : Q) : bool :=
  (Qnum x * Zpos (Qden y) <? Qnum y * Zpos (Qden x))%Z.

(** [a < b] *)
Definition num_lt (a b : number) : bool :=
  match a, b with
  | NaN, _ | _, NaN => false
  | _, NegInf => false
  | NegInf, _ => true
  | PosInf, _ => false
  | Finite _, PosInf => true
  | Finite x, Finite y => Qlt_bool x y
  end.

(** [a === b] on numbers. *)
Definition num_eq (a b : number) : bool :=
  match a, b with
  | NegInf, NegInf | PosInf, PosInf => true
  | Finite x, Finite y => Qeq_bool x y
  | _, _ => false
  end.

(** [a > b], [a <= b], [a >= b] *)
Definition num_gt (a b : number) : bool := num_lt b a.
Definition num_le (a b : number) : bool := num_lt a b || num_eq a b.
Definition num_ge (a b : number) : bool := num_le b a.

Definition isNaN (a : number) : bool :=
  match a with NaN => true | _ => false end.

Definition num_of_Z (z : Z) : number := Finite (inject_Z z).

(** [Math.min(a, b)] and [Math.max(a, b)]: NaN when an argument is NaN. *)
Definition Math_min (a b : number) : number :=
  if isNaN a || isNaN b then NaN else if num_lt a b then a else b.

Definition Math_max (a b : number) : number :=
  if isNaN a || isNaN b then NaN else if num_lt b a then a else b.

(** [2^k] as a rational. *)
Definition pow2 (k : Z) : Q :=
  if (0 <=? k)%Z then inject_Z (2 ^ k) else Qmake 1 (Pos.pow 2 (Z.to_pos (- k))).

(** [floor (log2 q)] for a positive rational. *)
Definition ilog2 (q : Q) : Z :=
  let e := (Z.log2 (Qnum q) - Z.log2 (Zpos (Qden q)))%Z in
  if Qle_bool (pow2 e) q then e else (e - 1)%Z.

(** The integer nearest to a rational that is not negative; of two, the
    even one. *)
Definition round_half_even (q : Q) : Z :=
  let f := Qfloor q in
  match Qcompare (q - inject_Z f) (1 # 2) with
  | Lt => f
  | Gt => (f + 1)%Z
  | Eq => if Z.even f then f else (f + 1)%Z
  end.

(** The number a decimal literal denotes: the binary64 value nearest to
    the rational [q] (53 bits of precision, exponents from -1022 with
    gradual underflow, ties to even), an infinity from [2^1024] on. *)
Definition binary64 (q : Q) : number :=
  if Qeq_bool q 0 then Finite 0
  else
    let negative := Qlt_bool q 0 in
    let a := if negative then Qopp q else q in
    let k := (Z.max (ilog2 a) (-1022) - 52)%Z in
    let v := (inject_Z (round_half_even (a / pow2 k)) * pow2 k)%Q in
    if Qle_bool (pow2 1024) v then (if negative then NegInf else PosInf)
    else Finite (Qred (if negative then Qopp v else v)).

(** [m * 10^k] as a rational. *)
Definition scale10 (m k : Z) : Q :=
  if (0 <=? k)%Z then inject_Z (m * 10 ^ k)
  else Qred (Qmake m (Pos.pow 10 (Z.to_pos (- k)))).

Definition take_sign (s : string) : bool * string :=
  match s with
  | String "-" r => (true, r)
  | String "+" r => (false, r)
  | _ => (false, s)
  end.

(** Exponent part [[eE][+-]?digits] at the head of [s]; [0] when there is
    none (the text is then left unread, as [parseFloat] does). *)
Definition exponent_part (s : string) : Z :=
  match s with
  | String c r =>
      if ((c =? "e") || (c =? "E"))%char then
        let '(neg, r') := take_sign r in
        let '(ds, _) := span is_digit r' in
        if str_is_empty ds then 0%Z
        else if neg then (- decimal_value ds)%Z else decimal_value ds
      else 0%Z
  | EmptyString => 0%Z
  end.

(** [parseFloat(s)]: leading white space, an optional sign, then
    [Infinity] or the longest decimal literal, rounded to binary64; NaN
    when there is none. *)
Definition parseFloat (s : string) : number :=
  let '(neg, s1) := take_sign (trimStart s) in
  if starts_with "Infinity" s1 then (if neg then NegInf else PosInf)
  else
    let '(ip, r1) := span is_digit s1 in
    let '(fp, r2) := match r1 with
                     | String "." r => span is_digit r
                     | _ => (EmptyString, r1)
                     end in
    if str_is_empty ip && str_is_empty fp then NaN
    else
      let m := decimal_value (ip ++ fp) in
      let k := (exponent_part r2 - Z.of_nat (String.length fp))%Z in
      let q := scale10 m k in
      binary64 (if neg then Qopp q else q).

(** [parseInt(s)] without radix: leading white space, an optional sign,
    an optional [0x] prefix, then the longest run of digits; [None] is NaN.
    The result is the integer read: its rounding to binary64, which
    changes integers of more than 53 bits only, changes neither an array
    index in range nor a comparison with the length of an array. *)
Definition parseInt (s : string) : option Z :=
  let '(neg, s1) := take_sign (trimStart s) in
  let hex := match s1 with
             | String "0" (String x _) => ((x =? "x") || (x =? "X"))%char
             | _ => false
             end in
  let '(ds, _) := if hex then span is_hex_digit (substring s1 2 (Z.of_nat (String.length s1)))
                  else span is_digit s1 in
  if str_is_empty ds then None
  else
    let v := if hex then radix_value 16 hex_digit_value 0 ds else decimal_value ds in
    Some (if neg then (- v)%Z else v).

(* ================================================================== *)
(** * JSON documents, [JSON.parse], [JSON.stringify], base64 *)
(* ================================================================== *)

(** A decoded JSON document.  An object keeps its members in insertion
    order; [JSON.parse] stores every member as an own property. *)
Inductive json : Type :=
  | JNull
  | JBool (b : bool)
  | JNum (n : number)
  | JStr (s : string)
  | JArr (items : list json)
  | JObj (members : list (string * json)).

(** A JavaScript value as far as the pipeline sees one. *)
Inductive jsvalue : Type :=
  | undefined
  | jv (j : json).

Definition null : jsvalue := jv JNull.

(** Normal or abrupt completion of a block. *)
Inductive completion (A : Type) : Type :=
  | Return (a : A)
  | Throw (error : string).
Arguments Return {A} a.
Arguments Throw {A} error.

(** Own-property lookup in an object. *)
Fixpoint own_property (members : list (string * json)) (key : string) : option json :=
  match members with
  | [] => None
  | (k, v) :: rest => if (k =? key)%string then Some v else own_property rest key
  end.

(** Definition of a member by [JSON.parse]: a repeated key keeps its
    place and takes the later value. *)
Fixpoint define_property (members : list (string * json)) (key : string) (v : json)
  : list (string * json) :=
  match members with
  | [] => [(key, v)]
  | (k, w) :: rest =>
      if (k =? key)%string then (k, v) :: rest
      else (k, w) :: define_property rest key v
  end.

Definition is_json_ws (c : ascii) : bool :=
  ((code c =? 32) || (code c =? 9) || (code c =? 10) || (code c =? 13))%N.

Fixpoint skip_ws (s : string) : string :=
  match s with
  | String c r => if is_json_ws c then skip_ws r else s
  | EmptyString => EmptyString
  end.

(** UTF-8 encoding of a code point. *)
Definition utf8_encode (cp : N) : string :=
  let b (n : N) := ascii_of_N n in
  (if cp <? 128 then String (b cp) EmptyString
   else if cp <? 2048 then
     String (b (192 + cp / 64)) (String (b (128 + cp mod 64)) EmptyString)
   else if cp <? 65536 then
     String (b (224 + cp / 4096))
       (String (b (128 + (cp / 64) mod 64)) (String (b (128 + cp mod 64)) EmptyString))
   else
     String (b (240 + cp / 262144))
       (String (b (128 + (cp / 4096) mod 64))
          (String (b (128 + (cp / 64) mod 64))
             (String (b (128 + cp mod 64)) EmptyString))))%N.

(** Four hexadecimal digits at the head of [s]. *)
Definition hex4 (s : string) : option (N * string) :=
  match s with
  | String a (String b (String c (String d r))) =>
      if is_hex_digit a && is_hex_digit b && is_hex_digit c && is_hex_digit d
      then Some (Z.to_N (radix_value 16 hex_digit_value 0
                           (String a (String b (String c (String d EmptyString))))), r)
      else None
  | _ => None
  end.

(** The characters of a string literal after its opening quote, up to the
    closing quote; [None] on a raw control character, a bad escape or a
    missing closing quote.  A [\u] escape of a high surrogate followed by one
    of a low surrogate denotes one code point. *)
Fixpoint parse_string_body (fuel : nat) (s : string) : option (string * string) :=
  match fuel with
  | O => None
  | S fuel' =>
      match s with
      | EmptyString => None
      | String c r =>
          if (c =? dquote)%char then Some (EmptyString, r)
          else if (code c <? 32)%N then None
          else if (c =? backslash)%char then
            match r with
            | String e r' =>
                let simple (x : N) :=
                  match parse_string_body fuel' r' with
                  | Some (body, rest) => Some (String (ascii_of_N x) body, rest)
                  | None => None
                  end in
                if (e =? dquote)%char then simple 34%N
                else if (e =? backslash)%char then simple 92%N
                else if (e =? "/")%char then simple 47%N
                else if (e =? "b")%char then simple 8%N
                else if (e =? "f")%char then simple 12%N
                else if (e =? "n")%char then simple 10%N
                else if (e =? "r")%char then simple 13%N
                else if (e =? "t")%char then simple 9%N
                else if (e =? "u")%char then
                  match hex4 r' with
                  | Some (u, r2) =>
                      let single :=
                        match parse_string_body fuel' r2 with
                        | Some (body, rest) => Some (utf8_encode u ++ body, rest)
                        | None => None
                        end in
                      if ((55296 <=? u) && (u <? 56320))%N then
                        match r2 with
                        | String b1 (String b2 r3) =>
                            if ((b1 =? backslash) && (b2 =? "u"))%char then
                              match hex4 r3 with
                              | Some (lo, r4) =>
                                  if ((56320 <=? lo) && (lo <? 57344))%N then
                                    match parse_string_body fuel' r4 with
                                    | Some (body, rest) =>
                                        Some (utf8_encode
                                                (65536 + (u - 55296) * 1024 + (lo - 56320))
                                                ++ body, rest)
                                    | None => None
                                    end
                                  else single
                              | None => single
                              end
                            else single
                        | _ => single
                        end
                      else single
                  | None => None
                  end
                else None
            | EmptyString => None
            end
          else
            match parse_string_body fuel' r with
            | Some (body, rest) => Some (String c body, rest)
            | None => None
            end
      end
  end.

(** A JSON number literal at the head of [s]: an optional minus, an
    integer part without a superfluous leading zero, an optional fraction
    with at least one digit, an optional exponent with at least one digit.
    Its value is the literal rounded to binary64. *)
Definition parse_number (s : string) : option (number * string) :=
  let '(neg, s1) := match s with
                    | String "-" r => (true, r)
                    | _ => (false, s)
                    end in
  let '(ip, r1) := span is_digit s1 in
  let int_ok := match ip with
                | EmptyString => false
                | String "0" (String _ _) => false
                | _ => true
                end in
  if negb int_ok then None
  else
    let frac := match r1 with
                | String "." r =>
                    let '(fp, r2) := span is_digit r in
                    if str_is_empty fp then None else Some (fp, r2)
                | _ => Some (EmptyString, r1)
                end in
    match frac with
    | None => None
    | Some (fp, r2) =>
        let expo := match r2 with
                    | String c r =>
                        if ((c =? "e") || (c =? "E"))%char then
                          let '(eneg, r') := take_sign r in
                          let '(ds, r3) := span is_digit r' in
                          if str_is_empty ds then None
                          else Some (if eneg then (- decimal_value ds)%Z
                                     else decimal_value ds, r3)
                        else Some (0%Z, r2)
                    | EmptyString => Some (0%Z, r2)
                    end in
        match expo with
        | None => None
        | Some (e, r3) =>
            let q := scale10 (decimal_value (ip ++ fp)) (e - Z.of_nat (String.length fp)) in
            Some (binary64 (if neg then Qopp q else q), r3)
        end
    end.

(** Recursive descent over the text; the fuel bounds the nesting and the
    number of members, and the length of the text is always enough. *)
Fixpoint parse_value (fuel : nat) (s : string) : option (json * string) :=
  match fuel with
  | O => None
  | S fuel' =>
      match skip_ws s with
      | EmptyString => None
      | String c r =>
          if (c =? "{")%char then
            match skip_ws r with
            | String "}" r' => Some (JObj [], r')
            | _ => parse_members fuel' r []
            end
          else if (c =? "[")%char then
            match skip_ws r with
            | String "]" r' => Some (JArr [], r')
            | _ => parse_elements fuel' r []
            end
          else if (c =? dquote)%char then
            match parse_string_body (String.length r) r with
            | Some (body, rest) => Some (JStr body, rest)
            | None => None
            end
          else if starts_with "true" (String c r) then
            Some (JBool true, substring r 3 (Z.of_nat (String.length r)))
          else if starts_with "false" (String c r) then
            Some (JBool false, substring r 4 (Z.of_nat (String.length r)))
          else if starts_with "null" (String c r) then
            Some (JNull, substring r 3 (Z.of_nat (String.length r)))
          else
            match parse_number (String c r) with
            | Some (n, rest) => Some (JNum n, rest)
            | None => None
            end
      end
  end
with parse_elements (fuel : nat) (s : string) (acc : list json) : option (json * string) :=
  match fuel with
  | O => None
  | S fuel' =>
      match parse_value fuel' s with
      | Some (v, rest) =>
          match skip_ws rest with
          | String "," r => parse_elements fuel' r (acc ++ [v])%list
          | String "]" r => Some (JArr (acc ++ [v])%list, r)
          | _ => None
          end
      | None => None
      end
  end
with parse_members (fuel : nat) (s : string) (acc : list (string * json))
  : option (json * string) :=
  match fuel with
  | O => None
  | S fuel' =>
      match skip_ws s with
      | String c r =>
          if (c =? dquote)%char then
            match parse_string_body (String.length r) r with
            | Some (key, rest) =>
                match skip_ws rest with
                | String ":" r1 =>
                    match parse_value fuel' r1 with
                    | Some (v, rest') =>
                        match skip_ws rest' with
                        | String "," r2 => parse_members fuel' r2 (define_property acc key v)
                        | String "}" r2 => Some (JObj (define_property acc key v), r2)
                        | _ => None
                        end
                    | None => None
                    end
                | _ => None
                end
            | None => None
            end
          else None
      | EmptyString => None
      end
  end.

(** [JSON.parse(text)]; [None] stands for the [SyntaxError] it throws. *)
Definition JSON_parse (text : string) : option json :=
  match parse_value (S (String.length text)) text with
  | Some (v, rest) => if str_is_empty (skip_ws rest) then Some v else None
  | None => None
  end.

Definition hex_char (n : N) : ascii :=
  if (n <? 10)%N then ascii_of_N (48 + n) else ascii_of_N (87 + n).

(** [JSON.stringify] of a string: quoted, with the mandatory escapes. *)
Fixpoint quote_body (s : string) : string :=
  match s with
  | EmptyString => EmptyString
  | String c r =>
      let esc (x : ascii) := String backslash (String x (quote_body r)) in
      if (c =? dquote)%char then esc dquote
      else if (c =? backslash)%char then esc backslash
      else if (code c =? 8)%N then esc "b"%char
      else if (code c =? 12)%N then esc "f"%char
      else if (code c =? 10)%N then esc "n"%char
      else if (code c =? 13)%N then esc "r"%char
      else if (code c =? 9)%N then esc "t"%char
      else if (code c <? 32)%N then
        String backslash
          (String "u" (String "0" (String "0"
             (String (hex_char (code c / 16)) (String (hex_char (code c mod 16))
                (quote_body r))))))
      else String c (quote_body r)
  end.

Definition quote (s : string) : string :=
  String dquote (quote_body s ++ String dquote EmptyString).

(** Fraction digits of [r / den], at most [fuel] of them. *)
Fixpoint fraction_digits (fuel : nat) (r den : Z) : string :=
  match fuel with
  | O => EmptyString
  | S fuel' =>
      if (r =? 0)%Z then EmptyString
      else String (ascii_of_N (48 + Z.to_N (r * 10 / den)))
             (fraction_digits fuel' ((r * 10) mod den) den)
  end.

(** Text of a number inside [JSON.stringify]: [null] for NaN and the
    infinities, the decimal digits of an integer; the command encoder
    serializes no other number (a fraction is written out to at most 17
    places). *)
Definition number_to_json (n : number) : string :=
  match n with
  | NaN | NegInf | PosInf => "null"
  | Finite q =>
      let num := Qnum q in
      let den := Zpos (Qden q) in
      let ip := (Z.abs num / den)%Z in
      let r := (Z.abs num mod den)%Z in
      ((if (num <? 0)%Z then "-" else "") ++ pretty ip
       ++ (if (r =? 0)%Z then "" else "." ++ fraction_digits 17 r den))%string
  end.

Definition join (sep : string) (parts : list string) : string :=
  match parts with
  | [] => EmptyString
  | p :: ps => fold_left (fun acc x => (acc ++ sep ++ x)%string) ps p
  end.

(** [JSON.stringify(value)] without indentation. *)
Fixpoint JSON_stringify (v : json) : string :=
  match v with
  | JNull => "null"
  | JBool true => "true"
  | JBool false => "false"
  | JNum n => number_to_json n
  | JStr s => quote s
  | JArr items => ("[" ++ join "," (List.map JSON_stringify items) ++ "]")%string
  | JObj members =>
      ("{" ++ join "," (List.map (fun kv => (quote (fst kv) ++ ":" ++ JSON_stringify (snd kv))%string)
                          members) ++ "}")%string
  end.

(** The base64 alphabet and [Buffer.from(text).toString('base64')]. *)
Definition b64_char (n : N) : ascii :=
  if (n <? 26)%N then ascii_of_N (65 + n)
  else if (n <? 52)%N then ascii_of_N (71 + n)
  else if (n <? 62)%N then ascii_of_N (n - 4)
  else if (n =? 62)%N then "+"%char
  else "/"%char.

Fixpoint base64 (s : string) : string :=
  match s with
  | EmptyString => EmptyString
  | String a EmptyString =>
      let x := code a in
      String (b64_char (x / 4)) (String (b64_char ((x mod 4) * 16)) "==")
  | String a (String b EmptyString) =>
      let x := code a in
      let y := code b in
      String (b64_char (x / 4))
        (String (b64_char ((x mod 4) * 16 + y / 16))
           (String (b64_char ((y mod 16) * 4)) "="))
  | String a (String b (String c r)) =>
      let x := code a in
      let y := code b in
      let z := code c in
      String (b64_char (x / 4))
        (String (b64_char ((x mod 4) * 16 + y / 16))
           (String (b64_char ((y mod 16) * 4 + z / 64))
              (String (b64_char (z mod 64)) (base64 r))))
  end.

(* ================================================================== *)
(** * JSONPath utilities: [extractValueFromJSON], [validateJSONPath] *)
(* ================================================================== *)

(** Truthiness of a value ([!v], [v && ...]). *)
Definition truthy (v : jsvalue) : bool :=
  match v with
  | undefined => false
  | jv JNull => false
  | jv (JBool b) => b
  | jv (JNum n) => negb (isNaN n || num_eq n (num_of_Z 0))
  | jv (JStr s) => negb (str_is_empty s)
  | jv (JArr _) | jv (JObj _) => true
  end.

(** [typeof v === 'object'] *)
Definition typeof_object (v : jsvalue) : bool :=
  match v with
  | jv JNull | jv (JArr _) | jv (JObj _) => true
  | _ => false
  end.

(** The index an array holds its element under when the key is the
    canonical decimal text of a natural number. *)
Definition canonical_index (key : string) : option nat :=
  match key with
  | EmptyString => None
  | String "0" (String _ _) => None
  | _ => if all_chars is_digit key then Some (Z.to_nat (decimal_value key)) else None
  end.

(** [current.hasOwnProperty(part)] together with [current[part]], for a
    [current] that is truthy and of type object: the member of an object;
    for an array its [length] and its elements.  The method is inherited:
    a member named hasOwnProperty shadows it, and calling that member,
    which no JSON text can make a function, throws. *)
Definition own_value (current : jsvalue) (part : string) : completion (option jsvalue) :=
  match current with
  | jv (JObj members) =>
      match own_property members "hasOwnProperty" with
      | Some _ => Throw "TypeError"
      | None =>
          match own_property members part with
          | Some v => Return (Some (jv v))
          | None => Return None
          end
      end
  | jv (JArr items) =>
      if (part =? "length")%string then
        Return (Some (jv (JNum (num_of_Z (Z.of_nat (List.length items))))))
      else
        match canonical_index part with
        | Some i => match nth_error items i with
                    | Some v => Return (Some (jv v))
                    | None => Return None
                    end
        | None => Return None
        end
  | _ => Return None
  end.

(** [current[arrayName] && Array.isArray(current[arrayName])]: the array
    found under [arrayName], if any.  Reading a property of [null] or
    [undefined] throws.  An object gives its own member; an array gives
    its element when [arrayName] is the text of an index, and
    [Array.prototype], an empty array, as its [__proto__]; nothing else
    that a property read reaches is an array. *)
Definition array_property (current : jsvalue) (arrayName : string)
  : completion (option (list json)) :=
  match current with
  | undefined | jv JNull => Throw "TypeError"
  | jv (JObj members) =>
      match own_property members arrayName with
      | Some (JArr items) => Return (Some items)
      | _ => Return None
      end
  | jv (JArr elements) =>
      if (arrayName =? "__proto__")%string then Return (Some [])
      else
        match canonical_index arrayName with
        | Some i =>
            match nth_error elements i with
            | Some (JArr items) => Return (Some items)
            | _ => Return None
            end
        | None => Return None
        end
  | _ => Return None
  end.

(** [items[index]] for the result of [parseInt]. *)
Definition element (items : list json) (index : option Z) : jsvalue :=
  match index with
  | Some z =>
      if (0 <=? z)%Z then
        match nth_error items (Z.to_nat z) with
        | Some v => jv v
        | None => undefined
        end
      else undefined
  | None => undefined
  end.

(** The loop over the parts of the path (lines 76 to 95). *)
Fixpoint extract_parts (parts : list string) (current : jsvalue) : completion jsvalue :=
  match parts with
  | [] => Return current
  | part :: rest =>
      if includes part "[" && includes part "]" then
        let arrayName := substring part 0 (indexOf part "[") in
        let index := parseInt (substring part (indexOf part "[" + 1) (indexOf part "]")) in
        match array_property current arrayName with
        | Throw e => Throw e
        | Return (Some items) => extract_parts rest (element items index)
        | Return None => Return null
        end
      else
        if truthy current && typeof_object current then
          match own_value current part with
          | Throw e => Throw e
          | Return (Some v) => extract_parts rest v
          | Return None => Return null
          end
        else Return null
  end.

(** The whole function as a completion: the guard of line 69, then the
    [try] block, whose [catch] returns [null]. *)
Definition extractValueFromJSON_completion (jsonObject : json) (jsonPath : string)
  : completion jsvalue :=
  if str_is_empty jsonPath || negb (truthy (jv jsonObject)) then Return null
  else
    match extract_parts (split jsonPath ".") (jv jsonObject) with
    | Return v => Return v
    | Throw _ => Return null
    end.

Definition extractValueFromJSON (jsonObject : json) (jsonPath : string) : jsvalue :=
  match extractValueFromJSON_completion jsonObject jsonPath with
  | Return v => v
  | Throw _ => null
  end.

(** [extractedValue === null || extractedValue === undefined] *)
Definition is_absent (v : jsvalue) : bool :=
  match v with
  | undefined | jv JNull => true
  | _ => false
  end.

(** States of the matcher for the validation pattern
    [^[a-zA-Z_][a-zA-Z0-9_]*(\.[a-zA-Z_][a-zA-Z0-9_]*|\[\d+\])*$]. *)
Inductive path_state : Type :=
  | AtSegmentStart     (* an identifier must begin *)
  | InSegment          (* inside an identifier *)
  | AtIndexStart       (* after an opening bracket: a digit must follow *)
  | InIndex            (* inside the digits of an index *)
  | AfterIndex.        (* after a closing bracket *)

Fixpoint path_matches (st : path_state) (s : string) : bool :=
  match s with
  | EmptyString =>
      match st with
      | InSegment | AfterIndex => true
      | _ => false
      end
  | String c r =>
      match st with
      | AtSegmentStart => is_ident_start c && path_matches InSegment r
      | InSegment =>
          if is_ident_char c then path_matches InSegment r
          else if (c =? ".")%char then path_matches AtSegmentStart r
          else if (c =? "[")%char then path_matches AtIndexStart r
          else false
      | AtIndexStart => is_digit c && path_matches InIndex r
      | InIndex =>
          if is_digit c then path_matches InIndex r
          else if (c =? "]")%char then path_matches AfterIndex r
          else false
      | AfterIndex =>
          if (c =? ".")%char then path_matches AtSegmentStart r
          else if (c =? "[")%char then path_matches AtIndexStart r
          else false
      end
  end.

Definition validateJSONPath (jsonPath : string) : bool :=
  if str_is_empty jsonPath then true
  else path_matches AtSegmentStart jsonPath.

(** [createChirpStackSendPayload(data, confirmed = true, fPort = 1)] *)
Definition createChirpStackSendPayload (data : string) (confirmed : bool) (fPort : Z) : string :=
  JSON_stringify
    (JObj [("confirmed", JBool confirmed);
           ("data", JStr (base64 data));
           ("fPort", JNum (num_of_Z fPort))]).

(** Number of UTF-16 code units of a text held as UTF-8 bytes. *)
Fixpoint utf16_length (s : string) : nat :=
  match s with
  | EmptyString => 0
  | String c r =>
      ((if in_range 128 191 c then 0 else if in_range 240 255 c then 2 else 1)
       + utf16_length r)%nat
  end.

(** [jsonData.hasOwnProperty(key)] for a truthy [jsonData]: as in
    [own_value] for an object or an array; a text owns its [length] and
    its positions, a number or a boolean owns nothing. *)
Definition hasOwnProperty (jsonData : json) (key : string) : completion bool :=
  match jsonData with
  | JStr s =>
      Return ((key =? "length")%string
              || match canonical_index key with
                 | Some i => (i <? utf16_length s)%nat
                 | None => false
                 end)
  | _ =>
      match own_value (jv jsonData) key with
      | Throw e => Throw e
      | Return (Some _) => Return true
      | Return None => Return false
      end
  end.

(** [a && b] where both operands may throw: [b] is evaluated only when
    [a] is true. *)
Definition and_then (a b : completion bool) : completion bool :=
  match a with
  | Return true => b
  | other => other
  end.

Definition isChirpStackReceiveFormat (jsonData : json) : completion bool :=
  and_then (Return (truthy (jv jsonData)))
    (and_then (hasOwnProperty jsonData "applicationID")
       (and_then (hasOwnProperty jsonData "deviceName")
          (and_then (hasOwnProperty jsonData "devEUI")
             (hasOwnProperty jsonData "object")))).

Definition isChirpStackSendFormat (jsonData : json) : completion bool :=
  and_then (Return (truthy (jv jsonData)))
    (and_then (hasOwnProperty jsonData "confirmed")
       (and_then (hasOwnProperty jsonData "data")
          (hasOwnProperty jsonData "fPort"))).

(** The format the handlers log (lines 830 to 840 and 960 to 970): the
    configured one, or the detected one when none or [auto] is configured.
    The format is not used after that, but its detection may throw. *)
Definition actualFormat (jsonFormat : string) (jsonData : json) : completion string :=
  if str_is_empty jsonFormat || (jsonFormat =? "auto")%string then
    match isChirpStackReceiveFormat jsonData with
    | Throw e => Throw e
    | Return true => Return "chirpstack_receive"
    | Return false =>
        match isChirpStackSendFormat jsonData with
        | Throw e => Throw e
        | Return true => Return "chirpstack_send"
        | Return false => Return "simple"
        end
    end
  else Return jsonFormat.

(* ================================================================== *)
(** * The station data *)
(* ================================================================== *)

(** Milliseconds since the epoch. *)
Definition Time : Type := Z.

Inductive Status : Type := offline | online | warning.

Module Sensor.
Record t : Type := make {
  id : string;
  name : string;
  topic : string;
  isJsonPayload : bool;
  jsonPath : string;
  jsonFormat : string;
  showReceivedTimestamp : bool;
  mqttQos : Z;
  minValue : option number;      (* [None]: null, no lower bound *)
  maxValue : option number;      (* [None]: null, no upper bound *)
  value : number;
  status : Status;
  lastUpdate : Time;
  receivedTimestamp : option Time
}.
End Sensor.

Module Reservoir.
Record t : Type := make {
  id : string;
  name : string;
  topic : string;                (* level topic *)
  pumpTopic : option string;
  fillTopic : option string;
  modeTopic : option string;
  isJsonPayloadLevel : bool;
  jsonPathLevel : string;
  jsonFormatLevel : string;
  mqttQosLevel : Z;
  isJsonPayloadPump : bool;
  jsonPathPump : string;
  jsonFormatPump : string;
  mqttQosPump : Z;
  isJsonPayloadFill : bool;
  jsonPathFill : string;
  jsonFormatFill : string;
  mqttQosFill : Z;
  isJsonPayloadMode : bool;
  jsonPathMode : string;
  jsonFormatMode : string;
  mqttQosMode : Z;
  showReceivedTimestamp : bool;
  lowThreshold : number;         (* NaN when the property is missing *)
  currentLevel : number;
  pumpStatus : bool;
  isAutoMode : bool;
  lastUpdate : Time;
  receivedTimestamp : option Time
}.
End Reservoir.

(** An entry of a history array.  A sensor entry carries [value], a
    reservoir entry carries [level]; the other property is undefined. *)
Module HistoryEntry.
Record t : Type := make {
  timestamp : Time;
  value : option number;
  level : option number;
  receivedTimestamp : option Time
}.
End HistoryEntry.

Abbreviation History := (gmap string (list HistoryEntry.t)).

Record StationData : Type := mkStationData {
  sensors : list Sensor.t;
  reservoirs : list Reservoir.t;
  sensorHistory : History;
  reservoirHistory : History;
  lastSaved : Time
}.

Inductive AlertType : Type := low_threshold | high_threshold | low_level.

(** What [io.emit] sends. *)
Inductive Event : Type :=
  | alert (type : AlertType) (subject : string) (value threshold : number)
  | sensor_realtime_update (id : string) (value : number) (status : Status)
      (timestamp : Time) (receivedTimestamp : option Time)
  | reservoir_realtime_update (id : string) (level : number)
      (timestamp : Time) (receivedTimestamp : option Time)
  | reservoir_pump_changed (id : string) (pumpStatus : bool) (timestamp : option Time)
  | reservoir_mode_changed (id : string) (isAutoMode : bool) (mode : string)
      (timestamp : option Time).

(** [receivedTimestamp && entity.showReceivedTimestamp] *)
Definition shown (receivedTimestamp : option Time) (showReceivedTimestamp : bool)
  : option Time :=
  if showReceivedTimestamp then receivedTimestamp else None.

(** The names every object inherits from [Object.prototype]: what a
    plain object yields under such a name, when it owns no property of
    that name, is a function or the prototype itself, never an array. *)
Definition inherited (key : string) : bool :=
  bool_decide
    (key ∈ ["constructor"; "hasOwnProperty"; "isPrototypeOf"; "propertyIsEnumerable";
            "toLocaleString"; "toString"; "valueOf"; "__proto__";
            "__defineGetter__"; "__defineSetter__"; "__lookupGetter__";
            "__lookupSetter__"]).

(** [table[id]] for a history table: the series the table owns under
    [id]; otherwise what it inherits under that name, if anything. *)
Inductive Slot : Type :=
  | series (points : list HistoryEntry.t)
  | inherited_member
  | missing.

Definition slot_of (h : History) (id : string) : Slot :=
  match h !! id with
  | Some points => series points
  | None => if inherited id then inherited_member else missing
  end.

(** The history array under [id] after the guard
    [if (!table[id]) table[id] = []]: the series owned, or a new empty
    one; under an inherited name the guard creates nothing and there is
    no array. *)
Definition history_of (h : History) (id : string) : option (list HistoryEntry.t) :=
  match slot_of h id with
  | series points => Some points
  | missing => Some []
  | inherited_member => None
  end.

(** [history.push(entry)], then [shift()] when more than 1000 points. *)
Definition push_bounded (history : list HistoryEntry.t) (entry : HistoryEntry.t)
  : list HistoryEntry.t :=
  let pushed := (history ++ [entry])%list in
  if (1000 <? List.length pushed)%nat then tail pushed else pushed.

(* ================================================================== *)
(** * Handlers *)
(* ================================================================== *)

(** [bound !== null && test(bound)]: the bound the value breaches, if any. *)
Definition breached (bound : option number) (test : number -> bool) : option number :=
  match bound with
  | Some b => if test b then Some b else None
  | None => None
  end.

(** Lines 1024 to 1050: the fields of the sensor and the alert. *)
Definition update_sensor (sensor : Sensor.t) (value : number)
    (receivedTimestamp : option Time) (now : Time) : Sensor.t * list Event :=
  let received :=
    match shown receivedTimestamp (Sensor.showReceivedTimestamp sensor) with
    | Some ts => Some ts
    | None => Sensor.receivedTimestamp sensor
    end in
  let with_status (st : Status) :=
    Sensor.make (Sensor.id sensor) (Sensor.name sensor) (Sensor.topic sensor)
      (Sensor.isJsonPayload sensor) (Sensor.jsonPath sensor) (Sensor.jsonFormat sensor)
      (Sensor.showReceivedTimestamp sensor) (Sensor.mqttQos sensor)
      (Sensor.minValue sensor) (Sensor.maxValue sensor)
      value st now received in
  match breached (Sensor.minValue sensor) (fun minValue => num_lt value minValue) with
  | Some minValue =>
      (with_status warning, [alert low_threshold (Sensor.name sensor) value minValue])
  | None =>
      match breached (Sensor.maxValue sensor) (fun maxValue => num_gt value maxValue) with
      | Some maxValue =>
          (with_status warning, [alert high_threshold (Sensor.name sensor) value maxValue])
      | None => (with_status online, [])
      end
  end.

(** [handleSensorData(sensor, value, receivedTimestamp)]: the updated
    sensor, the updated history table and the events emitted, in order.
    When the table yields no array under the id of the sensor,
    [.push] throws (line 1067): the sensor is updated and the alert
    emitted, but no point is stored and no update is emitted. *)
Definition handleSensorData (sensor : Sensor.t) (value : number)
    (receivedTimestamp : option Time) (now : Time) (sensorHistory : History)
  : Sensor.t * History * list Event :=
  let '(sensor', alerts) := update_sensor sensor value receivedTimestamp now in
  let historyEntry :=
    HistoryEntry.make now (Some value) None
      (shown receivedTimestamp (Sensor.showReceivedTimestamp sensor)) in
  match history_of sensorHistory (Sensor.id sensor) with
  | Some stored =>
      (sensor',
       <[Sensor.id sensor := push_bounded stored historyEntry]> sensorHistory,
       (alerts ++ [sensor_realtime_update (Sensor.id sensor) value (Sensor.status sensor')
                     (Sensor.lastUpdate sensor')
                     (shown receivedTimestamp (Sensor.showReceivedTimestamp sensor))])%list)
  | None => (sensor', sensorHistory, alerts)
  end.

(** Whether a handler that stores a point under [id] throws. *)
Definition push_throws (h : History) (id : string) : bool :=
  match history_of h id with
  | Some _ => false
  | None => true
  end.

Definition set_reservoir_state (reservoir : Reservoir.t) (currentLevel : number)
    (pumpStatus isAutoMode : bool) (lastUpdate : Time)
    (receivedTimestamp : option Time) : Reservoir.t :=
  Reservoir.make (Reservoir.id reservoir) (Reservoir.name reservoir)
    (Reservoir.topic reservoir) (Reservoir.pumpTopic reservoir)
    (Reservoir.fillTopic reservoir) (Reservoir.modeTopic reservoir)
    (Reservoir.isJsonPayloadLevel reservoir) (Reservoir.jsonPathLevel reservoir)
    (Reservoir.jsonFormatLevel reservoir) (Reservoir.mqttQosLevel reservoir)
    (Reservoir.isJsonPayloadPump reservoir) (Reservoir.jsonPathPump reservoir)
    (Reservoir.jsonFormatPump reservoir) (Reservoir.mqttQosPump reservoir)
    (Reservoir.isJsonPayloadFill reservoir) (Reservoir.jsonPathFill reservoir)
    (Reservoir.jsonFormatFill reservoir) (Reservoir.mqttQosFill reservoir)
    (Reservoir.isJsonPayloadMode reservoir) (Reservoir.jsonPathMode reservoir)
    (Reservoir.jsonFormatMode reservoir) (Reservoir.mqttQosMode reservoir)
    (Reservoir.showReceivedTimestamp reservoir) (Reservoir.lowThreshold reservoir)
    currentLevel pumpStatus isAutoMode lastUpdate receivedTimestamp.

Definition received_of (reservoir : Reservoir.t) (receivedTimestamp : option Time)
  : option Time :=
  match shown receivedTimestamp (Reservoir.showReceivedTimestamp reservoir) with
  | Some ts => Some ts
  | None => Reservoir.receivedTimestamp reservoir
  end.

(** [handleReservoirLevelData(reservoir, level, receivedTimestamp)];
    [.push] throws (line 1131) as in [handleSensorData]. *)
Definition handleReservoirLevelData (reservoir : Reservoir.t) (level : number)
    (receivedTimestamp : option Time) (now : Time) (reservoirHistory : History)
  : Reservoir.t * History * list Event :=
  let currentLevel := Math_max (num_of_Z 0) (Math_min (num_of_Z 100) level) in
  let reservoir' :=
    set_reservoir_state reservoir currentLevel (Reservoir.pumpStatus reservoir)
      (Reservoir.isAutoMode reservoir) now (received_of reservoir receivedTimestamp) in
  let alerts :=
    if num_le currentLevel (Reservoir.lowThreshold reservoir) then
      [alert low_level (Reservoir.name reservoir) currentLevel
         (Reservoir.lowThreshold reservoir)]
    else [] in
  let historyEntry :=
    HistoryEntry.make now None (Some currentLevel)
      (shown receivedTimestamp (Reservoir.showReceivedTimestamp reservoir)) in
  match history_of reservoirHistory (Reservoir.id reservoir) with
  | Some stored =>
      (reservoir',
       <[Reservoir.id reservoir := push_bounded stored historyEntry]> reservoirHistory,
       (alerts ++ [reservoir_realtime_update (Reservoir.id reservoir) currentLevel now
                     (shown receivedTimestamp
                        (Reservoir.showReceivedTimestamp reservoir))])%list)
  | None => (reservoir', reservoirHistory, alerts)
  end.

(** [handleReservoirPumpData(reservoir, pumpStatus, receivedTimestamp)] *)
Definition handleReservoirPumpData (reservoir : Reservoir.t) (pumpStatus : bool)
    (receivedTimestamp : option Time) (now : Time) : Reservoir.t * list Event :=
  (set_reservoir_state reservoir (Reservoir.currentLevel reservoir) pumpStatus
     (Reservoir.isAutoMode reservoir) now (received_of reservoir receivedTimestamp),
   [reservoir_pump_changed (Reservoir.id reservoir) pumpStatus (Some now)]).

(** [handleReservoirModeData(reservoir, isAutoMode, receivedTimestamp)] *)
Definition handleReservoirModeData (reservoir : Reservoir.t) (isAutoMode : bool)
    (receivedTimestamp : option Time) (now : Time) : Reservoir.t * list Event :=
  (set_reservoir_state reservoir (Reservoir.currentLevel reservoir)
     (Reservoir.pumpStatus reservoir) isAutoMode now
     (received_of reservoir receivedTimestamp),
   [reservoir_mode_changed (Reservoir.id reservoir) isAutoMode
      (if isAutoMode then "auto" else "manual") (Some now)]).

(** The channels of the data model.  Only [level], [pump] and [mode] have
    an entry in [topicConfig]. *)
Inductive Channel : Type := sensor_channel | level | pump | fill | mode.

Definition topicConfig (reservoir : Reservoir.t) (topicType : Channel)
  : option (bool * string * string) :=
  match topicType with
  | level => Some (Reservoir.isJsonPayloadLevel reservoir,
                   Reservoir.jsonPathLevel reservoir, Reservoir.jsonFormatLevel reservoir)
  | pump => Some (Reservoir.isJsonPayloadPump reservoir,
                  Reservoir.jsonPathPump reservoir, Reservoir.jsonFormatPump reservoir)
  | mode => Some (Reservoir.isJsonPayloadMode reservoir,
                  Reservoir.jsonPathMode reservoir, Reservoir.jsonFormatMode reservoir)
  | _ => None
  end.

(** Whether the conversion of a value to text throws, as in the
    template literal of lines 843 and 973.  An object is converted by its
    [toString] and, when that is no function, by its [valueOf]: an own
    member named [toString], which no JSON text can make a function,
    leaves the inherited [valueOf], whose result is the object itself and
    no text, or an own [valueOf] that is no function either; in both cases
    the conversion throws.  An array is converted by converting its
    elements, [null] excepted. *)
Fixpoint to_string_throws (v : json) : bool :=
  match v with
  | JObj members =>
      match own_property members "toString" with
      | Some _ => true
      | None => false
      end
  | JArr items => existsb to_string_throws items
  | _ => false
  end.

(** Lines 950 to 986: the value a reservoir message carries; [None] when
    the handler returns early: the text is not JSON, the detection of the
    format throws, the extracted value cannot be written to the log
    (line 973, inside the [try]), or nothing is found under the path. *)
Definition reservoir_extract (isJson : bool) (jsonPath jsonFormat messageStr : string)
  : option json :=
  if isJson then
    match JSON_parse messageStr with
    | Some jsonData =>
        match actualFormat jsonFormat jsonData with
        | Throw _ => None
        | Return _ =>
            match extractValueFromJSON jsonData jsonPath with
            | jv JNull | undefined => None
            | jv v => if to_string_throws v then None else Some v
            end
        end
    | None => None
    end
  else Some (JStr (trim messageStr)).

(** [parseFloat(v)] on a value: the argument is first converted to text.
    The text of a number reads back as that number; the text of an array
    is the comma-separated text of its elements, of which [parseFloat]
    reads no further than the first. *)
Fixpoint parseFloat_of (v : json) : number :=
  match v with
  | JNum n => n
  | JStr s => parseFloat s
  | JArr (x :: _) => parseFloat_of x
  | _ => NaN
  end.

(** Lines 999 to 1006: the pump state read from the extracted value. *)
Definition pump_status_of (extractedValue : json) : bool :=
  match extractedValue with
  | JStr s => (s =? "1")%string || (toLowerCase s =? "true")%string
  | JNum n => num_eq n (num_of_Z 1)
  | v => truthy (jv v)
  end.

(** Line 1012 *)
Definition is_auto_mode_of (extractedValue : json) : bool :=
  match extractedValue with
  | JStr s => (s =? "auto")%string || (s =? "automatic")%string
  | _ => false
  end.

(** [handleReservoirTopicMessage(reservoir, messageStr, topicType,
    receivedTimestamp)]: [None] when it returns without calling a handler,
    so that nothing is changed and nothing is emitted. *)
Definition handleReservoirTopicMessage (reservoir : Reservoir.t) (messageStr : string)
    (topicType : Channel) (receivedTimestamp : option Time) (now : Time)
    (reservoirHistory : History) : option (Reservoir.t * History * list Event) :=
  match topicConfig reservoir topicType with
  | None => None
  | Some (isJson, jsonPath, jsonFormat) =>
      match reservoir_extract isJson jsonPath jsonFormat messageStr with
      | None => None
      | Some extractedValue =>
          match topicType with
          | level =>
              let levelValue := parseFloat_of extractedValue in
              if negb (isNaN levelValue) then
                Some (handleReservoirLevelData reservoir levelValue receivedTimestamp now
                        reservoirHistory)
              else None
          | pump =>
              let '(r, ev) := handleReservoirPumpData reservoir
                                (pump_status_of extractedValue) receivedTimestamp now in
              Some (r, reservoirHistory, ev)
          | mode =>
              let '(r, ev) := handleReservoirModeData reservoir
                                (is_auto_mode_of extractedValue) receivedTimestamp now in
              Some (r, reservoirHistory, ev)
          | _ => None
          end
      end
  end.

(** Lines 819 to 874: the number a sensor message carries; [None] when the
    callback returns early.  An array or an object is never taken in:
    either its conversion to text throws (line 843, inside the [try]) or
    it is refused as not numeric (line 858). *)
Definition sensor_extract (sensor : Sensor.t) (messageStr : string) : option number :=
  if Sensor.isJsonPayload sensor then
    match JSON_parse messageStr with
    | Some jsonData =>
        match actualFormat (Sensor.jsonFormat sensor) jsonData with
        | Throw _ => None
        | Return _ =>
            match extractValueFromJSON jsonData (Sensor.jsonPath sensor) with
            | undefined | jv JNull => None
            | jv (JStr s) =>
                let numValue := parseFloat s in
                if negb (isNaN numValue) then Some numValue else None
            | jv (JNum n) => Some n
            | jv _ => None
            end
        end
    | None => None
    end
  else
    let extractedValue := parseFloat messageStr in
    if isNaN extractedValue then None else Some extractedValue.

(* ================================================================== *)
(** * The [message] callback: dispatch by topic *)
(* ================================================================== *)

(** Who a message is handed to: the sensor at a position of
    [stationData.sensors], or a channel of the reservoir at a position of
    [stationData.reservoirs]. *)
Inductive Target : Type :=
  | to_sensor (index : nat)
  | to_reservoir (index : nat) (channel : Channel).

(** Positions, counted from [from], of the elements that satisfy [p]:
    the selection made by [Array.prototype.filter]. *)
Fixpoint positions {A : Type} (p : A -> bool) (l : list A) (from : nat) : list nat :=
  match l with
  | [] => []
  | x :: rest => if p x then from :: positions p rest (S from)
                 else positions p rest (S from)
  end.

Definition topic_is (configured : option string) (topic : string) : bool :=
  match configured with
  | Some t => (t =? topic)%string
  | None => false
  end.

(** Line 815 *)
Definition relatedSensors (st : StationData) (topic : string) : list nat :=
  positions (fun s => (Sensor.topic s =? topic)%string) (sensors st) 0.

(** Lines 884 to 886 *)
Definition relatedReservoirs (st : StationData) (topic : string) : list nat :=
  positions (fun r => (Reservoir.topic r =? topic)%string
                      || topic_is (Reservoir.pumpTopic r) topic
                      || topic_is (Reservoir.fillTopic r) topic
                      || topic_is (Reservoir.modeTopic r) topic)
    (reservoirs st) 0.

(** Lines 890 to 901: the one channel a selected reservoir is handled on. *)
Definition reservoir_channel (r : Reservoir.t) (topic : string) : option Channel :=
  if (Reservoir.topic r =? topic)%string then Some level
  else if topic_is (Reservoir.pumpTopic r) topic then Some pump
  else if topic_is (Reservoir.modeTopic r) topic then Some mode
  else None.

(** The handler invocations one message causes, in order: the sensors
    selected, if there is one (line 817); otherwise the reservoirs selected,
    each on its one channel (line 888). *)
Definition route (st : StationData) (topic : string) : list Target :=
  if (0 <? List.length (relatedSensors st topic))%nat then
    List.map to_sensor (relatedSensors st topic)
  else
    omap (fun i =>
            match reservoirs st !! i with
            | Some r =>
                match reservoir_channel r topic with
                | Some ch => Some (to_reservoir i ch)
                | None => None
                end
            | None => None
            end)
      (relatedReservoirs st topic).

(** One handler invocation on the station data, and whether it throws.
    A handler that runs to its end also stamps [stationData.lastSaved]
    (lines 1089, 1152, 1170 and 1189); one that throws at [.push] has
    updated the entity and emitted the alert, and nothing more. *)
Definition deliver (messageStr : string) (receivedTimestamp now : Time)
    (st : StationData) (target : Target) : StationData * list Event * bool :=
  match target with
  | to_sensor i =>
      match sensors st !! i with
      | Some sensor =>
          match sensor_extract sensor messageStr with
          | Some extractedValue =>
              let '(sensor', h, ev) :=
                handleSensorData sensor extractedValue (Some receivedTimestamp) now
                  (sensorHistory st) in
              let thrown := push_throws (sensorHistory st) (Sensor.id sensor) in
              (mkStationData (<[i := sensor']> (sensors st)) (reservoirs st) h
                 (reservoirHistory st) (if thrown then lastSaved st else now),
               ev, thrown)
          | None => (st, [], false)
          end
      | None => (st, [], false)
      end
  | to_reservoir i ch =>
      match reservoirs st !! i with
      | Some reservoir =>
          match handleReservoirTopicMessage reservoir messageStr ch
                  (Some receivedTimestamp) now (reservoirHistory st) with
          | Some (reservoir', h, ev) =>
              let thrown :=
                match ch with
                | level => push_throws (reservoirHistory st) (Reservoir.id reservoir)
                | _ => false
                end in
              (mkStationData (sensors st) (<[i := reservoir']> (reservoirs st))
                 (sensorHistory st) h (if thrown then lastSaved st else now),
               ev, thrown)
          | None => (st, [], false)
          end
      | None => (st, [], false)
      end
  end.

Arguments deliver : simpl never.

(** The [forEach] of lines 818 and 889: the handlers run in order; one
    that throws ends the loop, the exception being caught at line 908, so
    that the targets after it are not served. *)
Fixpoint deliver_all (messageStr : string) (receivedTimestamp now : Time)
    (st : StationData) (targets : list Target) : StationData * list Event :=
  match targets with
  | [] => (st, [])
  | t :: rest =>
      let '(st1, ev1, thrown) := deliver messageStr receivedTimestamp now st t in
      if thrown then (st1, ev1)
      else
        let '(st2, ev2) := deliver_all messageStr receivedTimestamp now st1 rest in
        (st2, (ev1 ++ ev2)%list)
  end.

(** [mqttClient.on('message', (topic, message, packet) => ...)] *)
Definition on_message (st : StationData) (topic messageStr : string) (now : Time)
  : StationData * list Event :=
  deliver_all messageStr now now st (route st topic).

(* ================================================================== *)
(** * Registration of a sensor: [POST /api/sensors] *)
(* ================================================================== *)

(** The request body.  A property the caller leaves out is [None].  The
    properties [value], [status], [lastUpdate] and [receivedTimestamp] of a
    body are overwritten by the handler and are left out here. *)
Module SensorBody.
Record t : Type := make {
  id : option string;
  name : string;
  topic : string;
  isJsonPayload : option bool;
  jsonPath : option string;
  jsonFormat : option string;
  showReceivedTimestamp : option bool;
  mqttQos : option Z;
  minValue : option number;
  maxValue : option number
}.
End SensorBody.

(** [x || fallback] on an optional boolean, string and integer. *)
Definition or_bool (x : option bool) (fallback : bool) : bool :=
  match x with Some true => true | _ => fallback end.
Definition or_string (x : option string) (fallback : string) : string :=
  match x with
  | Some s => if str_is_empty s then fallback else s
  | None => fallback
  end.
Definition or_Z (x : option Z) (fallback : Z) : Z :=
  match x with
  | Some z => if (z =? 0)%Z then fallback else z
  | None => fallback
  end.

(** Lines 183 to 211.  [inl] is the 400 answer; [inr] the sensor created
    and the station data after it. *)
Definition post_sensor (st : StationData) (body : SensorBody.t) (now : Time)
  : string + (Sensor.t * StationData) :=
  if or_bool (SensorBody.isJsonPayload body) false
     && negb (str_is_empty (or_string (SensorBody.jsonPath body) ""))
     && negb (validateJSONPath (or_string (SensorBody.jsonPath body) ""))
  then inl "JSONPath invalide"
  else
    let sensor :=
      Sensor.make
        (match SensorBody.id body with Some i => i | None => pretty now end)
        (SensorBody.name body)
        (SensorBody.topic body)
        (or_bool (SensorBody.isJsonPayload body) false)
        (or_string (SensorBody.jsonPath body) "")
        (or_string (SensorBody.jsonFormat body) "chirpstack_receive")
        (or_bool (SensorBody.showReceivedTimestamp body) false)
        (or_Z (SensorBody.mqttQos body) 1)
        (SensorBody.minValue body)
        (SensorBody.maxValue body)
        (num_of_Z 0) offline now None in
    inr (sensor,
         mkStationData (sensors st ++ [sensor])%list (reservoirs st)
           (match slot_of (sensorHistory st) (Sensor.id sensor) with
            | missing => <[Sensor.id sensor := []]> (sensorHistory st)
            | _ => sensorHistory st
            end)
           (reservoirHistory st) now).

(* ================================================================== *)
(** * Command encoder: [POST /api/reservoirs/:id/pump] *)
(* ================================================================== *)

(** Lines 511 to 523: the payload published on the pump topic. *)
Definition pump_payload (reservoir : Reservoir.t) (newStatus : bool) : string :=
  if Reservoir.isJsonPayloadPump reservoir then
    if (Reservoir.jsonFormatPump reservoir =? "chirpstack_send")%string then
      createChirpStackSendPayload (if newStatus then "1" else "0") true 1
    else JSON_stringify (JObj [("value", JStr (if newStatus then "1" else "0"))])
  else if newStatus then "1" else "0".

(** Lines 508 to 538: the payload published and the reservoir after the
    command; [None] when no pump topic is configured (the 400 answer). *)
Definition post_pump (reservoir : Reservoir.t) (action : string) (now : Time)
  : option (string * Reservoir.t * list Event) :=
  match Reservoir.pumpTopic reservoir with
  | None => None
  | Some t =>
      if str_is_empty t then None
      else
        let newStatus := (action =? "start")%string in
        Some (pump_payload reservoir newStatus,
              set_reservoir_state reservoir (Reservoir.currentLevel reservoir) newStatus
                (Reservoir.isAutoMode reservoir) now (Reservoir.receivedTimestamp reservoir),
              [reservoir_pump_changed (Reservoir.id reservoir) newStatus None])
  end.

(* ================================================================== *)
(** * History query: [filterHistoryByPeriod] *)
(* ================================================================== *)

(** [a / b] on numbers. *)
Definition num_div (a b : number) : number :=
  match a, b with
  | NaN, _ | _, NaN => NaN
  | Finite x, Finite y =>
      if Qeq_bool y 0 then
        if Qlt_bool 0 x then PosInf else if Qlt_bool x 0 then NegInf else NaN
      else Finite (x / y)
  | Finite _, _ => Finite 0
  | PosInf, Finite y => if Qlt_bool y 0 then NegInf else PosInf
  | NegInf, Finite y => if Qlt_bool y 0 then PosInf else NegInf
  | _, _ => NaN
  end.

Definition Math_ceil (a : number) : number :=
  match a with
  | Finite q => Finite (inject_Z (Qceiling q))
  | _ => a
  end.

(** [index % step] for an array index. *)
Definition index_rem (index : nat) (step : number) : number :=
  match step with
  | NaN => NaN
  | PosInf | NegInf => num_of_Z (Z.of_nat index)
  | Finite s =>
      if Qeq_bool s 0 then NaN
      else
        let i := inject_Z (Z.of_nat index) in
        let quotient := (i / s)%Q in
        let truncated := Z.quot (Qnum quotient) (Zpos (Qden quotient)) in
        Finite (Qred (i - inject_Z truncated * s))
  end.

(** [array.filter((_, index) => p(index))] *)
Fixpoint filter_index {A : Type} (p : nat -> bool) (l : list A) (from : nat) : list A :=
  match l with
  | [] => []
  | x :: rest => if p from then x :: filter_index p rest (S from)
                 else filter_index p rest (S from)
  end.

(** The lookback of a period in milliseconds (the [switch] of lines 1201
    to 1222; an unknown period is one hour). *)
Definition window (period : string) : Z :=
  if (period =? "10m")%string then (10 * 60 * 1000)%Z
  else if (period =? "1h")%string then (60 * 60 * 1000)%Z
  else if (period =? "6h")%string then (6 * 60 * 60 * 1000)%Z
  else if (period =? "24h")%string then (24 * 60 * 60 * 1000)%Z
  else if (period =? "7d")%string then (7 * 24 * 60 * 60 * 1000)%Z
  else if (period =? "30d")%string then (30 * 24 * 60 * 60 * 1000)%Z
  else (60 * 60 * 1000)%Z.

(** A point of the answer. *)
Module ChartPoint.
Record t : Type := make {
  timestamp : Time;
  value : option number;
  formattedTime : string;
  receivedTimestamp : option Time
}.
End ChartPoint.

(** Lines 1224 to 1232: the entries kept, before they are rendered. *)
Definition select_history (history : list HistoryEntry.t) (period : string)
    (maxPoints : number) (now : Time) : list HistoryEntry.t :=
  let startTime := (now - window period)%Z in
  let filteredData :=
    List.filter (fun record => (startTime <=? HistoryEntry.timestamp record)%Z) history in
  if num_gt (num_of_Z (Z.of_nat (List.length filteredData))) maxPoints then
    let step :=
      Math_ceil (num_div (num_of_Z (Z.of_nat (List.length filteredData))) maxPoints) in
    filter_index (fun index => num_eq (index_rem index step) (num_of_Z 0)) filteredData 0
  else filteredData.

Section HistoryQuery.
(** [formatTimeForChart] renders a date in the [fr-FR] locale of the
    host; it is a parameter here. *)
Variable formatTimeForChart : Time -> string -> string.

Definition render_point (period : string) (record : HistoryEntry.t) : ChartPoint.t :=
  ChartPoint.make
    (HistoryEntry.timestamp record)
    (match HistoryEntry.value record with
     | Some v => Some v
     | None => HistoryEntry.level record
     end)
    (formatTimeForChart (HistoryEntry.timestamp record) period)
    (HistoryEntry.receivedTimestamp record).

(** [filterHistoryByPeriod(history, period, maxPoints)], called at [now]. *)
Definition filterHistoryByPeriod (history : list HistoryEntry.t) (period : string)
    (maxPoints : number) (now : Time) : list ChartPoint.t :=
  List.map (render_point period) (select_history history period maxPoints now).
End HistoryQuery.
(* ================================================================== *)
(** * Calls on the MQTT client, answers and notices *)
(* ================================================================== *)

(** What a handler asks of [mqttClient], in order. *)
Inductive MqttCall : Type :=
  | subscribe (topic : string) (qos : Z)
  | unsubscribe (topic : string)
  | publish (topic payload : string) (qos : Z).

(** The answers other than 200. *)
Inductive Refusal : Type :=
  | not_found                             (* 404 *)
  | invalid_path (pathField : string)     (* 400, JSONPath invalide *)
  | no_pump_topic.                        (* 400 *)

(** What the management routes broadcast with [io.emit]. *)
Inductive Notice : Type :=
  | sensor_deleted (id : string)
  | reservoir_added (reservoir : Reservoir.t)
  | reservoir_deleted (id : string).

(** An optional topic that is truthy, as in [if (reservoir.pumpTopic)]. *)
Definition topic_set (t : option string) : option string :=
  match t with
  | Some s => if str_is_empty s then None else Some s
  | None => None
  end.

(** [stationData.sensors.findIndex(s => s.id === id)] with the sensor at
    that position, and [stationData.reservoirs.find(r => r.id === id)]
    with its position. *)
Definition find_sensor (st : StationData) (id : string) : option (nat * Sensor.t) :=
  list_find (fun s => Sensor.id s = id) (sensors st).

Definition find_reservoir (st : StationData) (id : string) : option (nat * Reservoir.t) :=
  list_find (fun r => Reservoir.id r = id) (reservoirs st).

(* ================================================================== *)
(** * Removal of an entity: [DELETE /api/sensors/:id], [DELETE /api/reservoirs/:id] *)
(* ================================================================== *)

(** Lines 276 to 300.  [connected] is [mqttClient && mqttClient.connected]. *)
Definition delete_sensor (st : StationData) (connected : bool) (id : string) (now : Time)
  : Refusal + (StationData * list MqttCall * list Notice) :=
  match find_sensor st id with
  | None => inl not_found
  | Some (sensorIndex, sensor) =>
      inr (mkStationData (delete sensorIndex (sensors st)) (reservoirs st)
             (delete id (sensorHistory st)) (reservoirHistory st) now,
           if connected then [unsubscribe (Sensor.topic sensor)] else [],
           [sensor_deleted id])
  end.

(** [if (t) mqttClient.unsubscribe(t)] *)
Definition unsubscribe_if_set (t : option string) : list MqttCall :=
  match topic_set t with
  | Some s => [unsubscribe s]
  | None => []
  end.

(** Lines 466 to 494. *)
Definition delete_reservoir (st : StationData) (connected : bool) (id : string) (now : Time)
  : Refusal + (StationData * list MqttCall * list Notice) :=
  match find_reservoir st id with
  | None => inl not_found
  | Some (reservoirIndex, reservoir) =>
      inr (mkStationData (sensors st) (delete reservoirIndex (reservoirs st))
             (sensorHistory st) (delete id (reservoirHistory st)) now,
           if connected then
             (unsubscribe (Reservoir.topic reservoir)
              :: unsubscribe_if_set (Reservoir.pumpTopic reservoir)
              ++ unsubscribe_if_set (Reservoir.fillTopic reservoir)
              ++ unsubscribe_if_set (Reservoir.modeTopic reservoir))%list
           else [],
           [reservoir_deleted id])
  end.

(* ================================================================== *)
(** * Registration of a reservoir: [POST /api/reservoirs] *)
(* ================================================================== *)

(** The request body.  A property the caller leaves out is [None].  The
    properties [currentLevel], [pumpStatus], [isAutoMode], [lastUpdate] and
    [receivedTimestamp] of a body are overwritten by the handler and are
    left out here. *)
Module ReservoirBody.
Record t : Type := make {
  id : option string;
  name : string;
  topic : string;
  pumpTopic : option string;
  fillTopic : option string;
  modeTopic : option string;
  isJsonPayloadLevel : option bool;
  jsonPathLevel : option string;
  jsonFormatLevel : option string;
  mqttQosLevel : option Z;
  isJsonPayloadPump : option bool;
  jsonPathPump : option string;
  jsonFormatPump : option string;
  mqttQosPump : option Z;
  isJsonPayloadFill : option bool;
  jsonPathFill : option string;
  jsonFormatFill : option string;
  mqttQosFill : option Z;
  isJsonPayloadMode : option bool;
  jsonPathMode : option string;
  jsonFormatMode : option string;
  mqttQosMode : option Z;
  showReceivedTimestamp : option bool;
  lowThreshold : option number
}.
End ReservoirBody.

(** [req.body[field] && req.body[pathField] && !validateJSONPath(req.body[pathField])] *)
Definition path_refused (field : option bool) (pathField : option string) : bool :=
  or_bool field false
  && negb (str_is_empty (or_string pathField ""))
  && negb (validateJSONPath (or_string pathField "")).

(** Lines 310 to 325: the first path field that fails, in the order of
    [validations]. *)
Definition reservoir_validation (body : ReservoirBody.t) : option string :=
  if path_refused (ReservoirBody.isJsonPayloadLevel body) (ReservoirBody.jsonPathLevel body)
  then Some "jsonPathLevel"
  else if path_refused (ReservoirBody.isJsonPayloadPump body) (ReservoirBody.jsonPathPump body)
  then Some "jsonPathPump"
  else if path_refused (ReservoirBody.isJsonPayloadFill body) (ReservoirBody.jsonPathFill body)
  then Some "jsonPathFill"
  else if path_refused (ReservoirBody.isJsonPayloadMode body) (ReservoirBody.jsonPathMode body)
  then Some "jsonPathMode"
  else None.

(** [if (t) mqttClient.subscribe(t, { qos })] *)
Definition subscribe_if_set (t : option string) (qos : Z) : list MqttCall :=
  match topic_set t with
  | Some s => [subscribe s qos]
  | None => []
  end.

(** Lines 327 to 363: the reservoir a body creates. *)
Definition new_reservoir (body : ReservoirBody.t) (now : Time) : Reservoir.t :=
  Reservoir.make
    (match ReservoirBody.id body with Some i => i | None => pretty now end)
    (ReservoirBody.name body)
    (ReservoirBody.topic body)
    (ReservoirBody.pumpTopic body)
    (ReservoirBody.fillTopic body)
    (ReservoirBody.modeTopic body)
    (or_bool (ReservoirBody.isJsonPayloadLevel body) false)
    (or_string (ReservoirBody.jsonPathLevel body) "")
    (or_string (ReservoirBody.jsonFormatLevel body) "chirpstack_receive")
    (or_Z (ReservoirBody.mqttQosLevel body) 1)
    (or_bool (ReservoirBody.isJsonPayloadPump body) false)
    (or_string (ReservoirBody.jsonPathPump body) "")
    (or_string (ReservoirBody.jsonFormatPump body) "chirpstack_send")
    (or_Z (ReservoirBody.mqttQosPump body) 1)
    (or_bool (ReservoirBody.isJsonPayloadFill body) false)
    (or_string (ReservoirBody.jsonPathFill body) "")
    (or_string (ReservoirBody.jsonFormatFill body) "chirpstack_send")
    (or_Z (ReservoirBody.mqttQosFill body) 1)
    (or_bool (ReservoirBody.isJsonPayloadMode body) false)
    (or_string (ReservoirBody.jsonPathMode body) "")
    (or_string (ReservoirBody.jsonFormatMode body) "chirpstack_send")
    (or_Z (ReservoirBody.mqttQosMode body) 1)
    (or_bool (ReservoirBody.showReceivedTimestamp body) false)
    (match ReservoirBody.lowThreshold body with Some n => n | None => NaN end)
    (num_of_Z 50) false true now None.

(** Lines 307 to 399.  [inl] is the 400 answer; [inr] the reservoir
    created, the station data after it, the subscriptions asked for and
    the notice broadcast. *)
Definition post_reservoir (st : StationData) (connected : bool) (body : ReservoirBody.t)
    (now : Time)
  : Refusal + (Reservoir.t * StationData * list MqttCall * list Notice) :=
  match reservoir_validation body with
  | Some pathField => inl (invalid_path pathField)
  | None =>
      let reservoir := new_reservoir body now in
      inr (reservoir,
           mkStationData (sensors st) (reservoirs st ++ [reservoir])%list
             (sensorHistory st)
             (match slot_of (reservoirHistory st) (Reservoir.id reservoir) with
              | missing => <[Reservoir.id reservoir := []]> (reservoirHistory st)
              | _ => reservoirHistory st
              end)
             now,
           if connected then
             (subscribe (Reservoir.topic reservoir) (Reservoir.mqttQosLevel reservoir)
              :: subscribe_if_set (Reservoir.pumpTopic reservoir) (Reservoir.mqttQosPump reservoir)
              ++ subscribe_if_set (Reservoir.fillTopic reservoir) (Reservoir.mqttQosFill reservoir)
              ++ subscribe_if_set (Reservoir.modeTopic reservoir) (Reservoir.mqttQosMode reservoir))%list
           else [],
           [reservoir_added reservoir])
  end.

(* ================================================================== *)
(** * Commands: the [pump], [fill] and [mode] routes and the socket *)
(* ================================================================== *)

(** [if (mqttClient && mqttClient.connected) mqttClient.publish(...)] *)
Definition publish_if (connected : bool) (topic payload : string) (qos : Z) : list MqttCall :=
  if connected then [publish topic payload qos] else [].

(** The reservoir at a position replaced by its state after a command,
    and [stationData.lastSaved] stamped. *)
Definition store_reservoir (st : StationData) (index : nat) (reservoir : Reservoir.t)
    (now : Time) : StationData :=
  mkStationData (sensors st) (<[index := reservoir]> (reservoirs st))
    (sensorHistory st) (reservoirHistory st) now.

(** Lines 497 to 544: [POST /api/reservoirs/:id/pump]. *)
Definition api_pump (st : StationData) (connected : bool) (id action : string) (now : Time)
  : Refusal + (StationData * list MqttCall * list Event) :=
  match find_reservoir st id with
  | None => inl not_found
  | Some (index, reservoir) =>
      match topic_set (Reservoir.pumpTopic reservoir), post_pump reservoir action now with
      | Some pumpTopic, Some (payload, reservoir', events) =>
          inr (store_reservoir st index reservoir' now,
               publish_if connected pumpTopic payload (Reservoir.mqttQosPump reservoir),
               events)
      | _, _ => inl no_pump_topic
      end
  end.

(** Lines 554 to 567: the payload published on the fill topic. *)
Definition fill_payload (reservoir : Reservoir.t) : string :=
  if Reservoir.isJsonPayloadFill reservoir then
    if (Reservoir.jsonFormatFill reservoir =? "chirpstack_send")%string then
      createChirpStackSendPayload "1" true 1
    else JSON_stringify (JObj [("value", JStr "1")])
  else "1".

(** Lines 547 to 591: [POST /api/reservoirs/:id/fill].  With a fill topic
    the command is published and nothing is stored; without one the level
    is set to 100 locally. *)
Definition api_fill (st : StationData) (connected : bool) (id : string) (now : Time)
  : Refusal + (StationData * list MqttCall * list Event) :=
  match find_reservoir st id with
  | None => inl not_found
  | Some (index, reservoir) =>
      match topic_set (Reservoir.fillTopic reservoir) with
      | Some fillTopic =>
          inr (st,
               publish_if connected fillTopic (fill_payload reservoir)
                 (Reservoir.mqttQosFill reservoir),
               [])
      | None =>
          inr (store_reservoir st index
                 (set_reservoir_state reservoir (num_of_Z 100)
                    (Reservoir.pumpStatus reservoir) (Reservoir.isAutoMode reservoir) now
                    (Reservoir.receivedTimestamp reservoir))
                 now,
               [],
               [reservoir_realtime_update (Reservoir.id reservoir) (num_of_Z 100) now None])
      end
  end.

(** Lines 605 to 617: the payload published on the mode topic. *)
Definition mode_payload (reservoir : Reservoir.t) (mode_name : string) : string :=
  if Reservoir.isJsonPayloadMode reservoir then
    if (Reservoir.jsonFormatMode reservoir =? "chirpstack_send")%string then
      createChirpStackSendPayload mode_name true 1
    else JSON_stringify (JObj [("mode", JStr mode_name)])
  else mode_name.

(** Lines 594 to 644: [POST /api/reservoirs/:id/mode], for a body whose
    [mode] is a text. *)
Definition api_mode (st : StationData) (connected : bool) (id mode_name : string) (now : Time)
  : Refusal + (StationData * list MqttCall * list Event) :=
  match find_reservoir st id with
  | None => inl not_found
  | Some (index, reservoir) =>
      let newAutoMode := (mode_name =? "auto")%string in
      inr (store_reservoir st index
             (set_reservoir_state reservoir (Reservoir.currentLevel reservoir)
                (Reservoir.pumpStatus reservoir) newAutoMode now
                (Reservoir.receivedTimestamp reservoir))
             now,
           match topic_set (Reservoir.modeTopic reservoir) with
           | Some modeTopic =>
               publish_if connected modeTopic (mode_payload reservoir mode_name)
                 (Reservoir.mqttQosMode reservoir)
           | None => []
           end,
           [reservoir_mode_changed (Reservoir.id reservoir) newAutoMode mode_name None])
  end.

(** Lines 1289 to 1314: the [pump_toggle] command of the socket.  Only
    [pumpStatus] is assigned. *)
Definition pump_toggle (st : StationData) (index : nat) (reservoir : Reservoir.t)
    (reservoirId pumpTopic : string) (now : Time)
  : StationData * list MqttCall * list Event :=
  let newStatus := negb (Reservoir.pumpStatus reservoir) in
  (store_reservoir st index
     (set_reservoir_state reservoir (Reservoir.currentLevel reservoir) newStatus
        (Reservoir.isAutoMode reservoir) (Reservoir.lastUpdate reservoir)
        (Reservoir.receivedTimestamp reservoir))
     now,
   [publish pumpTopic (pump_payload reservoir newStatus) (Reservoir.mqttQosPump reservoir)],
   [reservoir_pump_changed reservoirId newStatus None]).

(** Lines 1316 to 1342: the [mode_toggle] command of the socket.  Only
    [isAutoMode] is assigned. *)
Definition mode_toggle (st : StationData) (index : nat) (reservoir : Reservoir.t)
    (reservoirId modeTopic : string) (now : Time)
  : StationData * list MqttCall * list Event :=
  let newMode := if Reservoir.isAutoMode reservoir then "manual" else "auto" in
  (store_reservoir st index
     (set_reservoir_state reservoir (Reservoir.currentLevel reservoir)
        (Reservoir.pumpStatus reservoir) (negb (Reservoir.isAutoMode reservoir))
        (Reservoir.lastUpdate reservoir) (Reservoir.receivedTimestamp reservoir))
     now,
   [publish modeTopic (mode_payload reservoir newMode) (Reservoir.mqttQosMode reservoir)],
   [reservoir_mode_changed reservoirId (negb (Reservoir.isAutoMode reservoir)) newMode None]).

(** Lines 1284 to 1344: [socket.on('reservoir_command', ...)].  The two
    commands exclude each other, so at most one of the two blocks runs. *)
Definition reservoir_command (st : StationData) (connected : bool)
    (reservoirId command : string) (now : Time)
  : StationData * list MqttCall * list Event :=
  match find_reservoir st reservoirId with
  | Some (index, reservoir) =>
      if connected then
        if (command =? "pump_toggle")%string then
          match topic_set (Reservoir.pumpTopic reservoir) with
          | Some pumpTopic => pump_toggle st index reservoir reservoirId pumpTopic now
          | None => (st, [], [])
          end
        else if (command =? "mode_toggle")%string then
          match topic_set (Reservoir.modeTopic reservoir) with
          | Some modeTopic => mode_toggle st index reservoir reservoirId modeTopic now
          | None => (st, [], [])
          end
        else (st, [], [])
      else (st, [], [])
  | None => (st, [], [])
  end.

(* ================================================================== *)
(** * The history routes *)
(* ================================================================== *)

(** [parseInt(points)] for the query parameter [points = 50]: the default
    when the parameter is absent, NaN when its text holds no number. *)
Definition points_of (points : option string) : number :=
  match points with
  | None => num_of_Z 50
  | Some text =>
      match parseInt text with
      | Some z => num_of_Z z
      | None => NaN
      end
  end.

(** [period = '1h'] *)
Definition period_of (period : option string) : string :=
  match period with
  | Some p => p
  | None => "1h"
  end.

(** The answer of a history route: the entity whose description it
    copies, the points, the period and the length of the whole series. *)
Module HistoryAnswer.
Record t (A : Type) : Type := make {
  subject : A;
  data : list ChartPoint.t;
  period : string;
  totalPoints : nat
}.
Arguments make {A} _ _ _ _.
Arguments subject {A} _.
Arguments data {A} _.
Arguments period {A} _.
Arguments totalPoints {A} _.
End HistoryAnswer.

(** What a route answers with. *)
Inductive Answer (A : Type) : Type :=
  | answer_200 (body : A)
  | answer_404
  | answer_500.
Arguments answer_200 {A} _.
Arguments answer_404 {A}.
Arguments answer_500 {A}.

Section HistoryRoutes.
Variable formatTimeForChart : Time -> string -> string.

(** Lines 650 to 677: [GET /api/sensors/:id/history].  When the table
    yields no array under the id, but a member every object inherits,
    [history.filter] is no function and the route answers 500. *)
Definition get_sensor_history (st : StationData) (id : string)
    (period points : option string) (now : Time) : Answer (HistoryAnswer.t Sensor.t) :=
  match find_sensor st id with
  | None => answer_404
  | Some (_, sensor) =>
      match history_of (sensorHistory st) id with
      | Some history =>
          answer_200
            (HistoryAnswer.make sensor
               (filterHistoryByPeriod formatTimeForChart history (period_of period)
                  (points_of points) now)
               (period_of period)
               (List.length history))
      | None => answer_500
      end
  end.

(** Lines 714 to 740: [GET /api/reservoirs/:id/history]. *)
Definition get_reservoir_history (st : StationData) (id : string)
    (period points : option string) (now : Time)
  : Answer (HistoryAnswer.t Reservoir.t) :=
  match find_reservoir st id with
  | None => answer_404
  | Some (_, reservoir) =>
      match history_of (reservoirHistory st) id with
      | Some history =>
          answer_200
            (HistoryAnswer.make reservoir
               (filterHistoryByPeriod formatTimeForChart history (period_of period)
                  (points_of points) now)
               (period_of period)
               (List.length history))
      | None => answer_500
      end
  end.
End HistoryRoutes.

(* ================================================================== *)
(** * Subscriptions on [connect] *)
(* ================================================================== *)

(** [qos || 1] on a stored QoS. *)
Definition qos_or_1 (qos : Z) : Z := if (qos =? 0)%Z then 1%Z else qos.

(** [sensorTopicGroups[qos].push(topic)], the group being created when
    the key is new.  The groups are kept in the order of their creation. *)
Fixpoint group_push (groups : list (Z * list string)) (qos : Z) (topic : string)
  : list (Z * list string) :=
  match groups with
  | [] => [(qos, [topic])]
  | (q, topics) :: rest =>
      if (q =? qos)%Z then (q, (topics ++ [topic])%list) :: rest
      else (q, topics) :: group_push rest qos topic
  end.

(** Lines 760 to 768 *)
Definition sensorTopicGroups (sensors : list Sensor.t) : list (Z * list string) :=
  fold_left (fun groups sensor =>
               group_push groups (qos_or_1 (Sensor.mqttQos sensor)) (Sensor.topic sensor))
    sensors [].

(** A key that [Object.keys] lists among the array indices: these come
    first, in ascending order; the other keys follow in the order of their
    creation. *)
Definition is_array_index (q : Z) : bool := ((0 <=? q) && (q <? 4294967295))%Z.

Fixpoint insert_group (g : Z * list string) (sorted : list (Z * list string))
  : list (Z * list string) :=
  match sorted with
  | [] => [g]
  | h :: rest => if (g.1 <=? h.1)%Z then g :: h :: rest else h :: insert_group g rest
  end.

Definition Object_keys (groups : list (Z * list string)) : list (Z * list string) :=
  (fold_right insert_group [] (List.filter (fun g => is_array_index g.1) groups)
   ++ List.filter (fun g => negb (is_array_index g.1)) groups)%list.

(** Lines 780 to 802: the subscriptions of one reservoir. *)
Definition reservoir_subscriptions (reservoir : Reservoir.t) : list MqttCall :=
  (subscribe (Reservoir.topic reservoir) (qos_or_1 (Reservoir.mqttQosLevel reservoir))
   :: subscribe_if_set (Reservoir.pumpTopic reservoir) (qos_or_1 (Reservoir.mqttQosPump reservoir))
   ++ subscribe_if_set (Reservoir.fillTopic reservoir) (qos_or_1 (Reservoir.mqttQosFill reservoir))
   ++ subscribe_if_set (Reservoir.modeTopic reservoir) (qos_or_1 (Reservoir.mqttQosMode reservoir)))%list.

(** Lines 760 to 802: the subscriptions asked for by
    [mqttClient.on('connect', ...)], in order.  The key of a group
    is the decimal text of its QoS, which [parseInt] reads back. *)
Definition subscriptions_on_connect (st : StationData) : list MqttCall :=
  (flat_map (fun g => List.map (fun topic => subscribe topic g.1) g.2)
     (Object_keys (sensorTopicGroups (sensors st)))
   ++ flat_map reservoir_subscriptions (reservoirs st))%list.


(* ================================================================== *)
(** * Reference notions the properties are stated against *)
(* ================================================================== *)

(** The alerts among the events emitted. *)
Definition is_alert (e : Event) : bool :=
  match e with alert _ _ _ _ => true | _ => false end.

Definition alerts_of (events : list Event) : list Event := List.filter is_alert events.

(** The value [v] clamped to the interval from 0 to 100. *)
Definition clamp_0_100 (v : number) : number :=
  if num_lt v (num_of_Z 0) then num_of_Z 0
  else if num_gt v (num_of_Z 100) then num_of_Z 100
  else v.

(** The topic a reservoir has configured for a channel. *)
Definition configured_topic (r : Reservoir.t) (ch : Channel) : option string :=
  match ch with
  | level => Some (Reservoir.topic r)
  | pump => Reservoir.pumpTopic r
  | fill => Reservoir.fillTopic r
  | mode => Reservoir.modeTopic r
  | sensor_channel => None
  end.

(** [subscribed st T t]: the pair [t] of an entity and a channel has [T]
    as its configured topic. *)
Definition subscribed (st : StationData) (T : string) (t : Target) : Prop :=
  match t with
  | to_sensor i => exists s, sensors st !! i = Some s /\ Sensor.topic s = T
  | to_reservoir j ch =>
      exists r, reservoirs st !! j = Some r /\ configured_topic r ch = Some T
  end.

(** The boolean-like values of the pump channel:
    the texts 1, 0, true, false and the numbers 1 and 0. *)
Definition boolean_like (v : json) : bool :=
  match v with
  | JStr s => (s =? "1")%string || (s =? "0")%string
              || (s =? "true")%string || (s =? "false")%string
  | JNum n => num_eq n (num_of_Z 1) || num_eq n (num_of_Z 0)
  | _ => false
  end.

(** What a pump message yields for the state of the pump, given its
    decoded document and the configured path; [None] when the message is
    dropped. *)
Definition pump_reading (doc : json) (jsonPath : string) : option bool :=
  match extractValueFromJSON doc jsonPath with
  | jv JNull | undefined => None
  | jv v => Some (pump_status_of v)
  end.

(** Every stored history holds at most 1000 points. *)
Definition histories_bounded (h : History) : Prop :=
  forall id points, h !! id = Some points -> (List.length points <= 1000)%nat.

(** A message as the transport delivers it, with its time of arrival. *)
Record Message : Type := mkMessage {
  msg_topic : string;
  msg_payload : string;
  msg_time : Time
}.

(** The station data after a sequence of messages. *)
Fixpoint run (st : StationData) (messages : list Message) : StationData :=
  match messages with
  | [] => st
  | m :: rest => run (fst (on_message st (msg_topic m) (msg_payload m) (msg_time m))) rest
  end.

(** ** Path expressions of the grammar

    [segment ('.' segment | '[' digits ']')*]: a path is a non-empty
    sequence of dotted parts, each an identifier followed by any number
    of bracketed indices. *)
Definition PathPart : Type := (string * list string)%type.

Fixpoint render_indices (indices : list string) : string :=
  match indices with
  | [] => ""
  | digits :: rest => "[" ++ digits ++ "]" ++ render_indices rest
  end.

Definition render_part (p : PathPart) : string :=
  fst p ++ render_indices (snd p).

Fixpoint render_path (parts : list PathPart) : string :=
  match parts with
  | [] => ""
  | p :: rest =>
      render_part p ++ match rest with
                       | [] => ""
                       | _ :: _ => "." ++ render_path rest
                       end
  end.

Definition is_identifier (s : string) : bool :=
  match s with
  | EmptyString => false
  | String c r => is_ident_start c && all_chars is_ident_char r
  end.

Definition is_digits (s : string) : bool :=
  negb (str_is_empty s) && all_chars is_digit s.

Definition well_formed_part (p : PathPart) : bool :=
  is_identifier (fst p) && forallb is_digits (snd p).

Definition well_formed_path (parts : list PathPart) : bool :=
  negb (Nat.eqb (List.length parts) 0) && forallb well_formed_part parts.

(** At most one index per segment (the single-level indices of the
    supported subset). *)
Definition single_level (parts : list PathPart) : bool :=
  forallb (fun p => (List.length (snd p) <=? 1)%nat) parts.

(** No segment without an index is named [length]. *)
Definition no_plain_length (parts : list PathPart) : bool :=
  forallb (fun p => negb ((fst p =? "length")%string
                          && Nat.eqb (List.length (snd p)) 0)) parts.

(** The value a path addresses in a document: a dotted segment needs a
    keyed mapping that contains the key, a bracketed index needs an
    ordered sequence and an index within bounds; [None] on any mismatch. *)
Fixpoint addressed_by_indices (indices : list string) (current : json) : option json :=
  match indices with
  | [] => Some current
  | d :: rest =>
      match current with
      | JArr items =>
          match nth_error items (Z.to_nat (decimal_value d)) with
          | Some v => addressed_by_indices rest v
          | None => None
          end
      | _ => None
      end
  end.

Fixpoint addressed (parts : list PathPart) (current : json) : option json :=
  match parts with
  | [] => Some current
  | (key, indices) :: rest =>
      match current with
      | JObj members =>
          match own_property members key with
          | Some v =>
              match addressed_by_indices indices v with
              | Some w => addressed rest w
              | None => None
              end
          | None => None
          end
      | _ => None
      end
  end.

(** The [try] block ended with an absent value or with an exception
    (which the [catch] turns into [null]). *)
Definition absent_or_thrown (r : completion jsvalue) : Prop :=
  match r with
  | Return v => is_absent v = true
  | Throw _ => True
  end.

(** No mapping in which the path looks up a segment without an index has
    a member named hasOwnProperty. *)
Fixpoint unshadowed (parts : list PathPart) (current : json) : bool :=
  match parts with
  | [] => true
  | (key, indices) :: rest =>
      match current with
      | JObj members =>
          negb (Nat.eqb (List.length indices) 0
                && match own_property members "hasOwnProperty" with
                   | Some _ => true
                   | None => false
                   end)
          && match own_property members key with
             | Some v =>
                 match addressed_by_indices indices v with
                 | Some w => unshadowed rest w
                 | None => true
                 end
             | None => true
             end
      | _ => true
      end
  end.

(* ================================================================== *)
(** * Sample configurations *)
(* ================================================================== *)

(** The sensor of the documentation's example, with bounds 5 and 38. *)
Definition greenhouse : Sensor.t :=
  Sensor.make "1700000000000" "Greenhouse Temp 1"
    "application/1/device/abcd1234/event/up"
    true "object.temperature_c" "chirpstack_receive" true 1
    (Some (num_of_Z 5)) (Some (num_of_Z 38)) (num_of_Z 0) offline 0%Z None.

(** The reservoir of the documentation's example, with low threshold 25;
    the path of its pump topic is set to [data]. *)
Definition north_tank : Reservoir.t :=
  Reservoir.make "1700000000001" "North Tank"
    "application/1/device/abcd1234/event/up"
    (Some "application/1/device/abcd1234/command/down")
    (Some "application/1/device/abcd1234/command/down")
    (Some "application/1/device/abcd1234/command/down")
    true "object.level_percent" "chirpstack_receive" 1
    true "data" "chirpstack_send" 1
    false "" "chirpstack_send" 1
    false "" "chirpstack_send" 1
    false (num_of_Z 25) (num_of_Z 50) false true 0%Z None.


(** A reservoir whose pump topic carries plain text, pump running. *)
Definition plain_tank : Reservoir.t :=
  Reservoir.make "1700000000002" "South Tank" "farm/south/level"
    (Some "farm/south/pump") None (Some "farm/south/mode")
    false "" "chirpstack_receive" 1
    false "" "chirpstack_send" 1
    false "" "chirpstack_send" 1
    false "" "chirpstack_send" 1
    false (num_of_Z 25) (num_of_Z 50) true true 0%Z None.

(** The uplink of the documentation's device: 40 degrees, level 20. *)
Definition uplink : string :=
  JSON_stringify
    (JObj [("applicationID", JStr "1"); ("deviceName", JStr "abcd1234");
           ("devEUI", JStr "abcd1234");
           ("object", JObj [("temperature_c", JNum (num_of_Z 40));
                            ("level_percent", JNum (num_of_Z 20))])]).

(** The station of the documentation's example: the sensor and the
    reservoir registered on the same device. *)
Definition example_station : StationData :=
  mkStationData [greenhouse] [north_tank] ∅ ∅ 0%Z.

Definition sensor_station : StationData :=
  mkStationData [greenhouse] [] ∅ ∅ 0%Z.

Definition uplink_message : Message :=
  mkMessage "application/1/device/abcd1234/event/up" uplink 10%Z.

Definition sample_entry (t : Z) : HistoryEntry.t :=
  HistoryEntry.make t (Some (num_of_Z t)) None None.

Definition plain_station : StationData :=
  mkStationData [greenhouse] [plain_tank] ∅ ∅ 0%Z.

Definition uplink_topic : string := "application/1/device/abcd1234/event/up".
Definition downlink_topic : string := "application/1/device/abcd1234/command/down".

Definition ten_points : list HistoryEntry.t :=
  List.map sample_entry [1; 2; 3; 4; 5; 6; 7; 8; 9; 10]%Z.

Definition no_format (date : Time) (period : string) : string := "".

Definition soil_body : SensorBody.t :=
  SensorBody.make None "Soil" "farm/soil" None None None None None None None.

(** What registering [soil_body] at instant 20 gives. *)
Definition soil_sensor : Sensor.t :=
  Sensor.make "20" "Soil" "farm/soil" false "" "chirpstack_receive" false 1
    None None (num_of_Z 0) offline 20%Z None.

Definition soil_station : StationData :=
  mkStationData [greenhouse; soil_sensor] [] (<["20" := []]> ∅) ∅ 20%Z.



(** The decoded payload of a pump command in the ChirpStack send format. *)
Definition command_document (data : string) : json :=
  JObj [("confirmed", JBool true); ("data", JStr data); ("fPort", JNum (num_of_Z 1))].

(** [reservoir] with another configuration of its pump topic. *)
Definition set_pump_format (reservoir : Reservoir.t) (isJson : bool)
    (jsonPath jsonFormat : string) : Reservoir.t :=
  Reservoir.make (Reservoir.id reservoir) (Reservoir.name reservoir)
    (Reservoir.topic reservoir) (Reservoir.pumpTopic reservoir)
    (Reservoir.fillTopic reservoir) (Reservoir.modeTopic reservoir)
    (Reservoir.isJsonPayloadLevel reservoir) (Reservoir.jsonPathLevel reservoir)
    (Reservoir.jsonFormatLevel reservoir) (Reservoir.mqttQosLevel reservoir)
    isJson jsonPath jsonFormat (Reservoir.mqttQosPump reservoir)
    (Reservoir.isJsonPayloadFill reservoir) (Reservoir.jsonPathFill reservoir)
    (Reservoir.jsonFormatFill reservoir) (Reservoir.mqttQosFill reservoir)
    (Reservoir.isJsonPayloadMode reservoir) (Reservoir.jsonPathMode reservoir)
    (Reservoir.jsonFormatMode reservoir) (Reservoir.mqttQosMode reservoir)
    (Reservoir.showReceivedTimestamp reservoir) (Reservoir.lowThreshold reservoir)
    (Reservoir.currentLevel reservoir) (Reservoir.pumpStatus reservoir)
    (Reservoir.isAutoMode reservoir) (Reservoir.lastUpdate reservoir)
    (Reservoir.receivedTimestamp reservoir).

(** A document with an array of arrays, and the decoded uplink. *)
Definition nested_document : json :=
  JObj [("a", JArr [JArr [JNum (num_of_Z 10); JNum (num_of_Z 20)]])].

Definition uplink_document : json :=
  JObj [("applicationID", JStr "1"); ("deviceName", JStr "abcd1234");
        ("devEUI", JStr "abcd1234");
        ("object", JObj [("temperature_c", JNum (num_of_Z 40));
                         ("level_percent", JNum (num_of_Z 20))])].

(** A document with a member that shadows the inherited method. *)
Definition shadowing_document : json :=
  JObj [("hasOwnProperty", JNum (num_of_Z 1)); ("a", JNum (num_of_Z 5))].
(** The text of a document with one member, the value given as text. *)
Definition one_member (key value : string) : string :=
  "{" ++ String dquote key ++ String dquote ":" ++ value ++ "}".

(** A no-break space (U+00A0). *)
Definition nbsp : string := String (ascii_of_N 194) (String (ascii_of_N 160) EmptyString).


(* ================================================================== *)
(** * Further reference notions and samples *)
(* ================================================================== *)

(** [T] is one of the topics of the reservoir. *)
Definition on_topic (r : Reservoir.t) (T : string) : Prop :=
  Reservoir.topic r = T \/ Reservoir.pumpTopic r = Some T
  \/ Reservoir.fillTopic r = Some T \/ Reservoir.modeTopic r = Some T.

(** [reservoir] with another configuration of its mode topic. *)
Definition set_mode_format (reservoir : Reservoir.t) (isJson : bool)
    (jsonPath jsonFormat : string) : Reservoir.t :=
  Reservoir.make (Reservoir.id reservoir) (Reservoir.name reservoir)
    (Reservoir.topic reservoir) (Reservoir.pumpTopic reservoir)
    (Reservoir.fillTopic reservoir) (Reservoir.modeTopic reservoir)
    (Reservoir.isJsonPayloadLevel reservoir) (Reservoir.jsonPathLevel reservoir)
    (Reservoir.jsonFormatLevel reservoir) (Reservoir.mqttQosLevel reservoir)
    (Reservoir.isJsonPayloadPump reservoir) (Reservoir.jsonPathPump reservoir)
    (Reservoir.jsonFormatPump reservoir) (Reservoir.mqttQosPump reservoir)
    (Reservoir.isJsonPayloadFill reservoir) (Reservoir.jsonPathFill reservoir)
    (Reservoir.jsonFormatFill reservoir) (Reservoir.mqttQosFill reservoir)
    isJson jsonPath jsonFormat (Reservoir.mqttQosMode reservoir)
    (Reservoir.showReceivedTimestamp reservoir) (Reservoir.lowThreshold reservoir)
    (Reservoir.currentLevel reservoir) (Reservoir.pumpStatus reservoir)
    (Reservoir.isAutoMode reservoir) (Reservoir.lastUpdate reservoir)
    (Reservoir.receivedTimestamp reservoir).

(** The configuration of a reservoir: the reservoir with its state (level,
    pump, mode, time of last update, reception time) blanked. *)
Definition reservoir_settings (r : Reservoir.t) : Reservoir.t :=
  set_reservoir_state r (num_of_Z 0) false false 0%Z None.

(** The configuration of a sensor: the sensor with its state (value,
    status, time of last update, reception time) blanked. *)
Definition sensor_settings (s : Sensor.t) : Sensor.t :=
  Sensor.make (Sensor.id s) (Sensor.name s) (Sensor.topic s) (Sensor.isJsonPayload s)
    (Sensor.jsonPath s) (Sensor.jsonFormat s) (Sensor.showReceivedTimestamp s)
    (Sensor.mqttQos s) (Sensor.minValue s) (Sensor.maxValue s)
    (num_of_Z 0) offline 0%Z None.

(** [st'] differs from [st] at most in the state of the reservoir at
    [index] and in the time of the last save. *)
Definition changes_only_reservoir (st st' : StationData) (index : nat) : Prop :=
  sensors st' = sensors st
  /\ sensorHistory st' = sensorHistory st
  /\ reservoirHistory st' = reservoirHistory st
  /\ List.map reservoir_settings (reservoirs st') = List.map reservoir_settings (reservoirs st)
  /\ forall j, j <> index -> reservoirs st' !! j = reservoirs st !! j.

(** A body that configures the level topic in JSON mode and leaves the
    rest to the defaults, with a QoS of 0 asked for the pump topic. *)
Definition east_body : ReservoirBody.t :=
  ReservoirBody.make None "East Tank" "farm/east/level" (Some "farm/east/pump") None None
    (Some true) (Some "object.level") None None
    None None None (Some 0%Z)
    None None None None
    None None None None
    None (Some (num_of_Z 25)).

(** A body that asks for the JSON mode and names no path. *)
Definition pathless_body : SensorBody.t :=
  SensorBody.make None "Pathless" "application/1/device/abcd1234/event/up"
    (Some true) None None None None None None.

(** What the answer of a history route promises about the series
    [history] it was computed from. *)
Definition history_answer_sound (formatTimeForChart : Time -> string -> string)
    {A : Type} (history : list HistoryEntry.t) (period points : option string)
    (now : Time) (answer : HistoryAnswer.t A) : Prop :=
  let inWindow :=
    List.filter
      (fun record => (now - window (period_of period) <=? HistoryEntry.timestamp record)%Z)
      history in
  HistoryAnswer.period answer = period_of period
  /\ HistoryAnswer.totalPoints answer = List.length history
  /\ (forall point, In point (HistoryAnswer.data answer) ->
        (now - window (period_of period) <= ChartPoint.timestamp point)%Z)
  /\ (points = None -> (List.length (HistoryAnswer.data answer) <= 50)%nat)
  /\ (forall text m, points = Some text -> parseInt text = Some m -> (1 <= m)%Z ->
        (Z.of_nat (List.length (HistoryAnswer.data answer)) <= m)%Z)
  /\ (forall text, points = Some text -> parseInt text = None ->
        HistoryAnswer.data answer
        = List.map (render_point formatTimeForChart (period_of period)) inWindow).

(** What a history route owes for an entity it has found, given the
    history table: an answer computed from the series stored under the
    id, or from an empty series when none is stored; and the answer 500
    when the id names a member every object inherits, which the table
    yields in place of a series. *)
Definition history_route_sound (formatTimeForChart : Time -> string -> string)
    {A : Type} (table : History) (id : string) (subject : A)
    (period points : option string) (now : Time)
    (answer : Answer (HistoryAnswer.t A)) : Prop :=
  let computed_from (stored : list HistoryEntry.t) :=
    exists body,
      answer = answer_200 body
      /\ HistoryAnswer.subject body = subject
      /\ history_answer_sound formatTimeForChart stored period points now body in
  match table !! id with
  | Some stored => computed_from stored
  | None => if inherited id then answer = answer_500 else computed_from []
  end.

(** A station whose greenhouse sensor holds ten points. *)
Definition charted_station : StationData :=
  mkStationData [greenhouse] [] (<["1700000000000" := ten_points]> ∅) ∅ 20%Z.


(** A station with sensors of three QoS, the second stored as 0. *)
Definition mixed_station : StationData :=
  mkStationData
    [Sensor.make "1" "A" "farm/a" false "" "chirpstack_receive" false 2
       None None (num_of_Z 0) offline 0%Z None;
     Sensor.make "2" "B" "farm/b" false "" "chirpstack_receive" false 0
       None None (num_of_Z 0) offline 0%Z None;
     Sensor.make "3" "C" "farm/c" false "" "chirpstack_receive" false 2
       None None (num_of_Z 0) offline 0%Z None]
    [plain_tank] ∅ ∅ 0%Z.

(** ** The server as a machine

    A request the model covers, and the station data after it.  Requests
    are served one at a time, each to completion. *)
Inductive Request : Type :=
  | mqtt_message (topic payload : string)
  | register_sensor (body : SensorBody.t)
  | remove_sensor (id : string)
  | register_reservoir (body : ReservoirBody.t)
  | remove_reservoir (id : string)
  | command_pump (id action : string)
  | command_fill (id : string)
  | command_mode (id mode_name : string)
  | socket_command (reservoirId command : string).

Definition serve_one (st : StationData) (connected : bool) (request : Request)
    (now : Time) : StationData :=
  match request with
  | mqtt_message topic payload => (on_message st topic payload now).1
  | register_sensor body =>
      match post_sensor st body now with
      | inr (_, st') => st'
      | inl _ => st
      end
  | remove_sensor id =>
      match delete_sensor st connected id now with
      | inr (st', _, _) => st'
      | inl _ => st
      end
  | register_reservoir body =>
      match post_reservoir st connected body now with
      | inr (_, st', _, _) => st'
      | inl _ => st
      end
  | remove_reservoir id =>
      match delete_reservoir st connected id now with
      | inr (st', _, _) => st'
      | inl _ => st
      end
  | command_pump id action =>
      match api_pump st connected id action now with
      | inr (st', _, _) => st'
      | inl _ => st
      end
  | command_fill id =>
      match api_fill st connected id now with
      | inr (st', _, _) => st'
      | inl _ => st
      end
  | command_mode id mode_name =>
      match api_mode st connected id mode_name now with
      | inr (st', _, _) => st'
      | inl _ => st
      end
  | socket_command reservoirId command =>
      (reservoir_command st connected reservoirId command now).1.1
  end.

(** The station data after a sequence of requests, each with the state of
    the connection and the time at which it is served. *)
Fixpoint serve (st : StationData) (requests : list (bool * Request * Time)) : StationData :=
  match requests with
  | [] => st
  | (connected, request, now) :: rest => serve (serve_one st connected request now) rest
  end.

(** Every path of a topic in JSON mode passes the validation, and no QoS
    is 0. *)
Definition sensor_well_configured (s : Sensor.t) : Prop :=
  (Sensor.isJsonPayload s = true -> validateJSONPath (Sensor.jsonPath s) = true)
  /\ Sensor.mqttQos s <> 0%Z.

Definition reservoir_well_configured (r : Reservoir.t) : Prop :=
  (Reservoir.isJsonPayloadLevel r = true -> validateJSONPath (Reservoir.jsonPathLevel r) = true)
  /\ (Reservoir.isJsonPayloadPump r = true -> validateJSONPath (Reservoir.jsonPathPump r) = true)
  /\ (Reservoir.isJsonPayloadFill r = true -> validateJSONPath (Reservoir.jsonPathFill r) = true)
  /\ (Reservoir.isJsonPayloadMode r = true -> validateJSONPath (Reservoir.jsonPathMode r) = true)
  /\ Reservoir.mqttQosLevel r <> 0%Z /\ Reservoir.mqttQosPump r <> 0%Z
  /\ Reservoir.mqttQosFill r <> 0%Z /\ Reservoir.mqttQosMode r <> 0%Z.

Definition station_sound (st : StationData) : Prop :=
  histories_bounded (sensorHistory st)
  /\ histories_bounded (reservoirHistory st)
  /\ Forall sensor_well_configured (sensors st)
  /\ Forall reservoir_well_configured (reservoirs st).

(** The station data of a server that starts without a data file. *)
Definition empty_station : StationData := mkStationData [] [] ∅ ∅ 0%Z.


(* ================================================================== *)
(** * Properties *)
(* ================================================================== *)

(** ** Numbers *)

Lemma Qlt_bool_iff (x y : Q) : Qlt_bool x y = true <-> (x < y)%Q.
Proof. unfold Qlt_bool, Qlt. apply Z.ltb_lt. Qed.

Lemma Qlt_bool_false_iff (x y : Q) : Qlt_bool x y = false <-> (y <= x)%Q.
Proof. unfold Qlt_bool, Qle. rewrite Z.ltb_ge. reflexivity. Qed.

Lemma num_lt_asym (a b : number) : num_lt a b = true -> num_lt b a = false.
Proof.
  destruct a, b; simpl; try reflexivity; try discriminate.
  rewrite Qlt_bool_iff, Qlt_bool_false_iff. apply Qlt_le_weak.
Qed.

Lemma num_le_total (a b : number) :
  isNaN a = false -> isNaN b = false -> num_lt a b = false -> num_le b a = true.
Proof.
  unfold num_le. destruct a, b; simpl; try reflexivity; try discriminate.
  intros _ _ H. apply Qlt_bool_false_iff in H.
  destruct (Qlt_bool q0 q) eqn:E; [reflexivity|].
  apply Qlt_bool_false_iff in E. simpl.
  apply Qeq_bool_iff. apply Qle_antisym; assumption.
Qed.

Lemma num_le_refl (a : number) : isNaN a = false -> num_le a a = true.
Proof.
  unfold num_le. destruct a; simpl; try reflexivity; try discriminate.
  intros _. rewrite orb_true_iff. right. apply Qeq_bool_iff. reflexivity.
Qed.

Lemma clamp_correct (v : number) :
  Math_max (num_of_Z 0) (Math_min (num_of_Z 100) v) = clamp_0_100 v.
Proof.
  unfold Math_max, Math_min, clamp_0_100, num_gt, num_of_Z.
  destruct v as [| |q|]; simpl; try reflexivity.
  destruct (Qlt_bool (inject_Z 100) q) eqn:E100; simpl.
  - destruct (Qlt_bool q (inject_Z 0)) eqn:E0; [|reflexivity].
    apply Qlt_bool_iff in E100, E0. exfalso.
    apply (Qlt_irrefl q). eapply Qlt_trans; [exact E0|].
    eapply Qlt_trans; [|exact E100]. reflexivity.
  - destruct (Qlt_bool q (inject_Z 0)); reflexivity.
Qed.

Lemma clamp_in_range (v : number) :
  isNaN v = false ->
  num_le (num_of_Z 0) (clamp_0_100 v) = true /\ num_le (clamp_0_100 v) (num_of_Z 100) = true.
Proof.
  intros Hv. unfold clamp_0_100, num_gt.
  destruct (num_lt v (num_of_Z 0)) eqn:E0.
  - split; reflexivity.
  - destruct (num_lt (num_of_Z 100) v) eqn:E100.
    + split; reflexivity.
    + split; apply num_le_total; auto.
Qed.

(** ** Sensor ingestion *)

Lemma breached_Some (bound : option number) (test : number -> bool) (b : number) :
  breached bound test = Some b <-> bound = Some b /\ test b = true.
Proof.
  unfold breached. destruct bound as [x|]; [|split; [discriminate|intros [? _]; discriminate]].
  destruct (test x) eqn:E; split.
  - intros [= <-]. auto.
  - intros [[= <-] _]. reflexivity.
  - discriminate.
  - intros [[= <-] H]. congruence.
Qed.

Lemma breached_None (bound : option number) (test : number -> bool) :
  breached bound test = None <-> (forall b, bound = Some b -> test b = false).
Proof.
  unfold breached. destruct bound as [x|].
  - destruct (test x) eqn:E; split; try discriminate; try reflexivity.
    + intros H. specialize (H x eq_refl). congruence.
    + intros _ b [= <-]. exact E.
  - split; [intros _ b; discriminate | reflexivity].
Qed.

(** C3.  [handleSensorData] stores the value and the processing time; a
    value below the configured minimum gives status warning and exactly
    one low-threshold alert carrying the value and the minimum; otherwise
    a value above the configured maximum gives status warning and exactly
    one high-threshold alert; otherwise the status is online and no alert
    is emitted.  The minimum is tested first and at most one alert is
    emitted per ingestion. *)
Theorem sensor_ingestion_thresholds
    (sensor : Sensor.t) (v : number) (receivedTimestamp : option Time)
    (now : Time) (h : History) :
  let out := handleSensorData sensor v receivedTimestamp now h in
  let sensor' := out.1.1 in
  let alerts := alerts_of out.2 in
  Sensor.value sensor' = v
  /\ Sensor.lastUpdate sensor' = now
  /\ (List.length alerts <= 1)%nat
  /\ (forall m, Sensor.minValue sensor = Some m -> num_lt v m = true ->
        Sensor.status sensor' = warning
        /\ alerts = [alert low_threshold (Sensor.name sensor) v m])
  /\ (forall M, (forall m, Sensor.minValue sensor = Some m -> num_lt v m = false) ->
        Sensor.maxValue sensor = Some M -> num_gt v M = true ->
        Sensor.status sensor' = warning
        /\ alerts = [alert high_threshold (Sensor.name sensor) v M])
  /\ ((forall m, Sensor.minValue sensor = Some m -> num_lt v m = false) ->
      (forall M, Sensor.maxValue sensor = Some M -> num_gt v M = false) ->
        Sensor.status sensor' = online /\ alerts = []).
Proof.
  cbv zeta. unfold handleSensorData, update_sensor.
  destruct (breached (Sensor.minValue sensor) (fun minValue => num_lt v minValue))
    as [m0|] eqn:Emin.
  - apply breached_Some in Emin as [Hm0 Hlt].
    destruct (history_of h (Sensor.id sensor)); simpl;
      (split; [reflexivity|]); (split; [reflexivity|]); (split; [lia|]);
      (split; [|split]).
    1, 4: intros m Hm _; split; congruence.
    1, 3: intros M Hno; specialize (Hno m0 Hm0); congruence.
    1, 2: intros Hno; specialize (Hno m0 Hm0); congruence.
  - pose proof (proj1 (breached_None _ _) Emin) as Hmin.
    destruct (breached (Sensor.maxValue sensor) (fun maxValue => num_gt v maxValue))
      as [M0|] eqn:Emax.
    + apply breached_Some in Emax as [HM0 Hgt].
      destruct (history_of h (Sensor.id sensor)); simpl;
        (split; [reflexivity|]); (split; [reflexivity|]); (split; [lia|]);
        (split; [|split]).
      1, 4: intros m Hm Hlt; specialize (Hmin m Hm); congruence.
      1, 3: intros M _ HM _; split; congruence.
      1, 2: intros _ Hno; specialize (Hno M0 HM0); congruence.
    + pose proof (proj1 (breached_None _ _) Emax) as Hmax.
      destruct (history_of h (Sensor.id sensor)); simpl;
        (split; [reflexivity|]); (split; [reflexivity|]); (split; [lia|]);
        (split; [|split]).
      1, 4: intros m Hm Hlt; specialize (Hmin m Hm); congruence.
      1, 3: intros M _ HM Hgt; specialize (Hmax M HM); congruence.
      1, 2: intros _ _; split; reflexivity.
Qed.

Lemma sensor_ingestion_thresholds_witness :
  let out := handleSensorData greenhouse (num_of_Z 3) None 10%Z ∅ in
  Sensor.status out.1.1 = warning
  /\ alerts_of out.2
     = [alert low_threshold "Greenhouse Temp 1" (num_of_Z 3) (num_of_Z 5)].
Proof.
  destruct (sensor_ingestion_thresholds greenhouse (num_of_Z 3) None 10%Z ∅)
    as (_ & _ & _ & Hlow & _).
  exact (Hlow (num_of_Z 5) eq_refl eq_refl).
Defined.

Example sensor_ingest_40 :
  let out := handleSensorData greenhouse (num_of_Z 40) None 10%Z ∅ in
  Sensor.status out.1.1 = warning
  /\ out.2 = [alert high_threshold "Greenhouse Temp 1" (num_of_Z 40) (num_of_Z 38);
              sensor_realtime_update "1700000000000" (num_of_Z 40) warning 10%Z None].
Proof. split; reflexivity. Qed.

Example sensor_ingest_20 :
  let out := handleSensorData greenhouse (num_of_Z 20) None 10%Z ∅ in
  Sensor.status out.1.1 = online
  /\ out.2 = [sensor_realtime_update "1700000000000" (num_of_Z 20) online 10%Z None].
Proof. split; reflexivity. Qed.

(** ** Reservoir level ingestion *)

(** C4.  For a level that is a number, [handleReservoirLevelData] stores
    the level clamped to the interval from 0 to 100 and the processing
    time, and emits the low-level alert, carrying the clamped level and
    the threshold, exactly when the clamped level is at most the
    configured low threshold. *)
Theorem reservoir_level_clamped
    (reservoir : Reservoir.t) (v : number) (receivedTimestamp : option Time)
    (now : Time) (h : History) :
  isNaN v = false ->
  let out := handleReservoirLevelData reservoir v receivedTimestamp now h in
  let stored := Reservoir.currentLevel out.1.1 in
  stored = clamp_0_100 v
  /\ num_le (num_of_Z 0) stored = true
  /\ num_le stored (num_of_Z 100) = true
  /\ Reservoir.lastUpdate out.1.1 = now
  /\ alerts_of out.2
     = (if num_le stored (Reservoir.lowThreshold reservoir)
        then [alert low_level (Reservoir.name reservoir) stored
                (Reservoir.lowThreshold reservoir)]
        else []).
Proof.
  intros Hv. cbv zeta. unfold handleReservoirLevelData.
  rewrite clamp_correct.
  destruct (clamp_in_range v Hv) as [Hlo Hhi].
  destruct (history_of h (Reservoir.id reservoir)); simpl;
    (split; [reflexivity|]); (split; [exact Hlo|]); (split; [exact Hhi|]);
    (split; [reflexivity|]);
    destruct (num_le (clamp_0_100 v) (Reservoir.lowThreshold reservoir)); reflexivity.
Qed.

Lemma reservoir_level_clamped_witness :
  Reservoir.currentLevel
    (handleReservoirLevelData north_tank (num_of_Z 130) None 10%Z ∅).1.1
  = clamp_0_100 (num_of_Z 130).
Proof.
  exact (proj1 (reservoir_level_clamped north_tank (num_of_Z 130) None 10%Z ∅ eq_refl)).
Defined.

Example level_130_stores_100 :
  Reservoir.currentLevel
    (handleReservoirLevelData north_tank (num_of_Z 130) None 10%Z ∅).1.1 = num_of_Z 100.
Proof. reflexivity. Qed.

Example level_minus_10_stores_0 :
  Reservoir.currentLevel
    (handleReservoirLevelData north_tank (num_of_Z (-10)) None 10%Z ∅).1.1 = num_of_Z 0.
Proof. reflexivity. Qed.

Example level_20_alerts :
  alerts_of (handleReservoirLevelData north_tank (num_of_Z 20) None 10%Z ∅).2
  = [alert low_level "North Tank" (num_of_Z 20) (num_of_Z 25)].
Proof. reflexivity. Qed.

Example level_60_no_alert :
  alerts_of (handleReservoirLevelData north_tank (num_of_Z 60) None 10%Z ∅).2 = [].
Proof. reflexivity. Qed.

(** ** Bounded histories *)

Lemma push_bounded_below (history : list HistoryEntry.t) (entry : HistoryEntry.t) :
  (List.length history < 1000)%nat -> push_bounded history entry = (history ++ [entry])%list.
Proof.
  intros H. unfold push_bounded.
  destruct (Nat.ltb_spec 1000 (List.length (history ++ [entry])%list)) as [Hgt|_];
    [|reflexivity].
  rewrite length_app in Hgt. simpl in Hgt. lia.
Qed.

Lemma push_bounded_at_capacity (history : list HistoryEntry.t) (entry : HistoryEntry.t) :
  (1000 <= List.length history)%nat ->
  push_bounded history entry = (tail history ++ [entry])%list.
Proof.
  intros H. unfold push_bounded.
  destruct (Nat.ltb_spec 1000 (List.length (history ++ [entry])%list)) as [_|Hle].
  - destruct history as [|x rest]; [simpl in H; lia|reflexivity].
  - rewrite length_app in Hle. simpl in Hle. lia.
Qed.

Lemma push_bounded_full (history : list HistoryEntry.t) (entry : HistoryEntry.t) :
  List.length history = 1000%nat ->
  push_bounded history entry = (tail history ++ [entry])%list.
Proof. intros H. apply push_bounded_at_capacity. lia. Qed.

Lemma push_bounded_length (history : list HistoryEntry.t) (entry : HistoryEntry.t) :
  (List.length history <= 1000)%nat ->
  (List.length (push_bounded history entry) <= 1000)%nat.
Proof.
  intros H. destruct (Nat.eq_dec (List.length history) 1000) as [Heq|Hne].
  - rewrite push_bounded_full by exact Heq.
    rewrite length_app. simpl.
    destruct history; simpl in *; lia.
  - rewrite push_bounded_below by lia.
    rewrite length_app. simpl. lia.
Qed.

Lemma history_of_Some (h : History) (id : string) (stored : list HistoryEntry.t) :
  history_of h id = Some stored <->
  h !! id = Some stored \/ (h !! id = None /\ inherited id = false /\ stored = []).
Proof.
  unfold history_of, slot_of. destruct (h !! id) as [points|].
  - split; [intros H; left; exact H|].
    intros [H|(H & _)]; [exact H|discriminate H].
  - destruct (inherited id); split.
    + discriminate.
    + intros [H|(_ & H & _)]; discriminate H.
    + intros [= <-]. right. auto.
    + intros [H|(_ & _ & ->)]; [discriminate H|reflexivity].
Qed.

Lemma history_of_None (h : History) (id : string) :
  history_of h id = None <-> h !! id = None /\ inherited id = true.
Proof.
  unfold history_of, slot_of. destruct (h !! id) as [points|].
  - split; [discriminate|]. intros [H _]. discriminate H.
  - destruct (inherited id); split; try discriminate; auto.
    intros [_ H]. discriminate H.
Qed.

Lemma history_of_bounded (h : History) (id : string) (stored : list HistoryEntry.t) :
  histories_bounded h -> history_of h id = Some stored ->
  (List.length stored <= 1000)%nat.
Proof.
  intros Hb Hs. apply history_of_Some in Hs as [Hs|(_ & _ & ->)].
  - exact (Hb id stored Hs).
  - simpl. lia.
Qed.

Lemma insert_bounded (h : History) (id : string) (points : list HistoryEntry.t) :
  histories_bounded h -> (List.length points <= 1000)%nat ->
  histories_bounded (<[id := points]> h).
Proof.
  intros Hb Hp id' points' Hlook.
  destruct (decide (id = id')) as [->|Hne].
  - rewrite lookup_insert_eq in Hlook. injection Hlook as <-. exact Hp.
  - rewrite lookup_insert_ne in Hlook by exact Hne. exact (Hb id' points' Hlook).
Qed.

(** The history table after [handleSensorData]: the point pushed onto
    the array the table yields, or the table as it was when it yields
    none. *)
Lemma handleSensorData_history (sensor : Sensor.t) (v : number)
    (receivedTimestamp : option Time) (now : Time) (h : History) :
  (handleSensorData sensor v receivedTimestamp now h).1.2
  = match history_of h (Sensor.id sensor) with
    | Some stored =>
        <[Sensor.id sensor :=
            push_bounded stored
              (HistoryEntry.make now (Some v) None
                 (shown receivedTimestamp (Sensor.showReceivedTimestamp sensor)))]> h
    | None => h
    end.
Proof.
  unfold handleSensorData. destruct (update_sensor _ _ _ _).
  destruct (history_of h (Sensor.id sensor)); reflexivity.
Qed.

Lemma handleReservoirLevelData_history (reservoir : Reservoir.t) (v : number)
    (receivedTimestamp : option Time) (now : Time) (h : History) :
  (handleReservoirLevelData reservoir v receivedTimestamp now h).1.2
  = match history_of h (Reservoir.id reservoir) with
    | Some stored =>
        <[Reservoir.id reservoir :=
            push_bounded stored
              (HistoryEntry.make now None
                 (Some (Math_max (num_of_Z 0) (Math_min (num_of_Z 100) v)))
                 (shown receivedTimestamp
                    (Reservoir.showReceivedTimestamp reservoir)))]> h
    | None => h
    end.
Proof.
  unfold handleReservoirLevelData.
  destruct (history_of h (Reservoir.id reservoir)); reflexivity.
Qed.

Lemma pushed_bounded (h : History) (id : string) (entry : HistoryEntry.t) :
  histories_bounded h ->
  histories_bounded
    match history_of h id with
    | Some stored => <[id := push_bounded stored entry]> h
    | None => h
    end.
Proof.
  intros Hb. destruct (history_of h id) as [stored|] eqn:E; [|exact Hb].
  apply insert_bounded; [exact Hb|].
  apply push_bounded_length. exact (history_of_bounded h id stored Hb E).
Qed.

Lemma handleReservoirTopicMessage_bounded (reservoir reservoir' : Reservoir.t)
    (messageStr : string) (ch : Channel) (receivedTimestamp : option Time) (now : Time)
    (h h' : History) (events : list Event) :
  handleReservoirTopicMessage reservoir messageStr ch receivedTimestamp now h
  = Some (reservoir', h', events) ->
  histories_bounded h -> histories_bounded h'.
Proof.
  unfold handleReservoirTopicMessage. intros Hrun Hb.
  destruct (topicConfig reservoir ch) as [[[isJson jsonPath] fmt]|]; [|discriminate].
  destruct (reservoir_extract isJson jsonPath fmt messageStr) as [extracted|]; [|discriminate].
  destruct ch; try discriminate.
  - destruct (negb (isNaN (parseFloat_of extracted))); [|discriminate].
    injection Hrun as Hrun. apply (f_equal (fun x => x.1.2)) in Hrun.
    rewrite handleReservoirLevelData_history in Hrun. simpl in Hrun. subst h'.
    apply pushed_bounded, Hb.
  - unfold handleReservoirPumpData in Hrun. injection Hrun as _ <- _. exact Hb.
  - unfold handleReservoirModeData in Hrun. injection Hrun as _ <- _. exact Hb.
Qed.

Lemma deliver_bounded (messageStr : string) (receivedTimestamp now : Time)
    (st : StationData) (target : Target) :
  histories_bounded (sensorHistory st) -> histories_bounded (reservoirHistory st) ->
  let st' := (deliver messageStr receivedTimestamp now st target).1.1 in
  histories_bounded (sensorHistory st') /\ histories_bounded (reservoirHistory st').
Proof.
  intros Hs Hr. cbv zeta. unfold deliver.
  destruct target as [i|i ch].
  - destruct (sensors st !! i) as [sensor|]; [|split; assumption].
    destruct (sensor_extract sensor messageStr) as [v|]; [|split; assumption].
    pose proof (handleSensorData_history sensor v (Some receivedTimestamp) now
                  (sensorHistory st)) as Hh.
    destruct (handleSensorData sensor v (Some receivedTimestamp) now (sensorHistory st))
      as [[sensor' h'] events]. simpl in *. subst h'.
    split; [|exact Hr].
    apply pushed_bounded, Hs.
  - destruct (reservoirs st !! i) as [reservoir|]; [|split; assumption].
    destruct (handleReservoirTopicMessage reservoir messageStr ch (Some receivedTimestamp)
                now (reservoirHistory st)) as [[[reservoir' h'] events]|] eqn:E;
      [|split; assumption].
    simpl. split; [exact Hs|].
    eapply handleReservoirTopicMessage_bounded; eauto.
Qed.

Lemma deliver_all_bounded (messageStr : string) (receivedTimestamp now : Time)
    (targets : list Target) (st : StationData) :
  histories_bounded (sensorHistory st) -> histories_bounded (reservoirHistory st) ->
  let st' := (deliver_all messageStr receivedTimestamp now st targets).1 in
  histories_bounded (sensorHistory st') /\ histories_bounded (reservoirHistory st').
Proof.
  revert st. induction targets as [|t rest IH]; intros st Hs Hr; cbv zeta; simpl.
  - split; assumption.
  - destruct (deliver_bounded messageStr receivedTimestamp now st t Hs Hr) as [Hs1 Hr1].
    destruct (deliver messageStr receivedTimestamp now st t) as [[st1 ev1] thrown].
    simpl in *. destruct thrown; [split; assumption|].
    specialize (IH st1 Hs1 Hr1). cbv zeta in IH.
    destruct (deliver_all messageStr receivedTimestamp now st1 rest) as [st2 ev2].
    exact IH.
Qed.

Lemma run_bounded (messages : list Message) (st : StationData) :
  histories_bounded (sensorHistory st) -> histories_bounded (reservoirHistory st) ->
  histories_bounded (sensorHistory (run st messages))
  /\ histories_bounded (reservoirHistory (run st messages)).
Proof.
  revert st. induction messages as [|m rest IH]; intros st Hs Hr; simpl.
  - split; assumption.
  - unfold on_message.
    destruct (deliver_all_bounded (msg_payload m) (msg_time m) (msg_time m)
                (route st (msg_topic m)) st Hs Hr) as [Hs1 Hr1].
    apply IH; assumption.
Qed.

Lemma post_sensor_bounded (st st' : StationData) (body : SensorBody.t) (now : Time)
    (sensor : Sensor.t) :
  post_sensor st body now = inr (sensor, st') ->
  histories_bounded (sensorHistory st) -> histories_bounded (reservoirHistory st) ->
  histories_bounded (sensorHistory st') /\ histories_bounded (reservoirHistory st').
Proof.
  unfold post_sensor. intros Hpost Hs Hr.
  destruct (_ && _); [discriminate|].
  injection Hpost as _ <-. simpl. split; [|exact Hr].
  match goal with |- context [slot_of (sensorHistory st) ?k] =>
    destruct (slot_of (sensorHistory st) k) end; try exact Hs.
  apply insert_bounded; [exact Hs|simpl; lia].
Qed.

(** The series stored under the id of the entity after an ingestion,
    read from the series stored before it. *)
Lemma pushed_lookup (h : History) (id : string) (entry : HistoryEntry.t) :
  let h' := match history_of h id with
            | Some stored => <[id := push_bounded stored entry]> h
            | None => h
            end in
  (forall points, h !! id = Some points -> (List.length points < 1000)%nat ->
                  h' !! id = Some (points ++ [entry])%list)
  /\ (forall points, h !! id = Some points -> (1000 <= List.length points)%nat ->
                     h' !! id = Some (tail points ++ [entry])%list)
  /\ (h !! id = None -> inherited id = false -> h' !! id = Some [entry])
  /\ (h !! id = None -> inherited id = true -> h' = h)
  /\ (forall other, other <> id -> h' !! other = h !! other).
Proof.
  cbv zeta. split; [|split; [|split; [|split]]].
  - intros points Hp Hlen.
    rewrite (proj2 (history_of_Some h id points) (or_introl Hp)).
    rewrite lookup_insert_eq, push_bounded_below by exact Hlen. reflexivity.
  - intros points Hp Hlen.
    rewrite (proj2 (history_of_Some h id points) (or_introl Hp)).
    rewrite lookup_insert_eq, push_bounded_at_capacity by exact Hlen. reflexivity.
  - intros Hnone Hown.
    rewrite (proj2 (history_of_Some h id []) (or_intror (conj Hnone (conj Hown eq_refl)))).
    rewrite lookup_insert_eq. reflexivity.
  - intros Hnone Hinh.
    rewrite (proj2 (history_of_None h id) (conj Hnone Hinh)). reflexivity.
  - intros other Hne. destruct (history_of h id); [|reflexivity].
    apply lookup_insert_ne. congruence.
Qed.

(** C5.  Histories that hold at most 1000 points keep doing so after any
    sequence of messages and after a registration.  An ingestion reads
    the series stored under the id of the entity and stores it back with
    the new point behind the others: all of them when fewer than 1000 are
    stored, all but the first when 1000 (or more) are stored, and the new
    point alone when none is stored; under an id that names a member
    every object inherits it stores nothing.  The series of the other
    entities are left as they are. *)
Theorem history_capacity :
  (forall st messages,
      histories_bounded (sensorHistory st) -> histories_bounded (reservoirHistory st) ->
      histories_bounded (sensorHistory (run st messages))
      /\ histories_bounded (reservoirHistory (run st messages)))
  /\ (forall st body now sensor st',
         post_sensor st body now = inr (sensor, st') ->
         histories_bounded (sensorHistory st) -> histories_bounded (reservoirHistory st) ->
         histories_bounded (sensorHistory st') /\ histories_bounded (reservoirHistory st'))
  /\ (forall sensor v receivedTimestamp now h,
         let id := Sensor.id sensor in
         let h' := (handleSensorData sensor v receivedTimestamp now h).1.2 in
         let point := HistoryEntry.make now (Some v) None
                        (shown receivedTimestamp (Sensor.showReceivedTimestamp sensor)) in
         (forall points, h !! id = Some points -> (List.length points < 1000)%nat ->
                         h' !! id = Some (points ++ [point])%list)
         /\ (forall points, h !! id = Some points -> (1000 <= List.length points)%nat ->
                            h' !! id = Some (tail points ++ [point])%list)
         /\ (h !! id = None -> inherited id = false -> h' !! id = Some [point])
         /\ (h !! id = None -> inherited id = true -> h' = h)
         /\ (forall other, other <> id -> h' !! other = h !! other))
  /\ (forall reservoir v receivedTimestamp now h,
         let id := Reservoir.id reservoir in
         let out := handleReservoirLevelData reservoir v receivedTimestamp now h in
         let h' := out.1.2 in
         let point := HistoryEntry.make now None
                        (Some (Reservoir.currentLevel out.1.1))
                        (shown receivedTimestamp
                           (Reservoir.showReceivedTimestamp reservoir)) in
         (forall points, h !! id = Some points -> (List.length points < 1000)%nat ->
                         h' !! id = Some (points ++ [point])%list)
         /\ (forall points, h !! id = Some points -> (1000 <= List.length points)%nat ->
                            h' !! id = Some (tail points ++ [point])%list)
         /\ (h !! id = None -> inherited id = false -> h' !! id = Some [point])
         /\ (h !! id = None -> inherited id = true -> h' = h)
         /\ (forall other, other <> id -> h' !! other = h !! other)).
Proof.
  split; [intros; apply run_bounded; assumption|].
  split; [intros; eapply post_sensor_bounded; eassumption|].
  split.
  - intros sensor v receivedTimestamp now h. cbv zeta.
    rewrite handleSensorData_history. apply pushed_lookup.
  - intros reservoir v receivedTimestamp now h. cbv zeta.
    rewrite handleReservoirLevelData_history.
    replace (Reservoir.currentLevel
               (handleReservoirLevelData reservoir v receivedTimestamp now h).1.1)
      with (Math_max (num_of_Z 0) (Math_min (num_of_Z 100) v)).
    + apply pushed_lookup.
    + unfold handleReservoirLevelData.
      destruct (history_of h (Reservoir.id reservoir)); reflexivity.
Qed.

Lemma empty_bounded : histories_bounded ∅.
Proof. intros id points H. rewrite lookup_empty in H. discriminate H. Defined.

Lemma history_capacity_witness :
  histories_bounded (sensorHistory (run example_station [uplink_message; uplink_message]))
  /\ (handleSensorData greenhouse (num_of_Z 20) None 10%Z
        {[ "1700000000000" := repeat (sample_entry 1) 1000 ]}).1.2 !! "1700000000000"
     = Some (tail (repeat (sample_entry 1) 1000)
             ++ [HistoryEntry.make 10%Z (Some (num_of_Z 20)) None None])%list.
Proof.
  destruct history_capacity as (Hrun & _ & Hsensor & _).
  split.
  - apply (Hrun example_station [uplink_message; uplink_message]); exact empty_bounded.
  - destruct (Hsensor greenhouse (num_of_Z 20) None 10%Z
                {[ "1700000000000" := repeat (sample_entry 1) 1000 ]})
      as (_ & Hfull & _).
    apply (Hfull (repeat (sample_entry 1) 1000)).
    + apply lookup_singleton_eq.
    + rewrite repeat_length. lia.
Defined.

Example two_uplinks_two_points :
  List.length <$>
    sensorHistory (run sensor_station [uplink_message; uplink_message]) !! "1700000000000"
  = Some 2%nat.
Proof. vm_compute. reflexivity. Qed.

(** A sensor whose id names a member every object inherits is updated
    by its first message, and no point is ever stored for it. *)
Example inherited_id_stores_nothing :
  let sensor := Sensor.make "constructor" "Probe" "farm/probe" false "" "simple" false 1%Z
                  None None (num_of_Z 0) offline 0%Z None in
  let out := handleSensorData sensor (num_of_Z 20) None 10%Z ∅ in
  Sensor.value out.1.1 = num_of_Z 20 /\ out.1.2 = ∅ /\ out.2 = [].
Proof. repeat split. Qed.

(** ** Ingesting a payload twice *)

Lemma shown_received_sensor (sensor : Sensor.t) (v : number)
    (receivedTimestamp : option Time) (now : Time) :
  let sensor' := (update_sensor sensor v receivedTimestamp now).1 in
  Sensor.id sensor' = Sensor.id sensor
  /\ Sensor.name sensor' = Sensor.name sensor
  /\ Sensor.showReceivedTimestamp sensor' = Sensor.showReceivedTimestamp sensor
  /\ Sensor.minValue sensor' = Sensor.minValue sensor
  /\ Sensor.maxValue sensor' = Sensor.maxValue sensor.
Proof.
  cbv zeta. unfold update_sensor.
  destruct (breached (Sensor.minValue sensor) _);
    [|destruct (breached (Sensor.maxValue sensor) _)]; simpl; auto.
Qed.

Lemma update_sensor_twice (sensor : Sensor.t) (v : number)
    (receivedTimestamp : option Time) (now : Time) :
  update_sensor (update_sensor sensor v receivedTimestamp now).1 v receivedTimestamp now
  = update_sensor sensor v receivedTimestamp now.
Proof.
  unfold update_sensor.
  destruct (breached (Sensor.minValue sensor) (fun minValue => num_lt v minValue)) eqn:Emin;
    [|destruct (breached (Sensor.maxValue sensor) (fun maxValue => num_gt v maxValue))
        eqn:Emax]; simpl; rewrite ?Emin, ?Emax; simpl;
    destruct (shown receivedTimestamp (Sensor.showReceivedTimestamp sensor)); reflexivity.
Qed.

Lemma received_of_twice (reservoir : Reservoir.t) (level : number) (pumpStatus isAutoMode : bool)
    (receivedTimestamp : option Time) (now : Time) :
  received_of
    (set_reservoir_state reservoir level pumpStatus isAutoMode now
       (received_of reservoir receivedTimestamp)) receivedTimestamp
  = received_of reservoir receivedTimestamp.
Proof.
  unfold received_of. simpl.
  destruct (shown receivedTimestamp (Reservoir.showReceivedTimestamp reservoir)); reflexivity.
Qed.

Lemma history_of_insert (h : History) (id : string) (points : list HistoryEntry.t) :
  history_of (<[id := points]> h) id = Some points.
Proof. unfold history_of, slot_of. rewrite lookup_insert_eq. reflexivity. Qed.

(** Two pushes of the same point under the same id. *)
Lemma pushed_twice (h : History) (id : string) (entry : HistoryEntry.t) :
  let push table :=
    match history_of table id with
    | Some stored => <[id := push_bounded stored entry]> table
    | None => table
    end in
  (forall points, h !! id = Some points ->
     push h = <[id := push_bounded points entry]> h
     /\ push (push h) = <[id := push_bounded (push_bounded points entry) entry]> h)
  /\ (h !! id = None -> inherited id = false ->
      push h = <[id := [entry]]> h /\ push (push h) = <[id := [entry; entry]]> h)
  /\ (h !! id = None -> inherited id = true -> push h = h /\ push (push h) = h).
Proof.
  cbv zeta. split; [|split].
  - intros points Hp.
    rewrite (proj2 (history_of_Some h id points) (or_introl Hp)).
    rewrite history_of_insert, insert_insert_eq. split; reflexivity.
  - intros Hnone Hown.
    rewrite (proj2 (history_of_Some h id []) (or_intror (conj Hnone (conj Hown eq_refl)))).
    rewrite history_of_insert, insert_insert_eq. split; reflexivity.
  - intros Hnone Hinh.
    rewrite (proj2 (history_of_None h id) (conj Hnone Hinh)).
    rewrite (proj2 (history_of_None h id) (conj Hnone Hinh)). split; reflexivity.
Qed.

Lemma alerts_of_update_sensor (sensor : Sensor.t) (v : number)
    (receivedTimestamp : option Time) (now : Time) :
  alerts_of (update_sensor sensor v receivedTimestamp now).2
  = (update_sensor sensor v receivedTimestamp now).2.
Proof.
  unfold update_sensor.
  destruct (breached (Sensor.minValue sensor) _);
    [|destruct (breached (Sensor.maxValue sensor) _)]; reflexivity.
Qed.

(** C9, as the code has it.  Ingesting the same value again at the same
    instant leaves the entity as the first ingestion left it and emits the
    same events, but the history is not left as it was: the series stored
    under the id of the entity receives the same point a second time.
    Under an id that names a member every object inherits, neither
    ingestion stores a point or emits a realtime update: both end by
    throwing, after the entity is updated and the alert emitted.  This
    holds for a sensor and for a reservoir level alike. *)
Theorem reingestion_repeats_the_point :
  (forall sensor v receivedTimestamp now h,
      let first := handleSensorData sensor v receivedTimestamp now h in
      let second := handleSensorData first.1.1 v receivedTimestamp now first.1.2 in
      let id := Sensor.id sensor in
      let point := HistoryEntry.make now (Some v) None
                     (shown receivedTimestamp (Sensor.showReceivedTimestamp sensor)) in
      let update := sensor_realtime_update id v (Sensor.status first.1.1) now
                      (shown receivedTimestamp (Sensor.showReceivedTimestamp sensor)) in
      second.1.1 = first.1.1
      /\ second.2 = first.2
      /\ (forall points, h !! id = Some points ->
            first.1.2 = <[id := push_bounded points point]> h
            /\ second.1.2 = <[id := push_bounded (push_bounded points point) point]> h
            /\ last first.2 = Some update)
      /\ (h !! id = None -> inherited id = false ->
            first.1.2 = <[id := [point]]> h
            /\ second.1.2 = <[id := [point; point]]> h
            /\ last first.2 = Some update)
      /\ (h !! id = None -> inherited id = true ->
            first.1.2 = h /\ second.1.2 = h /\ alerts_of first.2 = first.2))
  /\ (forall reservoir v receivedTimestamp now h,
         let first := handleReservoirLevelData reservoir v receivedTimestamp now h in
         let second :=
           handleReservoirLevelData first.1.1 v receivedTimestamp now first.1.2 in
         let id := Reservoir.id reservoir in
         let point := HistoryEntry.make now None
                        (Some (Reservoir.currentLevel first.1.1))
                        (shown receivedTimestamp
                           (Reservoir.showReceivedTimestamp reservoir)) in
         let update := reservoir_realtime_update id (Reservoir.currentLevel first.1.1) now
                         (shown receivedTimestamp
                            (Reservoir.showReceivedTimestamp reservoir)) in
         second.1.1 = first.1.1
         /\ second.2 = first.2
         /\ (forall points, h !! id = Some points ->
               first.1.2 = <[id := push_bounded points point]> h
               /\ second.1.2 = <[id := push_bounded (push_bounded points point) point]> h
               /\ last first.2 = Some update)
         /\ (h !! id = None -> inherited id = false ->
               first.1.2 = <[id := [point]]> h
               /\ second.1.2 = <[id := [point; point]]> h
               /\ last first.2 = Some update)
         /\ (h !! id = None -> inherited id = true ->
               first.1.2 = h /\ second.1.2 = h /\ alerts_of first.2 = first.2)).
Proof.
  split.
  - intros sensor v receivedTimestamp now h. cbv zeta.
    pose proof (update_sensor_twice sensor v receivedTimestamp now) as Htwice.
    pose proof (shown_received_sensor sensor v receivedTimestamp now) as Hsame.
    pose proof (alerts_of_update_sensor sensor v receivedTimestamp now) as Halerts.
    pose proof (pushed_twice h (Sensor.id sensor)
                  (HistoryEntry.make now (Some v) None
                     (shown receivedTimestamp (Sensor.showReceivedTimestamp sensor))))
      as Hpush.
    cbv beta zeta in Hpush. destruct Hpush as (Hstored & Hnew & Hinh).
    cbv zeta in Hsame.
    assert (Hnow : Sensor.lastUpdate (update_sensor sensor v receivedTimestamp now).1 = now).
    { unfold update_sensor.
      destruct (breached (Sensor.minValue sensor) _);
        [|destruct (breached (Sensor.maxValue sensor) _)]; reflexivity. }
    unfold handleSensorData.
    destruct (update_sensor sensor v receivedTimestamp now) as [sensor1 alerts1] eqn:E1.
    simpl in Htwice, Hsame, Halerts, Hnow. destruct Hsame as (Hid & _ & Hshow & _).
    destruct (history_of h (Sensor.id sensor)) as [stored|] eqn:E.
    + cbn [fst snd]. rewrite Htwice, Hid, Hshow, history_of_insert.
      cbn [fst snd]. rewrite Hnow.
      split; [reflexivity|]. split; [reflexivity|].
      rewrite history_of_insert in Hstored, Hnew.
      split; [|split].
      * intros points Hp. destruct (Hstored points Hp) as [H1 H2].
        rewrite last_snoc. auto.
      * intros Hnone Hown. destruct (Hnew Hnone Hown) as [H1 H2].
        rewrite last_snoc. auto.
      * intros Hnone Hi. apply history_of_Some in E as [E|(_ & E & _)]; congruence.
    + cbn [fst snd]. rewrite Htwice, Hid, Hshow, E. cbn [fst snd].
      split; [reflexivity|]. split; [reflexivity|].
      apply history_of_None in E as [Hnone Hi].
      split; [|split].
      * intros points Hp. congruence.
      * intros _ Hown. congruence.
      * intros _ _. auto.
  - intros reservoir v receivedTimestamp now h. cbv zeta.
    pose proof (pushed_twice h (Reservoir.id reservoir)
                  (HistoryEntry.make now None
                     (Some (Math_max (num_of_Z 0) (Math_min (num_of_Z 100) v)))
                     (shown receivedTimestamp (Reservoir.showReceivedTimestamp reservoir))))
      as Hpush.
    cbv beta zeta in Hpush. destruct Hpush as (Hstored & Hnew & Hinh).
    unfold handleReservoirLevelData.
    destruct (history_of h (Reservoir.id reservoir)) as [stored|] eqn:E.
    + simpl. rewrite received_of_twice, history_of_insert. simpl.
      rewrite history_of_insert in Hstored, Hnew.
      split; [reflexivity|]. split; [reflexivity|].
      split; [|split].
      * intros points Hp. destruct (Hstored points Hp) as [H1 H2].
        rewrite last_snoc. auto.
      * intros Hnone Hown. destruct (Hnew Hnone Hown) as [H1 H2].
        rewrite last_snoc. auto.
      * intros Hnone Hi. apply history_of_Some in E as [E|(_ & E & _)]; congruence.
    + simpl. rewrite received_of_twice, E. simpl.
      split; [reflexivity|]. split; [reflexivity|].
      apply history_of_None in E as [Hnone Hi].
      split; [|split].
      * intros points Hp. congruence.
      * intros _ Hown. congruence.
      * intros _ _. split; [reflexivity|]. split; [reflexivity|].
        destruct (num_le _ _); reflexivity.
Qed.

Lemma reingestion_repeats_the_point_witness :
  let first := handleSensorData greenhouse (num_of_Z 20) None 10%Z ∅ in
  let second := handleSensorData first.1.1 (num_of_Z 20) None 10%Z first.1.2 in
  let point := HistoryEntry.make 10%Z (Some (num_of_Z 20)) None None in
  second.1.1 = first.1.1
  /\ first.1.2 = <[ "1700000000000" := [point] ]> ∅
  /\ second.1.2 = <[ "1700000000000" := [point; point] ]> ∅.
Proof.
  destruct reingestion_repeats_the_point as [Hsensor _].
  destruct (Hsensor greenhouse (num_of_Z 20) None 10%Z ∅) as (H1 & _ & _ & Hnew & _).
  destruct (Hnew (lookup_empty _) eq_refl) as (H2 & H3 & _).
  split; [exact H1|]. split; [exact H2 | exact H3].
Defined.

(** C9 as claimed fails: after a second ingestion of the same uplink at
    the same instant the station data differ from those after the first,
    the sensor's history holding two points instead of one. *)
Lemma reingestion_not_idempotent :
  let T := msg_topic uplink_message in
  let once := (on_message sensor_station T uplink 10%Z).1 in
  let twice := (on_message once T uplink 10%Z).1 in
  twice <> once
  /\ List.length <$> sensorHistory once !! "1700000000000" = Some 1%nat
  /\ List.length <$> sensorHistory twice !! "1700000000000" = Some 2%nat.
Proof.
  cbv zeta.
  assert (H1 : List.length <$>
                 sensorHistory
                   (on_message sensor_station (msg_topic uplink_message) uplink 10%Z).1
                   !! "1700000000000" = Some 1%nat) by (vm_compute; reflexivity).
  assert (H2 : List.length <$>
                 sensorHistory
                   (on_message
                      (on_message sensor_station (msg_topic uplink_message) uplink 10%Z).1
                      (msg_topic uplink_message) uplink 10%Z).1
                   !! "1700000000000" = Some 2%nat) by (vm_compute; reflexivity).
  split; [|split; assumption].
  intros Heq. rewrite Heq in H2. rewrite H1 in H2. discriminate H2.
Qed.

(** ** Pump channel *)

Lemma pump_status_of_true (v : json) :
  pump_status_of v = true <->
  (exists s, v = JStr s /\ (s = "1" \/ toLowerCase s = "true"))
  \/ (exists n, v = JNum n /\ num_eq n (num_of_Z 1) = true)
  \/ v = JBool true
  \/ (exists items, v = JArr items)
  \/ (exists members, v = JObj members).
Proof.
  destruct v as [|b|n|s|items|members]; simpl.
  - split; [discriminate|].
    intros [(s & H & _)|[(n & H & _)|[H|[(l & H)|(m & H)]]]]; discriminate H.
  - split.
    + intros ->. right. right. left. reflexivity.
    + intros [(s & H & _)|[(n & H & _)|[H|[(l & H)|(m & H)]]]];
        try discriminate H. injection H as ->. reflexivity.
  - split.
    + intros H. right. left. exists n. auto.
    + intros [(s & H & _)|[(n0 & H & Hn)|[H|[(l & H)|(m & H)]]]];
        try discriminate H. injection H as ->. exact Hn.
  - rewrite orb_true_iff, !String.eqb_eq. split.
    + intros H. left. exists s. auto.
    + intros [(s0 & H & Hs)|[(n & H & _)|[H|[(l & H)|(m & H)]]]];
        try discriminate H. injection H as ->. exact Hs.
  - split; [|reflexivity]. intros _. right. right. right. left. eauto.
  - split; [|reflexivity]. intros _. right. right. right. right. eauto.
Qed.

(** What cannot be written to the log: an absent value is dropped by the
    test that follows, the others by the exception. *)
Definition unreadable (v : jsvalue) : bool :=
  match v with
  | jv JNull | undefined => true
  | jv value => to_string_throws value
  end.

(** When a reservoir message is dropped before any handler runs. *)
Lemma reservoir_extract_None (isJson : bool) (jsonPath jsonFormat messageStr : string) :
  reservoir_extract isJson jsonPath jsonFormat messageStr = None <->
  isJson = true
  /\ (JSON_parse messageStr = None
      \/ exists doc, JSON_parse messageStr = Some doc
                     /\ ((exists e, actualFormat jsonFormat doc = Throw e)
                         \/ unreadable (extractValueFromJSON doc jsonPath) = true)).
Proof.
  unfold reservoir_extract. destruct isJson.
  2: { split; [discriminate|]. intros [H _]. discriminate H. }
  destruct (JSON_parse messageStr) as [doc|].
  2: { split; [|reflexivity]. intros _. split; [reflexivity|]. left. reflexivity. }
  destruct (actualFormat jsonFormat doc) as [fmt|e] eqn:Efmt.
  2: { split; [|reflexivity]. intros _. split; [reflexivity|]. right. exists doc.
       split; [reflexivity|]. left. exists e. exact Efmt. }
  assert (Hiff : forall out : option json,
             (out = None <-> unreadable (extractValueFromJSON doc jsonPath) = true) ->
             out = None <->
             true = true
             /\ (Some doc = None
                 \/ exists doc', Some doc = Some doc'
                                 /\ ((exists e, actualFormat jsonFormat doc' = Throw e)
                                     \/ unreadable (extractValueFromJSON doc' jsonPath)
                                        = true))).
  { intros out Hout. rewrite Hout. split.
    - intros H. split; [reflexivity|]. right. exists doc. auto.
    - intros (_ & [Hp|(doc' & Hp & [(e & He)|Ha])]).
      + discriminate Hp.
      + injection Hp as <-. rewrite Efmt in He. discriminate He.
      + injection Hp as <-. exact Ha. }
  apply Hiff.
  destruct (extractValueFromJSON doc jsonPath) as [|[]]; simpl;
    try (split; reflexivity); try (split; discriminate).
  all: match goal with |- context [if ?c then _ else _] => destruct c end;
    split; try reflexivity; discriminate.
Qed.

(** A configured format, other than [auto], is taken as it is. *)
Lemma actualFormat_configured (jsonFormat : string) (doc : json) :
  str_is_empty jsonFormat = false -> jsonFormat <> "auto" ->
  actualFormat jsonFormat doc = Return jsonFormat.
Proof.
  intros Hne Hauto. unfold actualFormat. rewrite Hne.
  destruct (String.eqb_spec jsonFormat "auto") as [->|_]; [congruence|reflexivity].
Qed.

(** C8, as the code has it.  A pump message is dropped, and the reservoir
    left as it is, only in JSON mode: when its text is not JSON, when the
    detection of the format throws, when nothing is found under the
    configured path, or when what is found cannot be written to the log
    (an object with a member named toString, or an array that holds one).
    Every other message assigns the pump state, whatever the value: the
    state is on for the text 1, for the text true in any letter case, for
    the number 1, for the boolean true and for any array or object, and
    off for every other value; the time of the update is set and one
    pump-changed event is emitted.  In plain mode the value is the text
    of the message without the white space around it. *)
Theorem pump_message_always_assigns
    (reservoir : Reservoir.t) (messageStr : string) (receivedTimestamp : option Time)
    (now : Time) (h : History) :
  let extracted :=
    reservoir_extract (Reservoir.isJsonPayloadPump reservoir)
      (Reservoir.jsonPathPump reservoir) (Reservoir.jsonFormatPump reservoir)
      messageStr in
  handleReservoirTopicMessage reservoir messageStr pump receivedTimestamp now h
  = match extracted with
    | None => None
    | Some v =>
        Some (set_reservoir_state reservoir (Reservoir.currentLevel reservoir)
                (pump_status_of v) (Reservoir.isAutoMode reservoir) now
                (received_of reservoir receivedTimestamp),
              h,
              [reservoir_pump_changed (Reservoir.id reservoir) (pump_status_of v)
                 (Some now)])
    end
  /\ (forall v,
         pump_status_of v = true <->
         (exists s, v = JStr s /\ (s = "1" \/ toLowerCase s = "true"))
         \/ (exists n, v = JNum n /\ num_eq n (num_of_Z 1) = true)
         \/ v = JBool true
         \/ (exists items, v = JArr items)
         \/ (exists members, v = JObj members))
  /\ (Reservoir.isJsonPayloadPump reservoir = false ->
      extracted = Some (JStr (trim messageStr)))
  /\ (extracted = None <->
      Reservoir.isJsonPayloadPump reservoir = true
      /\ (JSON_parse messageStr = None
          \/ exists doc,
               JSON_parse messageStr = Some doc
               /\ ((exists e, actualFormat (Reservoir.jsonFormatPump reservoir) doc
                               = Throw e)
                   \/ unreadable (extractValueFromJSON doc
                                    (Reservoir.jsonPathPump reservoir)) = true))).
Proof.
  cbv zeta. split; [|split; [|split]].
  - unfold handleReservoirTopicMessage. simpl.
    destruct (reservoir_extract _ _ _ _); reflexivity.
  - exact pump_status_of_true.
  - intros ->. reflexivity.
  - apply reservoir_extract_None.
Qed.

Lemma pump_message_always_assigns_witness :
  reservoir_extract (Reservoir.isJsonPayloadPump plain_tank)
    (Reservoir.jsonPathPump plain_tank) (Reservoir.jsonFormatPump plain_tank) " TRUE "
  = Some (JStr "TRUE")
  /\ handleReservoirTopicMessage plain_tank " TRUE " pump None 10%Z ∅
     = Some (set_reservoir_state plain_tank (num_of_Z 50) true true 10%Z None, ∅,
             [reservoir_pump_changed "1700000000002" true (Some 10%Z)]).
Proof.
  destruct (pump_message_always_assigns plain_tank " TRUE " None 10%Z ∅)
    as (H & _ & Hraw & _).
  cbv zeta in H, Hraw.
  split; [exact (Hraw eq_refl)|].
  rewrite H. rewrite (Hraw eq_refl). reflexivity.
Defined.

(** C8 as claimed fails: the text banana is not boolean-like, yet the
    message is not dropped; it switches the running pump off and stamps
    the time of the update. *)
Lemma pump_message_not_dropped :
  reservoir_extract (Reservoir.isJsonPayloadPump plain_tank)
    (Reservoir.jsonPathPump plain_tank) (Reservoir.jsonFormatPump plain_tank) "banana"
  = Some (JStr "banana")
  /\ boolean_like (JStr "banana") = false
  /\ Reservoir.pumpStatus plain_tank = true
  /\ Reservoir.lastUpdate plain_tank = 0%Z
  /\ exists reservoir',
       handleReservoirTopicMessage plain_tank "banana" pump (Some 10%Z) 10%Z ∅
       = Some (reservoir', ∅,
               [reservoir_pump_changed "1700000000002" false (Some 10%Z)])
       /\ Reservoir.pumpStatus reservoir' = false
       /\ Reservoir.lastUpdate reservoir' = 10%Z.
Proof.
  repeat split. eexists. repeat split.
Qed.

(** The white space stripped is that of the language, and a number is
    the binary64 value its literal denotes: a text 1 between two
    no-break spaces, and the number 1.0000000000000000000001, switch
    the pump on. *)
Example pump_reads_after_normalisation :
  (exists reservoir',
      handleReservoirTopicMessage plain_tank (nbsp ++ "1" ++ nbsp) pump None 10%Z ∅
      = Some (reservoir', ∅, [reservoir_pump_changed "1700000000002" true (Some 10%Z)]))
  /\ reservoir_extract true "value" "simple" (one_member "value" "1.0000000000000000000001")
     = Some (JNum (num_of_Z 1)).
Proof. split; [eexists|]; vm_compute; reflexivity. Qed.

(** A value that cannot be written to the log is dropped. *)
Example pump_unreadable_value_dropped :
  reservoir_extract true "data" "simple" (one_member "data" (one_member "toString" "1")) = None
  /\ reservoir_extract true "data" "simple" (one_member "data" ("[[" ++ one_member "toString" "null" ++ "]]")) = None
  /\ reservoir_extract true "data" "simple" (one_member "data" (one_member "valueOf" "1"))
     = Some (JObj [("valueOf", JNum (num_of_Z 1))]).
Proof. repeat split; vm_compute; reflexivity. Qed.

Example pump_boolean_like_values :
  pump_status_of (JStr "1") = true /\ pump_status_of (JStr "0") = false
  /\ pump_status_of (JStr "true") = true /\ pump_status_of (JStr "false") = false
  /\ pump_status_of (JNum (num_of_Z 1)) = true /\ pump_status_of (JNum (num_of_Z 0)) = false.
Proof. repeat split. Qed.

(** A message that is dropped leaves the station data untouched. *)
Lemma deliver_dropped_unchanged (messageStr : string) (receivedTimestamp now : Time)
    (st : StationData) (i : nat) (ch : Channel) (reservoir : Reservoir.t) :
  reservoirs st !! i = Some reservoir ->
  handleReservoirTopicMessage reservoir messageStr ch (Some receivedTimestamp) now
    (reservoirHistory st) = None ->
  deliver messageStr receivedTimestamp now st (to_reservoir i ch) = (st, [], false).
Proof. intros Hr Hnone. unfold deliver. rewrite Hr, Hnone. reflexivity. Qed.

(** ** Dispatch by topic *)

Lemma positions_spec {A : Type} (p : A -> bool) (l : list A) (from i : nat) :
  In i (positions p l from) <->
  (from <= i)%nat /\ exists x, l !! (i - from)%nat = Some x /\ p x = true.
Proof.
  revert from. induction l as [|a rest IH]; intros from; simpl.
  - split; [intros []|]. intros (_ & x & Hx & _). discriminate Hx.
  - assert (Hstep : In i (positions p rest (S from)) <->
                    (S from <= i)%nat /\ exists x, rest !! (i - S from)%nat = Some x /\ p x = true)
      by apply IH.
    destruct (p a) eqn:Ea; simpl; rewrite ?Hstep; split.
    + intros [<-|(Hle & x & Hx & Hp)].
      * split; [lia|]. exists a. replace (from - from)%nat with 0%nat by lia. auto.
      * split; [lia|]. exists x. replace (i - from)%nat with (S (i - S from)) by lia. auto.
    + intros (Hle & x & Hx & Hp).
      destruct (Nat.eq_dec from i) as [->|Hne]; [left; reflexivity|right].
      split; [lia|]. exists x.
      replace (i - from)%nat with (S (i - S from)) in Hx by lia. auto.
    + intros (Hle & x & Hx & Hp).
      split; [lia|]. exists x. replace (i - from)%nat with (S (i - S from)) by lia. auto.
    + intros (Hle & x & Hx & Hp).
      destruct (Nat.eq_dec from i) as [->|Hne].
      * replace (i - i)%nat with 0%nat in Hx by lia. simpl in Hx.
        injection Hx as ->. congruence.
      * split; [lia|]. exists x.
        replace (i - from)%nat with (S (i - S from)) in Hx by lia. auto.
Qed.

Lemma relatedSensors_spec (st : StationData) (T : string) (i : nat) :
  In i (relatedSensors st T) <-> exists s, sensors st !! i = Some s /\ Sensor.topic s = T.
Proof.
  unfold relatedSensors. rewrite positions_spec. rewrite Nat.sub_0_r. split.
  - intros (_ & s & Hs & Ht). exists s. split; [exact Hs|]. apply String.eqb_eq, Ht.
  - intros (s & Hs & Ht). split; [lia|]. exists s. split; [exact Hs|].
    apply String.eqb_eq, Ht.
Qed.

Lemma topic_is_spec (configured : option string) (T : string) :
  topic_is configured T = true <-> configured = Some T.
Proof.
  unfold topic_is. destruct configured as [t|].
  - rewrite String.eqb_eq. split; congruence.
  - split; discriminate.
Qed.

Lemma positions_nil_iff {A : Type} (p : A -> bool) (l : list A) (from : nat) :
  positions p l from = [] <-> forall x, In x l -> p x = false.
Proof.
  revert from. induction l as [|a rest IH]; intros from; simpl.
  - split; [intros _ x []|reflexivity].
  - destruct (p a) eqn:Ea.
    + split; [discriminate|]. intros H. specialize (H a (or_introl eq_refl)). congruence.
    + rewrite IH. split.
      * intros H x [<-|Hx]; auto.
      * intros H x Hx. apply H. right. exact Hx.
Qed.

Lemma route_without_sensor (st : StationData) (T : string) :
  (forall s, In s (sensors st) -> Sensor.topic s <> T) ->
  route st T
  = omap (fun i =>
            match reservoirs st !! i with
            | Some r =>
                match reservoir_channel r T with
                | Some ch => Some (to_reservoir i ch)
                | None => None
                end
            | None => None
            end)
      (relatedReservoirs st T).
Proof.
  intros Hno. unfold route.
  assert (Hnil : relatedSensors st T = []).
  { unfold relatedSensors. apply positions_nil_iff. intros s Hs.
    apply String.eqb_neq. apply Hno, Hs. }
  rewrite Hnil. reflexivity.
Qed.

Lemma route_with_sensor (st : StationData) (T : string) (i : nat) :
  In i (relatedSensors st T) -> route st T = List.map to_sensor (relatedSensors st T).
Proof.
  intros Hin. unfold route.
  destruct (relatedSensors st T) as [|a rest]; [destruct Hin|reflexivity].
Qed.


Lemma route_never_fill (st : StationData) (T : string) (j : nat) :
  ~ In (to_reservoir j fill) (route st T).
Proof.
  unfold route.
  destruct (0 <? List.length (relatedSensors st T))%nat.
  - rewrite in_map_iff. intros (i & H & _). discriminate H.
  - rewrite <- list_elem_of_In, list_elem_of_omap.
    intros (i & _ & Hf).
    destruct (reservoirs st !! i) as [r|]; [|discriminate].
    destruct (reservoir_channel r T) as [ch|] eqn:Ech; [|discriminate].
    injection Hf as _ ->.
    unfold reservoir_channel in Ech.
    destruct (Reservoir.topic r =? T)%string; [discriminate|].
    destruct (topic_is (Reservoir.pumpTopic r) T); [discriminate|].
    destruct (topic_is (Reservoir.modeTopic r) T); discriminate.
Qed.

Lemma route_reaches_sensor (st : StationData) (T : string) (i : nat) (s : Sensor.t) :
  sensors st !! i = Some s -> Sensor.topic s = T -> In (to_sensor i) (route st T).
Proof.
  intros Hs Ht.
  assert (Hi : In i (relatedSensors st T)) by (apply relatedSensors_spec; eauto).
  rewrite (route_with_sensor st T i Hi). apply in_map, Hi.
Qed.

Lemma route_reaches_reservoir (st : StationData) (T : string) (j : nat)
    (r : Reservoir.t) (ch : Channel) :
  (forall s, In s (sensors st) -> Sensor.topic s <> T) ->
  reservoirs st !! j = Some r ->
  reservoir_channel r T = Some ch ->
  In (to_reservoir j ch) (route st T).
Proof.
  intros Hno Hr Hch. rewrite (route_without_sensor st T Hno).
  rewrite <- list_elem_of_In, list_elem_of_omap.
  exists j. split.
  - rewrite list_elem_of_In. unfold relatedReservoirs. apply positions_spec.
    split; [lia|]. exists r. rewrite Nat.sub_0_r. split; [exact Hr|].
    unfold reservoir_channel in Hch.
    destruct (Reservoir.topic r =? T)%string; [reflexivity|].
    destruct (topic_is (Reservoir.pumpTopic r) T); [reflexivity|].
    destruct (topic_is (Reservoir.modeTopic r) T); [|discriminate].
    simpl. apply orb_true_r.
  - rewrite Hr, Hch. reflexivity.
Qed.

(** The channel handled when [T] is configured on one channel only. *)
Lemma reservoir_channel_unshared (r : Reservoir.t) (T : string) (ch : Channel) :
  ch = level \/ ch = pump \/ ch = mode ->
  configured_topic r ch = Some T ->
  (forall ch', ch' <> ch -> ch' <> fill -> configured_topic r ch' <> Some T) ->
  reservoir_channel r T = Some ch.
Proof.
  intros Hch Hcfg Hother. unfold reservoir_channel.
  destruct (Reservoir.topic r =? T)%string eqn:E1.
  - apply String.eqb_eq in E1.
    destruct Hch as [-> | [-> | ->]]; [reflexivity| |];
      exfalso; apply (Hother level); try discriminate; simpl; congruence.
  - apply String.eqb_neq in E1.
    destruct (topic_is (Reservoir.pumpTopic r) T) eqn:E2.
    + apply topic_is_spec in E2.
      destruct Hch as [-> | [-> | ->]]; [simpl in Hcfg; congruence|reflexivity|].
      exfalso; apply (Hother pump); try discriminate; exact E2.
    + destruct Hch as [-> | [-> | ->]].
      * simpl in Hcfg. congruence.
      * simpl in Hcfg. apply topic_is_spec in Hcfg. congruence.
      * simpl in Hcfg. apply topic_is_spec in Hcfg. rewrite Hcfg. reflexivity.
Qed.

Lemma reservoir_channel_precedence (r : Reservoir.t) (T : string) (ch : Channel) :
  reservoir_channel r T = Some ch ->
  (Reservoir.topic r = T -> ch = level)
  /\ (Reservoir.topic r <> T -> Reservoir.pumpTopic r = Some T -> ch = pump).
Proof.
  unfold reservoir_channel.
  destruct (String.eqb_spec (Reservoir.topic r) T) as [Heq|Hne].
  - intros [= <-]. split; [reflexivity|]. intros H. contradiction.
  - destruct (topic_is (Reservoir.pumpTopic r) T) eqn:E2.
    + intros [= <-]. split; [intros H; contradiction|reflexivity].
    + intros _. split; [intros H; contradiction|].
      intros _ Hp. apply topic_is_spec in Hp. congruence.
Qed.

Lemma route_reservoir_channel (st : StationData) (T : string) (j : nat) (ch : Channel) :
  In (to_reservoir j ch) (route st T) ->
  relatedSensors st T = []
  /\ exists r, reservoirs st !! j = Some r /\ reservoir_channel r T = Some ch.
Proof.
  unfold route.
  destruct (relatedSensors st T) as [|a rest].
  - simpl. rewrite <- list_elem_of_In, list_elem_of_omap.
    intros (i & _ & Hf). split; [reflexivity|].
    destruct (reservoirs st !! i) as [r|] eqn:Er; [|discriminate].
    destruct (reservoir_channel r T) as [ch'|] eqn:Ech; [|discriminate].
    injection Hf as <- <-. exists r. auto.
  - simpl. intros [H|H]; [discriminate H|].
    apply in_map_iff in H as (i & H & _). discriminate H.
Qed.
(** ** What a message does to the entities it is not handed to *)

Lemma deliver_sensor_keeps_reservoirs (messageStr : string) (receivedTimestamp now : Time)
    (st : StationData) (i : nat) :
  let st' := (deliver messageStr receivedTimestamp now st (to_sensor i)).1.1 in
  reservoirs st' = reservoirs st /\ reservoirHistory st' = reservoirHistory st.
Proof.
  cbv zeta. unfold deliver.
  destruct (sensors st !! i) as [sensor|]; [|split; reflexivity].
  destruct (sensor_extract sensor messageStr) as [v|]; [|split; reflexivity].
  destruct (handleSensorData sensor v (Some receivedTimestamp) now (sensorHistory st))
    as [[sensor' h'] events].
  split; reflexivity.
Qed.

Lemma deliver_all_sensors_keep_reservoirs (messageStr : string)
    (receivedTimestamp now : Time) (indices : list nat) (st : StationData) :
  let st' := (deliver_all messageStr receivedTimestamp now st
                (List.map to_sensor indices)).1 in
  reservoirs st' = reservoirs st /\ reservoirHistory st' = reservoirHistory st.
Proof.
  revert st. induction indices as [|i rest IH]; intros st; cbv zeta; simpl.
  - split; reflexivity.
  - pose proof (deliver_sensor_keeps_reservoirs messageStr receivedTimestamp now st i)
      as Hstep. cbv zeta in Hstep.
    destruct (deliver messageStr receivedTimestamp now st (to_sensor i))
      as [[st1 ev1] thrown]. simpl in Hstep.
    destruct thrown; [exact Hstep|].
    specialize (IH st1). cbv zeta in IH.
    destruct (deliver_all messageStr receivedTimestamp now st1 (List.map to_sensor rest))
      as [st2 ev2]. simpl in *.
    destruct Hstep as [<- <-]. exact IH.
Qed.

(** C1.  The message callback does not hand a message to every pair of
    an entity and a channel configured with its topic.  When a sensor is
    configured with the topic, no reservoir is handed the message, and the
    reservoirs and their histories are left as they are.  A reservoir
    that is handed the message is handed it on one channel: the level
    channel when its level topic is the topic, otherwise the pump channel
    when its pump topic is.  No message is handed to a fill channel. *)
Theorem shared_topic_reaches_one_handler (st : StationData) (T : string) :
  (forall i s, sensors st !! i = Some s -> Sensor.topic s = T ->
     (forall j ch, ~ In (to_reservoir j ch) (route st T))
     /\ (forall messageStr now,
           reservoirs (on_message st T messageStr now).1 = reservoirs st
           /\ reservoirHistory (on_message st T messageStr now).1 = reservoirHistory st))
  /\ (forall j ch ch',
         In (to_reservoir j ch) (route st T) -> In (to_reservoir j ch') (route st T) ->
         ch = ch')
  /\ (forall j r ch,
         reservoirs st !! j = Some r -> In (to_reservoir j ch) (route st T) ->
         (Reservoir.topic r = T -> ch = level)
         /\ (Reservoir.topic r <> T -> Reservoir.pumpTopic r = Some T -> ch = pump))
  /\ (forall j, ~ In (to_reservoir j fill) (route st T)).
Proof.
  split; [|split; [|split]].
  - intros i s Hs Ht.
    assert (Hi : In i (relatedSensors st T)) by (apply relatedSensors_spec; eauto).
    split.
    + intros j ch Hin. apply route_reservoir_channel in Hin as [Hnil _].
      rewrite Hnil in Hi. destruct Hi.
    + intros messageStr now. unfold on_message.
      rewrite (route_with_sensor st T i Hi).
      apply deliver_all_sensors_keep_reservoirs.
  - intros j ch ch' H H'.
    apply route_reservoir_channel in H as (_ & r & Hr & Hch).
    apply route_reservoir_channel in H' as (_ & r' & Hr' & Hch').
    congruence.
  - intros j r ch Hr Hin.
    apply route_reservoir_channel in Hin as (_ & r' & Hr' & Hch).
    assert (r' = r) as -> by congruence.
    apply reservoir_channel_precedence, Hch.
  - apply route_never_fill.
Qed.

Lemma shared_topic_reaches_one_handler_witness :
  reservoirs (on_message example_station uplink_topic uplink 10%Z).1
  = reservoirs example_station
  /\ (forall ch, In (to_reservoir 0 ch) (route example_station downlink_topic) ->
                 ch = pump).
Proof.
  split.
  - destruct (shared_topic_reaches_one_handler example_station uplink_topic)
      as (Hsensor & _).
    destruct (Hsensor 0%nat greenhouse eq_refl eq_refl) as [_ Hkept].
    exact (proj1 (Hkept uplink 10%Z)).
  - intros ch Hin.
    destruct (shared_topic_reaches_one_handler example_station downlink_topic)
      as (_ & _ & Hfirst & _).
    destruct (Hfirst 0%nat north_tank ch eq_refl Hin) as [_ Hpump].
    apply Hpump; [discriminate|reflexivity].
Defined.

(** The station of the documentation's example.  On the downlink topic,
    which the reservoir has configured for pump, fill and mode alike, the
    message is handled on the pump channel only; on the uplink topic,
    which the sensor and the reservoir level share, it is handled by the
    sensor only: the uplink sets the sensor to 40 and leaves the
    reservoir, whose level it reports as 20, as it was. *)
Lemma route_misses_subscribers :
  subscribed example_station downlink_topic (to_reservoir 0 fill)
  /\ subscribed example_station downlink_topic (to_reservoir 0 mode)
  /\ route example_station downlink_topic = [to_reservoir 0 pump]
  /\ subscribed example_station uplink_topic (to_reservoir 0 level)
  /\ route example_station uplink_topic = [to_sensor 0]
  /\ Sensor.value <$> sensors (on_message example_station uplink_topic uplink 10%Z).1 !! 0%nat
     = Some (num_of_Z 40)
  /\ reservoirs (on_message example_station uplink_topic uplink 10%Z).1
     = reservoirs example_station.
Proof.
  split; [exists north_tank; split; reflexivity|].
  split; [exists north_tank; split; reflexivity|].
  split; [reflexivity|].
  split; [exists north_tank; split; reflexivity|].
  split; [reflexivity|].
  split; vm_compute; reflexivity.
Qed.

(** Two sensors on one topic, the first under an id that names a member
    every object inherits: its handler throws when it stores the point,
    which ends the loop, and the second sensor is not served. *)
Example throwing_sensor_hides_the_next :
  let first := Sensor.make "constructor" "Probe A" "farm/probe" false "" "simple" false 1%Z
                 None None (num_of_Z 0) offline 0%Z None in
  let second := Sensor.make "1700000000009" "Probe B" "farm/probe" false "" "simple" false
                  1%Z None None (num_of_Z 0) offline 0%Z None in
  let st := mkStationData [first; second] [] ∅ ∅ 0%Z in
  let out := on_message st "farm/probe" "21.5" 10%Z in
  route st "farm/probe" = [to_sensor 0; to_sensor 1]
  /\ Sensor.value <$> sensors out.1 !! 0%nat = Some (Finite (43 # 2))
  /\ sensors out.1 !! 1%nat = Some second
  /\ sensorHistory out.1 = ∅
  /\ out.2 = [].
Proof. repeat split; vm_compute; reflexivity. Qed.

(** ** Registration *)








(** ** History query *)

Lemma ceil_div_pos (n : nat) (m : Z) :
  (1 <= m)%Z ->
  Math_ceil (num_div (num_of_Z (Z.of_nat n)) (num_of_Z m))
  = num_of_Z ((Z.of_nat n + m - 1) / m).
Proof.
  intros Hm. destruct m as [|p|p]; try lia.
  unfold num_div, num_of_Z, Math_ceil. unfold Qeq_bool. simpl.
  f_equal. f_equal.
  unfold Qceiling, Qfloor. simpl.
  rewrite Z.mul_1_r.
  Z.to_euclidean_division_equations; nia.
Qed.

Lemma index_rem_pos (index : nat) (s : Z) :
  (1 <= s)%Z ->
  num_eq (index_rem index (num_of_Z s)) (num_of_Z 0) = (Z.of_nat index mod s =? 0)%Z.
Proof.
  intros Hs. destruct s as [|p|p]; try lia.
  unfold index_rem, num_of_Z. unfold Qeq_bool at 1. simpl.
  apply eq_true_iff_eq.
  rewrite Qeq_bool_iff, Qred_correct, Z.eqb_eq.
  rewrite <- inject_Z_mult.
  unfold Qminus. rewrite <- inject_Z_opp, <- inject_Z_plus.
  rewrite inject_Z_injective.
  rewrite Z.mul_1_r, Pos.mul_1_l.
  rewrite Z.quot_div_nonneg by lia.
  rewrite Z.mod_eq by lia. lia.
Qed.

Lemma num_gt_of_Z (a b : Z) : num_gt (num_of_Z a) (num_of_Z b) = (b <? a)%Z.
Proof.
  unfold num_gt, num_lt, num_of_Z, Qlt_bool. simpl. rewrite !Z.mul_1_r. reflexivity.
Qed.

Lemma filter_index_ext {A : Type} (p q : nat -> bool) (l : list A) (from : nat) :
  (forall i, p i = q i) -> filter_index p l from = filter_index q l from.
Proof.
  intros Hpq. revert from. induction l as [|x rest IH]; intros from; simpl.
  - reflexivity.
  - rewrite Hpq, IH. reflexivity.
Qed.

Lemma filter_index_sublist {A : Type} (p : nat -> bool) (l : list A) (from : nat) :
  sublist (filter_index p l from) l.
Proof.
  revert from. induction l as [|x rest IH]; intros from; simpl.
  - constructor.
  - destruct (p from); constructor; apply IH.
Qed.

Lemma List_filter_sublist {A : Type} (p : A -> bool) (l : list A) :
  sublist (List.filter p l) l.
Proof.
  induction l as [|x rest IH]; simpl.
  - constructor.
  - destruct (p x); constructor; exact IH.
Qed.

Lemma ceil_step (x s : Z) :
  (0 <= x)%Z -> (1 <= s)%Z ->
  ((x + 1 + s - 1) / s = (x + s - 1) / s + (if (x mod s =? 0)%Z then 1 else 0))%Z.
Proof.
  intros Hx Hs.
  pose proof (Z.div_mod x s ltac:(lia)) as Hdm.
  pose proof (Z.mod_pos_bound x s ltac:(lia)) as Hr.
  set (q := (x / s)%Z) in *. set (r := (x mod s)%Z) in *.
  assert (H1 : ((x + 1 + s - 1) / s = q + 1)%Z).
  { symmetry. apply (Z.div_unique _ _ _ r); lia. }
  rewrite H1.
  destruct (Z.eqb_spec r 0) as [H0|Hne].
  - assert (H2 : ((x + s - 1) / s = q)%Z).
    { symmetry. apply (Z.div_unique _ _ _ (s - 1)%Z); lia. }
    lia.
  - assert (H2 : ((x + s - 1) / s = q + 1)%Z).
    { symmetry. apply (Z.div_unique _ _ _ (r - 1)%Z); lia. }
    lia.
Qed.

(** Among the positions [from], ..., [from + length l - 1] the multiples
    of [s] are counted by the difference of two rounded-up quotients. *)
Lemma stride_count {A : Type} (s : Z) (l : list A) (from : nat) :
  (1 <= s)%Z ->
  Z.of_nat (List.length (filter_index (fun i => (Z.of_nat i mod s =? 0)%Z) l from))
  = ((Z.of_nat from + Z.of_nat (List.length l) + s - 1) / s
     - (Z.of_nat from + s - 1) / s)%Z.
Proof.
  intros Hs. revert from. induction l as [|x rest IH]; intros from.
  - simpl. rewrite Z.add_0_r. lia.
  - cbn [filter_index List.length].
    pose proof (ceil_step (Z.of_nat from) s ltac:(lia) Hs) as Hstep.
    replace (Z.of_nat from + Z.of_nat (S (List.length rest)) + s - 1)%Z
      with (Z.of_nat (S from) + Z.of_nat (List.length rest) + s - 1)%Z by lia.
    replace (Z.of_nat from + 1 + s - 1)%Z with (Z.of_nat (S from) + s - 1)%Z in Hstep by lia.
    destruct (Z.of_nat from mod s =? 0)%Z.
    + cbn [List.length]. rewrite Nat2Z.inj_succ, IH. lia.
    + rewrite IH. lia.
Qed.

Lemma stride_bound (n m : Z) :
  (1 <= m)%Z -> (m < n)%Z ->
  let s := ((n + m - 1) / m)%Z in
  (1 <= s)%Z /\ ((0 + n + s - 1) / s - (0 + s - 1) / s <= m)%Z.
Proof.
  intros Hm Hn. cbv zeta.
  assert (Hs : (2 <= (n + m - 1) / m)%Z).
  { apply Z.div_le_lower_bound; lia. }
  assert (Hcover : (n <= m * ((n + m - 1) / m))%Z).
  { Z.to_euclidean_division_equations; nia. }
  split; [lia|].
  set (s := ((n + m - 1) / m)%Z) in *.
  assert (H0 : ((0 + s - 1) / s = 0)%Z) by (apply Z.div_small; lia).
  rewrite H0, Z.sub_0_r.
  assert (((0 + n + s - 1) / s < m + 1)%Z); [|lia].
  apply Z.div_lt_upper_bound; nia.
Qed.

(** The selection in terms of integers, for a positive [maxPoints]. *)
Lemma select_history_stride (history : list HistoryEntry.t) (period : string)
    (m : Z) (now : Time) :
  (1 <= m)%Z ->
  let inWindow :=
    List.filter (fun record => (now - window period <=? HistoryEntry.timestamp record)%Z)
      history in
  let count := Z.of_nat (List.length inWindow) in
  let stride := ((count + m - 1) / m)%Z in
  select_history history period (num_of_Z m) now
  = if (m <? count)%Z
    then filter_index (fun index => (Z.of_nat index mod stride =? 0)%Z) inWindow 0
    else inWindow.
Proof.
  intros Hm. cbv zeta. unfold select_history.
  rewrite num_gt_of_Z.
  destruct (Z.ltb_spec m (Z.of_nat (List.length
              (List.filter (fun record =>
                 (now - window period <=? HistoryEntry.timestamp record)%Z) history))))
    as [Hlt|Hge]; [|reflexivity].
  rewrite ceil_div_pos by exact Hm.
  apply filter_index_ext. intros i. apply index_rem_pos.
  apply (stride_bound _ m Hm Hlt).
Qed.

(** C6, as the code has it, for a [maxPoints] of at least one.  The answer
    renders the entries kept; these are the entries inside the window of
    the period when there are at most [maxPoints] of them, and otherwise
    every entry of them whose position is a multiple of the stride, the
    count divided by [maxPoints] rounded up.  The entries kept follow the
    order of the history, none is older than the window, and there are at
    most [maxPoints] of them. *)
Theorem history_query_window_and_stride
    (formatTimeForChart : Time -> string -> string)
    (history : list HistoryEntry.t) (period : string) (m : Z) (now : Time) :
  (1 <= m)%Z ->
  let inWindow :=
    List.filter (fun record => (now - window period <=? HistoryEntry.timestamp record)%Z)
      history in
  let count := Z.of_nat (List.length inWindow) in
  let stride := ((count + m - 1) / m)%Z in
  let kept :=
    if (m <? count)%Z
    then filter_index (fun index => (Z.of_nat index mod stride =? 0)%Z) inWindow 0
    else inWindow in
  let answer := filterHistoryByPeriod formatTimeForChart history period (num_of_Z m) now in
  answer = List.map (render_point formatTimeForChart period) kept
  /\ sublist kept history
  /\ (forall record, In record kept ->
        (now - window period <= HistoryEntry.timestamp record)%Z)
  /\ (Z.of_nat (List.length answer) <= m)%Z
  /\ window "10m" = 600000%Z /\ window "1h" = 3600000%Z /\ window "6h" = 21600000%Z
  /\ window "24h" = 86400000%Z /\ window "7d" = 604800000%Z
  /\ window "30d" = 2592000000%Z.
Proof.
  intros Hm. cbv zeta. unfold filterHistoryByPeriod.
  rewrite (select_history_stride history period m now Hm). cbv zeta.
  set (inWindow := List.filter _ history).
  assert (Hsub : sublist
            (if (m <? Z.of_nat (List.length inWindow))%Z
             then filter_index
                    (fun index =>
                       (Z.of_nat index mod ((Z.of_nat (List.length inWindow) + m - 1) / m)
                        =? 0)%Z) inWindow 0
             else inWindow) inWindow).
  { destruct (m <? Z.of_nat (List.length inWindow))%Z;
      [apply filter_index_sublist|reflexivity]. }
  split; [reflexivity|].
  split; [etransitivity; [exact Hsub|apply List_filter_sublist]|].
  split.
  - intros record Hin.
    assert (Hw : In record inWindow).
    { rewrite <- list_elem_of_In in *. eapply elem_of_sublist; eassumption. }
    apply filter_In in Hw as [_ Hw]. apply Z.leb_le, Hw.
  - split; [|repeat split; reflexivity].
    rewrite length_map.
    destruct (Z.ltb_spec m (Z.of_nat (List.length inWindow))) as [Hlt|Hge]; [|lia].
    destruct (stride_bound _ m Hm Hlt) as [Hs Hb].
    rewrite (stride_count _ inWindow 0 Hs). exact Hb.
Qed.

Lemma history_query_window_and_stride_witness :
  (Z.of_nat (List.length
               (filterHistoryByPeriod no_format ten_points "1h" (num_of_Z 3) 100%Z)) <= 3)%Z.
Proof.
  pose proof (history_query_window_and_stride no_format ten_points "1h" 3%Z 100%Z
                ltac:(lia)) as H.
  cbv zeta in H. exact (proj1 (proj2 (proj2 (proj2 H)))).
Defined.

Example history_query_stride_4 :
  List.map ChartPoint.timestamp
    (filterHistoryByPeriod no_format ten_points "1h" (num_of_Z 3) 100%Z) = [1; 5; 9]%Z.
Proof. vm_compute. reflexivity. Qed.

(** C6 as claimed fails for a [maxPoints] below one: with [maxPoints] 0 the
    stride is infinite and the first point is kept; with [maxPoints] -2 the
    stride is -5 and two points are kept. *)
Lemma history_query_exceeds_maxPoints :
  List.length
    (filterHistoryByPeriod no_format [sample_entry 5] "1h" (num_of_Z 0) 10%Z) = 1%nat
  /\ num_le (num_of_Z 1) (num_of_Z 0) = false
  /\ List.length
       (filterHistoryByPeriod no_format ten_points "1h" (num_of_Z (-2)) 100%Z) = 2%nat
  /\ num_le (num_of_Z 2) (num_of_Z (-2)) = false.
Proof. repeat split; vm_compute; reflexivity. Qed.



(** ** Command encoder and pump feedback *)

Lemma pump_payload_parses (data : string) :
  data = "1" \/ data = "0" ->
  JSON_parse (createChirpStackSendPayload data true 1) = Some (command_document (base64 data)).
Proof. intros [->| ->]; vm_compute; reflexivity. Qed.

(** A primitive value has nothing below it: any further part of a path
    yields [null]. *)
Lemma extract_parts_below_text (parts : list string) (s : string) :
  parts <> [] -> extract_parts parts (jv (JStr s)) = Return null.
Proof.
  destruct parts as [|part rest]; [congruence|]. intros _. simpl.
  destruct (includes part "[" && includes part "]"); [reflexivity|].
  rewrite andb_false_r. reflexivity.
Qed.

(** Whatever the configured path, the documents of the on-command and of
    the off-command give the same reading. *)
Lemma pump_reading_blind (jsonPath : string) :
  pump_reading (command_document (base64 "1")) jsonPath
  = pump_reading (command_document (base64 "0")) jsonPath.
Proof.
  unfold pump_reading, extractValueFromJSON, extractValueFromJSON_completion.
  destruct (str_is_empty jsonPath); [reflexivity|]. simpl.
  destruct (split jsonPath ".") as [|part rest]; [reflexivity|].
  cbn [extract_parts].
  destruct (includes part "[" && includes part "]").
  - unfold array_property, command_document. cbn [own_property].
    destruct ("confirmed" =? substring part 0 (indexOf part "["))%string; [reflexivity|].
    destruct ("data" =? substring part 0 (indexOf part "["))%string; [reflexivity|].
    destruct ("fPort" =? substring part 0 (indexOf part "["))%string; reflexivity.
  - unfold command_document. cbn [truthy typeof_object andb].
    unfold own_value.
    change (own_property _ "hasOwnProperty") with (@None json) at 1.
    change (own_property _ "hasOwnProperty") with (@None json) at 1.
    cbn [own_property].
    destruct ("confirmed" =? part)%string; [reflexivity|].
    destruct ("data" =? part)%string.
    + destruct rest as [|part2 rest2]; [reflexivity|].
      rewrite !extract_parts_below_text by discriminate. reflexivity.
    + destruct ("fPort" =? part)%string; reflexivity.
Qed.

(** What a path finds in the document of a command is null, a boolean,
    a text or a number, all of which can be written to the log. *)
Lemma command_document_readable (data jsonPath : string) (v : json) :
  extractValueFromJSON (command_document data) jsonPath = jv v ->
  to_string_throws v = false.
Proof.
  unfold extractValueFromJSON, extractValueFromJSON_completion.
  destruct (str_is_empty jsonPath); [intros [= <-]; reflexivity|]. simpl.
  destruct (split jsonPath ".") as [|part rest]; [intros [= <-]; reflexivity|].
  cbn [extract_parts].
  destruct (includes part "[" && includes part "]").
  - unfold array_property, command_document. cbn [own_property].
    destruct ("confirmed" =? substring part 0 (indexOf part "["))%string;
      [intros [= <-]; reflexivity|].
    destruct ("data" =? substring part 0 (indexOf part "["))%string;
      [intros [= <-]; reflexivity|].
    destruct ("fPort" =? substring part 0 (indexOf part "["))%string;
      intros [= <-]; reflexivity.
  - unfold command_document. cbn [truthy typeof_object andb].
    unfold own_value.
    change (own_property _ "hasOwnProperty") with (@None json) at 1.
    cbn [own_property].
    destruct ("confirmed" =? part)%string.
    { destruct rest as [|part2 rest2]; [intros [= <-]; reflexivity|].
      cbn [extract_parts].
      destruct (includes part2 "[" && includes part2 "]"); intros [= <-]; reflexivity. }
    destruct ("data" =? part)%string.
    { destruct rest as [|part2 rest2]; [intros [= <-]; reflexivity|].
      rewrite extract_parts_below_text by discriminate. intros [= <-]. reflexivity. }
    destruct ("fPort" =? part)%string; [|intros [= <-]; reflexivity].
    destruct rest as [|part2 rest2]; [intros [= <-]; reflexivity|].
    cbn [extract_parts].
    destruct (includes part2 "[" && includes part2 "]"); intros [= <-]; reflexivity.
Qed.

Lemma pump_message_reading (reservoir : Reservoir.t) (messageStr : string) (doc : json)
    (receivedTimestamp : option Time) (now : Time) (h : History) :
  Reservoir.isJsonPayloadPump reservoir = true ->
  Reservoir.jsonFormatPump reservoir = "chirpstack_send" ->
  JSON_parse messageStr = Some doc ->
  (forall v, extractValueFromJSON doc (Reservoir.jsonPathPump reservoir) = jv v ->
             to_string_throws v = false) ->
  handleReservoirTopicMessage reservoir messageStr pump receivedTimestamp now h
  = match pump_reading doc (Reservoir.jsonPathPump reservoir) with
    | Some status =>
        Some (set_reservoir_state reservoir (Reservoir.currentLevel reservoir) status
                (Reservoir.isAutoMode reservoir) now
                (received_of reservoir receivedTimestamp),
              h, [reservoir_pump_changed (Reservoir.id reservoir) status (Some now)])
    | None => None
    end.
Proof.
  intros Hjson Hformat Hparse Hreadable.
  unfold handleReservoirTopicMessage, pump_reading, reservoir_extract. simpl.
  rewrite Hjson, Hformat, Hparse.
  change (actualFormat "chirpstack_send" doc) with (@Return string "chirpstack_send").
  cbv iota.
  destruct (extractValueFromJSON doc (Reservoir.jsonPathPump reservoir)) as [|v];
    [reflexivity|].
  specialize (Hreadable v eq_refl).
  destruct v; try reflexivity; rewrite Hreadable; reflexivity.
Qed.

(** C2 on the code.  For a pump channel in JSON mode with the ChirpStack
    send format, the payload of the on-command and the payload of the
    off-command, fed back through ingestion, leave the reservoir in the
    same state whatever path is configured: the command cannot be
    recovered.  With the path [data], which addresses the encoded value,
    the pump is read as off after the on-command. *)
Theorem pump_feedback_loses_command
    (reservoir : Reservoir.t) (receivedTimestamp : option Time) (now : Time) (h : History) :
  Reservoir.isJsonPayloadPump reservoir = true ->
  Reservoir.jsonFormatPump reservoir = "chirpstack_send" ->
  let fed_back (command : bool) :=
    handleReservoirTopicMessage reservoir (pump_payload reservoir command) pump
      receivedTimestamp now h in
  fed_back true = fed_back false
  /\ (Reservoir.jsonPathPump reservoir = "data" ->
      fed_back true
      = Some (set_reservoir_state reservoir (Reservoir.currentLevel reservoir) false
                (Reservoir.isAutoMode reservoir) now
                (received_of reservoir receivedTimestamp),
              h, [reservoir_pump_changed (Reservoir.id reservoir) false (Some now)])).
Proof.
  intros Hjson Hformat. cbv zeta.
  unfold pump_payload. rewrite Hjson, Hformat. simpl String.eqb. cbv iota.
  rewrite (pump_message_reading reservoir _ _ receivedTimestamp now h Hjson Hformat
             (pump_payload_parses "1" (or_introl eq_refl))
             (command_document_readable _ _)).
  rewrite (pump_message_reading reservoir _ _ receivedTimestamp now h Hjson Hformat
             (pump_payload_parses "0" (or_intror eq_refl))
             (command_document_readable _ _)).
  rewrite pump_reading_blind.
  split; [reflexivity|].
  intros ->. reflexivity.
Qed.

Lemma pump_feedback_loses_command_witness :
  handleReservoirTopicMessage north_tank (pump_payload north_tank true) pump
    (Some 10%Z) 10%Z ∅
  = Some (set_reservoir_state north_tank (num_of_Z 50) false true 10%Z None, ∅,
          [reservoir_pump_changed "1700000000001" false (Some 10%Z)]).
Proof.
  exact (proj2 (pump_feedback_loses_command north_tank (Some 10%Z) 10%Z ∅ eq_refl eq_refl)
           eq_refl).
Defined.

Example pump_on_payload_text :
  JSON_parse (pump_payload north_tank true)
  = Some (JObj [("confirmed", JBool true); ("data", JStr "MQ==");
                ("fPort", JNum (num_of_Z 1))]).
Proof. vm_compute. reflexivity. Qed.

Example pump_feedback_other_formats :
  let simple := set_pump_format north_tank true "value" "simple" in
  let plain := set_pump_format north_tank false "" "chirpstack_send" in
  option_map (fun out => Reservoir.pumpStatus out.1.1)
    (handleReservoirTopicMessage simple (pump_payload simple true) pump None 10%Z ∅)
  = Some true
  /\ option_map (fun out => Reservoir.pumpStatus out.1.1)
       (handleReservoirTopicMessage plain (pump_payload plain true) pump None 10%Z ∅)
     = Some true.
Proof. split; vm_compute; reflexivity. Qed.

(** ** Path extraction *)

Lemma append_cons (c : ascii) (r s : string) :
  (String c r ++ s)%string = String c (r ++ s)%string.
Proof. reflexivity. Qed.

Lemma append_nil (s : string) : ("" ++ s)%string = s.
Proof. reflexivity. Qed.

Lemma append_empty_r (s : string) : (s ++ "")%string = s.
Proof.
  induction s as [|c r IH]; [reflexivity|]. rewrite append_cons, IH. reflexivity.
Qed.

Lemma append_assoc (a b c : string) : ((a ++ b) ++ c)%string = (a ++ (b ++ c))%string.
Proof.
  induction a as [|x r IH]; [reflexivity|]. rewrite !append_cons, IH. reflexivity.
Qed.

Lemma includes_append (a b : string) (c : ascii) :
  includes (a ++ b) c = includes a c || includes b c.
Proof.
  induction a as [|x r IH]; [reflexivity|].
  rewrite append_cons. simpl. rewrite IH. apply orb_assoc.
Qed.

Lemma includes_all_chars (p : ascii -> bool) (s : string) (c : ascii) :
  all_chars p s = true -> p c = false -> includes s c = false.
Proof.
  intros Hall Hc. induction s as [|x r IH]; simpl; [reflexivity|].
  simpl in Hall. apply andb_true_iff in Hall as [Hx Hr].
  rewrite (IH Hr), orb_false_r.
  destruct (Ascii.eqb_spec x c) as [->|]; [congruence|reflexivity].
Qed.

Lemma identifier_chars (s : string) :
  is_identifier s = true -> all_chars is_ident_char s = true.
Proof.
  destruct s as [|c r]; [discriminate|]. simpl.
  intros H. apply andb_true_iff in H as [Hc Hr].
  unfold is_ident_char at 1. rewrite Hc, Hr. reflexivity.
Qed.

Lemma digits_chars (s : string) : is_digits s = true -> all_chars is_digit s = true.
Proof. unfold is_digits. intros H. apply andb_true_iff in H as [_ H]. exact H. Qed.

Lemma split_no_separator (s : string) (sep : ascii) :
  includes s sep = false -> split s sep = [s].
Proof.
  induction s as [|c r IH]; simpl; [reflexivity|].
  intros H. apply orb_false_iff in H as [Hc Hr].
  rewrite Hc, (IH Hr). reflexivity.
Qed.

Lemma split_at_separator (s rest : string) (sep : ascii) :
  includes s sep = false ->
  split (s ++ String sep rest) sep = s :: split rest sep.
Proof.
  induction s as [|c r IH].
  - intros _. rewrite append_nil. simpl. rewrite Ascii.eqb_refl. reflexivity.
  - intros H. simpl in H. apply orb_false_iff in H as [Hc Hr].
    rewrite append_cons. simpl. rewrite Hc, (IH Hr). reflexivity.
Qed.

Lemma indexOf_from_append (s rest : string) (c : ascii) (i : Z) :
  includes s c = false ->
  indexOf_from (s ++ String c rest) c i = (i + Z.of_nat (String.length s))%Z.
Proof.
  revert i. induction s as [|x r IH]; intros i.
  - intros _. rewrite append_nil. simpl. rewrite Ascii.eqb_refl. lia.
  - intros H. simpl in H. apply orb_false_iff in H as [Hx Hr].
    rewrite append_cons. cbn [indexOf_from String.length]. rewrite Hx, (IH _ Hr). lia.
Qed.

Lemma substring_prefix (a b : string) :
  String.substring 0 (String.length a) (a ++ b) = a.
Proof.
  induction a as [|x r IH]; [destruct b; reflexivity|].
  rewrite append_cons. simpl. rewrite IH. reflexivity.
Qed.

Lemma substring_skip (a b : string) (m : nat) :
  String.substring (String.length a) m (a ++ b) = String.substring 0 m b.
Proof.
  induction a as [|x r IH]; [reflexivity|]. rewrite append_cons. simpl. exact IH.
Qed.

Lemma length_append (a b : string) :
  String.length (a ++ b) = (String.length a + String.length b)%nat.
Proof.
  induction a as [|x r IH]; [reflexivity|]. rewrite append_cons. simpl. rewrite IH.
  reflexivity.
Qed.

Lemma substring_exact (s : string) (start end_ : Z) :
  (0 <= start <= end_)%Z -> (end_ <= Z.of_nat (String.length s))%Z ->
  substring s start end_ = String.substring (Z.to_nat start) (Z.to_nat (end_ - start)) s.
Proof.
  intros H1 H2. unfold substring.
  rewrite (Z.max_l start 0) by lia. rewrite (Z.max_l end_ 0) by lia.
  rewrite (Z.min_l start) by lia. rewrite (Z.min_l end_) by lia.
  rewrite (Z.min_l start end_) by lia. rewrite (Z.max_r start end_) by lia.
  reflexivity.
Qed.

Lemma take_sign_digit (c : ascii) (r : string) :
  is_digit c = true -> take_sign (String c r) = (false, String c r).
Proof.
  intros H. destruct c as [[] [] [] [] [] [] [] []]; try discriminate H; reflexivity.
Qed.

Lemma not_hex_prefix (c x : ascii) (r : string) :
  is_digit x = true ->
  match String c (String x r) with
  | String "0" (String y _) => ((y =? "x") || (y =? "X"))%char
  | _ => false
  end = false.
Proof.
  intros H.
  destruct c as [[] [] [] [] [] [] [] []]; try reflexivity.
  destruct x as [[] [] [] [] [] [] [] []]; try discriminate H; reflexivity.
Qed.

Lemma span_all (p : ascii -> bool) (s : string) :
  all_chars p s = true -> span p s = (s, "").
Proof.
  induction s as [|c r IH]; simpl; [reflexivity|].
  intros H. apply andb_true_iff in H as [Hc Hr].
  rewrite Hc, (IH Hr). reflexivity.
Qed.

Lemma digit_not_space (c : ascii) : is_digit c = true -> is_space c = false.
Proof.
  intros H. destruct c as [[] [] [] [] [] [] [] []]; try discriminate H; reflexivity.
Qed.

Lemma digit_value_nonneg (c : ascii) : is_digit c = true -> (0 <= digit_value c)%Z.
Proof.
  intros H. destruct c as [[] [] [] [] [] [] [] []]; try discriminate H;
    vm_compute; discriminate.
Qed.

Lemma radix_value_nonneg (s : string) (acc : Z) :
  all_chars is_digit s = true -> (0 <= acc)%Z ->
  (0 <= radix_value 10 digit_value acc s)%Z.
Proof.
  revert acc. induction s as [|c r IH]; intros acc; simpl; [auto|].
  intros H Hacc. apply andb_true_iff in H as [Hc Hr].
  apply IH; [exact Hr|]. pose proof (digit_value_nonneg c Hc). lia.
Qed.

Lemma decimal_value_nonneg (d : string) :
  is_digits d = true -> (0 <= decimal_value d)%Z.
Proof.
  intros H. apply radix_value_nonneg; [apply digits_chars, H|lia].
Qed.

(** [parseInt] of a run of digits is its decimal value. *)
Lemma parseInt_digits (d : string) :
  is_digits d = true -> parseInt d = Some (decimal_value d).
Proof.
  intros H. pose proof (digits_chars d H) as Hall.
  destruct d as [|c r]; [discriminate H|].
  simpl in Hall. apply andb_true_iff in Hall as [Hc Hr].
  unfold parseInt.
  assert (Htrim : trimStart (String c r) = String c r).
  { clear - Hc. destruct c as [[] [] [] [] [] [] [] []]; try discriminate Hc;
      destruct r as [|d [|e r2]]; reflexivity. }
  rewrite Htrim, (take_sign_digit c r Hc).
  assert (Hhex : match String c r with
                 | String "0" (String y _) => ((y =? "x") || (y =? "X"))%char
                 | _ => false
                 end = false).
  { destruct r as [|x r'].
    - destruct c as [[] [] [] [] [] [] [] []]; reflexivity.
    - simpl in Hr. apply andb_true_iff in Hr as [Hx _].
      exact (not_hex_prefix c x r' Hx). }
  rewrite Hhex.
  rewrite (span_all is_digit (String c r)) by (simpl; rewrite Hc, Hr; reflexivity).
  reflexivity.
Qed.

(** The text of a part without an index and of a part with indices. *)
Lemma render_plain (n : string) : render_part (n, []) = n.
Proof. unfold render_part. simpl. apply append_empty_r. Qed.

Lemma render_indexed (n d : string) (more : list string) :
  render_part (n, d :: more)
  = (n ++ String "[" (d ++ String "]" (render_indices more)))%string.
Proof.
  unfold render_part. cbn [fst snd render_indices].
  rewrite !append_cons, !append_nil. reflexivity.
Qed.

Lemma identifier_excludes (n : string) (c : ascii) :
  is_identifier n = true -> is_ident_char c = false -> includes n c = false.
Proof. intros Hn Hc. exact (includes_all_chars _ n c (identifier_chars n Hn) Hc). Qed.

Lemma digits_exclude (d : string) (c : ascii) :
  is_digits d = true -> is_digit c = false -> includes d c = false.
Proof. intros Hd Hc. exact (includes_all_chars _ d c (digits_chars d Hd) Hc). Qed.

(** A part without an index is looked up as an own property. *)
Lemma extract_plain_part (n : string) (rest : list string) (current : jsvalue) :
  is_identifier n = true ->
  extract_parts (n :: rest) current
  = if truthy current && typeof_object current then
      match own_value current n with
      | Throw e => Throw e
      | Return (Some v) => extract_parts rest v
      | Return None => Return null
      end
    else Return null.
Proof.
  intros Hn. cbn [extract_parts].
  rewrite (identifier_excludes n "[" Hn eq_refl). reflexivity.
Qed.

(** A part with indices is read as an array name and its first index;
    further indices of the part are not read. *)
Lemma extract_indexed_part (n d : string) (more : list string) (rest : list string)
    (current : jsvalue) :
  is_identifier n = true -> is_digits d = true ->
  extract_parts (render_part (n, d :: more) :: rest) current
  = match array_property current n with
    | Throw e => Throw e
    | Return (Some items) => extract_parts rest (element items (Some (decimal_value d)))
    | Return None => Return null
    end.
Proof.
  intros Hn Hd. rewrite render_indexed.
  set (tail := render_indices more).
  set (part := (n ++ String "[" (d ++ String "]" tail))%string).
  assert (Hopen : includes part "[" = true).
  { unfold part. rewrite includes_append. simpl. apply orb_true_r. }
  assert (Hassoc : part = ((n ++ String "[" d) ++ String "]" tail)%string).
  { unfold part. rewrite append_assoc, append_cons. reflexivity. }
  assert (Hnone : includes (n ++ String "[" d) "]" = false).
  { rewrite includes_append. rewrite (identifier_excludes n "]" Hn eq_refl).
    simpl. apply (digits_exclude d "]" Hd eq_refl). }
  assert (Hclose : includes part "]" = true).
  { rewrite Hassoc, includes_append, Hnone. simpl. reflexivity. }
  assert (Hio : indexOf part "[" = Z.of_nat (String.length n)).
  { unfold indexOf, part. rewrite indexOf_from_append; [lia|].
    apply (identifier_excludes n "[" Hn eq_refl). }
  assert (Hic : indexOf part "]"
                = (Z.of_nat (String.length n) + 1 + Z.of_nat (String.length d))%Z).
  { unfold indexOf. rewrite Hassoc, indexOf_from_append by exact Hnone.
    rewrite length_append. simpl String.length. lia. }
  assert (Hlen : String.length part
                 = (String.length n + S (String.length d + S (String.length tail)))%nat).
  { unfold part. rewrite length_append. simpl String.length.
    rewrite length_append. reflexivity. }
  assert (Hname : substring part 0 (indexOf part "[") = n).
  { rewrite Hio, substring_exact by lia.
    rewrite Z.sub_0_r, Nat2Z.id. simpl Z.to_nat. apply substring_prefix. }
  assert (Hindex : substring part (indexOf part "[" + 1) (indexOf part "]") = d).
  { rewrite Hio, Hic, substring_exact by lia.
    replace (Z.to_nat (Z.of_nat (String.length n) + 1))
      with (String.length (n ++ "[")) by (rewrite length_append; simpl; lia).
    replace (Z.to_nat (Z.of_nat (String.length n) + 1 + Z.of_nat (String.length d)
                       - (Z.of_nat (String.length n) + 1)))
      with (String.length d) by lia.
    assert (Hsplit : part = ((n ++ "[") ++ (d ++ String "]" tail))%string).
    { unfold part. rewrite append_assoc, append_cons, append_nil. reflexivity. }
    rewrite Hsplit, substring_skip. apply substring_prefix. }
  cbn [extract_parts]. rewrite Hopen, Hclose. cbn [andb].
  rewrite Hname, Hindex, (parseInt_digits d Hd). reflexivity.
Qed.

Lemma identifier_not_index (n : string) :
  is_identifier n = true -> canonical_index n = None.
Proof.
  destruct n as [|c r]; [reflexivity|]. simpl. intros H.
  apply andb_true_iff in H as [Hc _].
  assert (Hd : is_digit c = false).
  { destruct c as [[] [] [] [] [] [] [] []]; try discriminate Hc; reflexivity. }
  unfold canonical_index.
  assert (Hall : all_chars is_digit (String c r) = false) by (simpl; rewrite Hd; reflexivity).
  destruct c as [[] [] [] [] [] [] [] []]; try discriminate Hc; rewrite ?Hall;
    try reflexivity; destruct r; reflexivity.
Qed.

Lemma element_in_bounds (items : list json) (d : string) :
  is_digits d = true ->
  element items (Some (decimal_value d))
  = match nth_error items (Z.to_nat (decimal_value d)) with
    | Some v => jv v
    | None => undefined
    end.
Proof.
  intros Hd. unfold element.
  destruct (Z.leb_spec 0 (decimal_value d)) as [_|Hneg]; [reflexivity|].
  pose proof (decimal_value_nonneg d Hd). lia.
Qed.

Lemma well_formed_cons (n : string) (indices : list string) (rest : list PathPart) :
  forallb well_formed_part ((n, indices) :: rest) = true ->
  is_identifier n = true /\ forallb is_digits indices = true
  /\ forallb well_formed_part rest = true.
Proof.
  simpl. unfold well_formed_part at 1. simpl. intros H.
  apply andb_true_iff in H as [H Hrest]. apply andb_true_iff in H as [Hn Hi]. auto.
Qed.

(** On a document of the shape the path describes, the loop of the
    extractor ends with the value the path addresses. *)
Lemma extract_addressed (parts : list PathPart) (c v : json) :
  forallb well_formed_part parts = true -> single_level parts = true ->
  unshadowed parts c = true ->
  addressed parts c = Some v ->
  extract_parts (List.map render_part parts) (jv c) = Return (jv v).
Proof.
  revert c.
  induction parts as [|[n indices] rest IH]; intros c Hwf Hsingle Hsafe Haddr.
  - simpl in *. injection Haddr as ->. reflexivity.
  - apply well_formed_cons in Hwf as (Hn & Hi & Hrest).
    simpl in Hsingle. apply andb_true_iff in Hsingle as [Hone Hsingle].
    cbn [addressed] in Haddr.
    destruct c as [| | | | |members]; try discriminate Haddr.
    cbn [unshadowed] in Hsafe. apply andb_true_iff in Hsafe as [Hshadow Hsafe].
    destruct (own_property members n) as [v0|] eqn:Eown; [|discriminate Haddr].
    cbn [List.map].
    destruct indices as [|d [|d2 more]].
    + simpl in Haddr, Hsafe, Hshadow.
      rewrite render_plain, (extract_plain_part n _ _ Hn).
      cbn [truthy typeof_object andb own_value].
      destruct (own_property members "hasOwnProperty"); [discriminate Hshadow|].
      rewrite Eown. apply IH; assumption.
    + simpl in Hi. apply andb_true_iff in Hi as [Hd _].
      rewrite (extract_indexed_part n d [] _ _ Hn Hd).
      cbn [addressed_by_indices] in Haddr.
      destruct v0 as [| | | |items|]; try discriminate Haddr.
      cbn [array_property]. rewrite Eown.
      rewrite (element_in_bounds items d Hd).
      cbn [addressed_by_indices] in Hsafe.
      destruct (nth_error items (Z.to_nat (decimal_value d))) as [w|];
        [|discriminate Haddr].
      apply IH; assumption.
    + simpl in Hone. discriminate Hone.
Qed.

(** On a document the path does not fit, the loop ends with an absent
    value or with an exception. *)
Lemma extract_not_addressed (parts : list PathPart) (current : jsvalue) :
  forallb well_formed_part parts = true -> single_level parts = true ->
  no_plain_length parts = true ->
  current = undefined \/ (exists c, current = jv c /\ addressed parts c = None) ->
  absent_or_thrown (extract_parts (List.map render_part parts) current).
Proof.
  revert current.
  induction parts as [|[n indices] rest IH]; intros current Hwf Hsingle Hlen Hcur.
  - destruct Hcur as [->|(c & _ & Hc)]; [reflexivity|discriminate Hc].
  - apply well_formed_cons in Hwf as (Hn & Hi & Hrest).
    simpl in Hsingle. apply andb_true_iff in Hsingle as [Hone Hsingle].
    simpl in Hlen. apply andb_true_iff in Hlen as [Hnolen Hlen].
    cbn [List.map].
    destruct indices as [|d [|d2 more]].
    + rewrite render_plain, (extract_plain_part n _ _ Hn).
      simpl in Hnolen. rewrite andb_true_r in Hnolen. apply negb_true_iff in Hnolen.
      destruct current as [|[| | | |items|members]]; try reflexivity;
        try (cbn [typeof_object]; rewrite andb_false_r; reflexivity).
      * cbn [truthy typeof_object andb own_value].
        rewrite Hnolen, (identifier_not_index n Hn). reflexivity.
      * cbn [truthy typeof_object andb own_value].
        destruct Hcur as [Hu|(c & Hc & Haddr)]; [discriminate Hu|].
        injection Hc as <-. cbn [addressed addressed_by_indices] in Haddr.
        destruct (own_property members "hasOwnProperty"); [exact I|].
        destruct (own_property members n) as [v0|]; [|reflexivity].
        apply IH; try assumption. right. exists v0. auto.
    + simpl in Hi. apply andb_true_iff in Hi as [Hd _].
      rewrite (extract_indexed_part n d [] _ _ Hn Hd).
      destruct current as [|[| | | |items|members]]; try reflexivity.
      * cbn [array_property].
        destruct (n =? "__proto__")%string;
          [|rewrite (identifier_not_index n Hn); reflexivity].
        rewrite (element_in_bounds [] d Hd).
        destruct (Z.to_nat (decimal_value d)); simpl; apply IH; auto.
      * cbn [array_property].
        destruct Hcur as [Hu|(c & Hc & Haddr)]; [discriminate Hu|].
        injection Hc as <-. cbn [addressed addressed_by_indices] in Haddr.
        destruct (own_property members n) as [[| | | |items|]|]; try reflexivity.
        rewrite (element_in_bounds items d Hd).
        destruct (nth_error items (Z.to_nat (decimal_value d))) as [w|].
        -- apply IH; try assumption. right. exists w. auto.
        -- apply IH; auto.
    + simpl in Hone. discriminate Hone.
Qed.

Lemma render_indices_no_dot (indices : list string) :
  forallb is_digits indices = true -> includes (render_indices indices) "." = false.
Proof.
  induction indices as [|d rest IH]; [reflexivity|].
  intros H. simpl in H. apply andb_true_iff in H as [Hd Hrest].
  cbn [render_indices]. rewrite !append_cons, !append_nil.
  cbn [includes]. rewrite includes_append, (digits_exclude d "." Hd eq_refl).
  cbn [includes]. simpl. apply IH, Hrest.
Qed.

Lemma render_part_no_dot (p : PathPart) :
  well_formed_part p = true -> includes (render_part p) "." = false.
Proof.
  destruct p as [n indices]. unfold well_formed_part, render_part. simpl.
  intros H. apply andb_true_iff in H as [Hn Hi].
  rewrite includes_append, (identifier_excludes n "." Hn eq_refl).
  apply render_indices_no_dot, Hi.
Qed.

(** The code's split of a rendered path gives back its parts. *)
Lemma split_render (parts : list PathPart) :
  well_formed_path parts = true ->
  split (render_path parts) "." = List.map render_part parts.
Proof.
  unfold well_formed_path. intros H. apply andb_true_iff in H as [Hne Hwf].
  induction parts as [|p rest IH]; [discriminate Hne|].
  simpl in Hwf. apply andb_true_iff in Hwf as [Hp Hrest].
  cbn [render_path List.map].
  destruct rest as [|q rest'].
  - rewrite append_empty_r. apply split_no_separator, render_part_no_dot, Hp.
  - rewrite append_cons, append_nil.
    rewrite split_at_separator by (apply render_part_no_dot, Hp).
    f_equal. apply IH; [reflexivity|exact Hrest].
Qed.

Lemma render_path_not_empty (parts : list PathPart) :
  well_formed_path parts = true -> str_is_empty (render_path parts) = false.
Proof.
  unfold well_formed_path. intros H. apply andb_true_iff in H as [Hne Hwf].
  destruct parts as [|[n indices] rest]; [discriminate Hne|].
  apply well_formed_cons in Hwf as (Hn & _ & _).
  destruct n as [|c r]; [discriminate Hn|]. reflexivity.
Qed.

(** *** The rendered paths are the texts the validation pattern accepts *)

Lemma matches_ident_chars (a s : string) :
  all_chars is_ident_char a = true ->
  path_matches InSegment (a ++ s) = path_matches InSegment s.
Proof.
  induction a as [|c r IH]; [reflexivity|].
  intros H. simpl in H. apply andb_true_iff in H as [Hc Hr].
  rewrite append_cons. simpl. rewrite Hc. apply IH, Hr.
Qed.

Lemma matches_identifier (n s : string) :
  is_identifier n = true ->
  path_matches AtSegmentStart (n ++ s) = path_matches InSegment s.
Proof.
  destruct n as [|c r]; [discriminate|].
  intros H. simpl in H. apply andb_true_iff in H as [Hc Hr].
  rewrite append_cons. simpl. rewrite Hc. simpl. apply matches_ident_chars, Hr.
Qed.

Lemma matches_digits (d s : string) :
  all_chars is_digit d = true ->
  path_matches InIndex (d ++ String "]" s) = path_matches AfterIndex s.
Proof.
  induction d as [|c r IH]; [reflexivity|].
  intros H. simpl in H. apply andb_true_iff in H as [Hc Hr].
  rewrite append_cons. simpl. rewrite Hc. apply IH, Hr.
Qed.

Lemma matches_index (d s : string) :
  is_digits d = true ->
  path_matches AtIndexStart (d ++ String "]" s) = path_matches AfterIndex s.
Proof.
  intros H. pose proof (digits_chars d H) as Hall.
  destruct d as [|c r]; [discriminate H|].
  simpl in Hall. apply andb_true_iff in Hall as [Hc Hr].
  rewrite append_cons. simpl. rewrite Hc. simpl. apply matches_digits, Hr.
Qed.

Lemma render_indices_cons_append (d : string) (rest : list string) (s : string) :
  (render_indices (d :: rest) ++ s)%string
  = String "[" (d ++ String "]" (render_indices rest ++ s)).
Proof.
  cbn [render_indices]. rewrite !append_cons, !append_nil.
  rewrite append_assoc, append_cons. reflexivity.
Qed.

Lemma matches_indices (indices : list string) (s : string) :
  forallb is_digits indices = true ->
  path_matches AfterIndex (render_indices indices ++ s) = path_matches AfterIndex s.
Proof.
  induction indices as [|d rest IH]; [reflexivity|].
  intros H. simpl in H. apply andb_true_iff in H as [Hd Hrest].
  rewrite render_indices_cons_append. simpl.
  rewrite (matches_index d _ Hd). apply IH, Hrest.
Qed.

Lemma matches_part (p : PathPart) (s : string) :
  well_formed_part p = true ->
  s = "" \/ (exists r, s = String "." r) ->
  path_matches AtSegmentStart (render_part p ++ s) = path_matches AfterIndex s.
Proof.
  destruct p as [n indices]. unfold well_formed_part, render_part. cbn [fst snd].
  intros H Hs. apply andb_true_iff in H as [Hn Hi].
  rewrite append_assoc, (matches_identifier n _ Hn).
  destruct indices as [|d rest].
  - cbn [render_indices]. rewrite append_nil.
    destruct Hs as [->|(r & ->)]; reflexivity.
  - simpl in Hi. apply andb_true_iff in Hi as [Hd Hrest].
    rewrite render_indices_cons_append. simpl.
    rewrite (matches_index d _ Hd). apply matches_indices, Hrest.
Qed.

Lemma rendered_path_valid (parts : list PathPart) :
  well_formed_path parts = true -> validateJSONPath (render_path parts) = true.
Proof.
  intros H. unfold validateJSONPath. rewrite (render_path_not_empty parts H).
  unfold well_formed_path in H. apply andb_true_iff in H as [Hne Hwf].
  induction parts as [|p rest IH]; [discriminate Hne|].
  simpl in Hwf. apply andb_true_iff in Hwf as [Hp Hrest].
  cbn [render_path]. destruct rest as [|q rest'].
  - rewrite (matches_part p "" Hp (or_introl eq_refl)). reflexivity.
  - rewrite append_cons, append_nil.
    rewrite (matches_part p _ Hp (or_intror (ex_intro _ _ eq_refl))).
    simpl. apply IH; [reflexivity|exact Hrest].
Qed.

Lemma all_chars_append (p : ascii -> bool) (a b : string) :
  all_chars p (a ++ b) = all_chars p a && all_chars p b.
Proof.
  induction a as [|c r IH]; [reflexivity|].
  rewrite append_cons. simpl. rewrite IH. apply andb_assoc.
Qed.

Lemma identifier_extend (pre : string) (c : ascii) :
  is_identifier pre = true -> is_ident_char c = true ->
  is_identifier (pre ++ String c "") = true.
Proof.
  destruct pre as [|x r]; [discriminate|].
  intros H Hc. simpl in H. apply andb_true_iff in H as [Hx Hr].
  rewrite append_cons. cbn [is_identifier]. rewrite Hx, all_chars_append, Hr.
  cbn [all_chars]. rewrite Hc. reflexivity.
Qed.

Lemma digits_extend (pre : string) (c : ascii) :
  all_chars is_digit pre = true -> is_digit c = true ->
  is_digits (pre ++ String c "") = true.
Proof.
  intros Hp Hc. unfold is_digits. rewrite all_chars_append, Hp. simpl. rewrite Hc.
  destruct pre; reflexivity.
Qed.

Lemma append_snoc (pre : string) (c : ascii) (r : string) :
  ((pre ++ String c "") ++ r)%string = (pre ++ String c r)%string.
Proof. rewrite append_assoc, append_cons, append_nil. reflexivity. Qed.

Lemma render_indices_snoc (indices : list string) (d : string) :
  render_indices (indices ++ [d])%list
  = (render_indices indices ++ String "[" (d ++ "]"))%string.
Proof.
  induction indices as [|x rest IH].
  - cbn [app render_indices]. rewrite !append_cons, !append_nil. reflexivity.
  - cbn [app render_indices]. rewrite IH.
    rewrite !append_cons, !append_nil, !append_assoc, !append_cons. reflexivity.
Qed.

(** What each state of the matcher has read, and what an accepted rest
    completes it to. *)
Lemma accepted_rest_is_rendered (s : string) :
  (path_matches AtSegmentStart s = true ->
   exists parts, well_formed_path parts = true /\ render_path parts = s)
  /\ (path_matches InSegment s = true ->
      forall pre, is_identifier pre = true ->
      exists parts, well_formed_path parts = true /\ render_path parts = (pre ++ s)%string)
  /\ (path_matches AtIndexStart s = true ->
      forall n indices, is_identifier n = true -> forallb is_digits indices = true ->
      exists parts, well_formed_path parts = true
                    /\ render_path parts
                       = (n ++ render_indices indices ++ String "[" s)%string)
  /\ (path_matches InIndex s = true ->
      forall n indices d, is_identifier n = true -> forallb is_digits indices = true ->
      is_digits d = true ->
      exists parts, well_formed_path parts = true
                    /\ render_path parts
                       = (n ++ render_indices indices ++ String "[" (d ++ s))%string)
  /\ (path_matches AfterIndex s = true ->
      forall n indices, is_identifier n = true -> forallb is_digits indices = true ->
      exists parts, well_formed_path parts = true
                    /\ render_path parts = (n ++ render_indices indices ++ s)%string).
Proof.
  induction s as [|c r (IH0 & IH1 & IH2 & IH3 & IH4)].
  - split; [discriminate|]. split; [|split; [discriminate|split; [discriminate|]]].
    + intros _ pre Hpre. exists [(pre, [])]. split.
      * unfold well_formed_path, well_formed_part. simpl. rewrite Hpre. reflexivity.
      * simpl. unfold render_part. simpl. rewrite !append_empty_r. reflexivity.
    + intros _ n indices Hn Hi. exists [(n, indices)]. split.
      * unfold well_formed_path, well_formed_part. simpl. rewrite Hn, Hi. reflexivity.
      * simpl. unfold render_part. simpl. rewrite !append_empty_r. reflexivity.
  - split; [|split; [|split; [|split]]].
    + simpl. intros H. apply andb_true_iff in H as [Hc Hr].
      destruct (IH1 Hr (String c "")) as (parts & Hwf & Hrender).
      { simpl. rewrite Hc. reflexivity. }
      exists parts. split; [exact Hwf|]. rewrite Hrender. reflexivity.
    + simpl. intros H pre Hpre.
      destruct (is_ident_char c) eqn:Hc.
      { destruct (IH1 H (pre ++ String c "")%string (identifier_extend pre c Hpre Hc))
          as (parts & Hwf & Hrender).
        exists parts. split; [exact Hwf|]. rewrite Hrender. apply append_snoc. }
      destruct (Ascii.eqb_spec c ".") as [->|Hdot].
      { destruct (IH0 H) as (parts & Hwf & Hrender).
        exists ((pre, []) :: parts). split.
        - unfold well_formed_path in *. apply andb_true_iff in Hwf as [_ Hwf].
          simpl. unfold well_formed_part at 1. simpl. rewrite Hpre, Hwf. reflexivity.
        - cbn [render_path]. rewrite render_plain.
          destruct parts as [|q rest]; [discriminate Hwf|].
          rewrite Hrender, append_cons, append_nil. reflexivity. }
      destruct (Ascii.eqb_spec c "[") as [->|Hopen]; [|discriminate H].
      destruct (IH2 H pre [] Hpre eq_refl) as (parts & Hwf & Hrender).
      exists parts. split; [exact Hwf|]. rewrite Hrender. simpl.
      rewrite append_nil. reflexivity.
    + simpl. intros H n indices Hn Hi. apply andb_true_iff in H as [Hc Hr].
      destruct (IH3 Hr n indices (String c "") Hn Hi) as (parts & Hwf & Hrender).
      { unfold is_digits. simpl. rewrite Hc. reflexivity. }
      exists parts. split; [exact Hwf|]. rewrite Hrender.
      rewrite append_cons, append_nil. reflexivity.
    + simpl. intros H n indices d Hn Hi Hd.
      destruct (is_digit c) eqn:Hc.
      { destruct (IH3 H n indices (d ++ String c "")%string Hn Hi
                    (digits_extend d c (digits_chars d Hd) Hc))
          as (parts & Hwf & Hrender).
        exists parts. split; [exact Hwf|]. rewrite Hrender, append_snoc. reflexivity. }
      destruct (Ascii.eqb_spec c "]") as [->|Hclose]; [|discriminate H].
      destruct (IH4 H n (indices ++ [d])%list Hn) as (parts & Hwf & Hrender).
      { rewrite forallb_app, Hi. simpl. rewrite Hd. reflexivity. }
      exists parts. split; [exact Hwf|]. rewrite Hrender, render_indices_snoc.
      f_equal. rewrite append_assoc, append_cons. f_equal. f_equal.
      rewrite append_assoc, append_cons, append_nil. reflexivity.
    + simpl. intros H n indices Hn Hi.
      destruct (Ascii.eqb_spec c ".") as [->|Hdot].
      { destruct (IH0 H) as (parts & Hwf & Hrender).
        exists ((n, indices) :: parts). split.
        - unfold well_formed_path in *. apply andb_true_iff in Hwf as [_ Hwf].
          simpl. unfold well_formed_part at 1. simpl. rewrite Hn, Hi, Hwf. reflexivity.
        - cbn [render_path]. unfold render_part at 1. cbn [fst snd].
          destruct parts as [|q rest]; [discriminate Hwf|].
          rewrite Hrender, append_cons, append_nil, append_assoc. reflexivity. }
      destruct (Ascii.eqb_spec c "[") as [->|Hopen]; [|discriminate H].
      exact (IH2 H n indices Hn Hi).
Qed.

(** Every text the validation accepts, the empty one apart, is the
    rendering of a well-formed path. *)
Lemma valid_path_is_rendered (jsonPath : string) :
  validateJSONPath jsonPath = true -> str_is_empty jsonPath = false ->
  exists parts, well_formed_path parts = true /\ render_path parts = jsonPath.
Proof.
  unfold validateJSONPath. intros Hvalid Hne. rewrite Hne in Hvalid.
  exact (proj1 (accepted_rest_is_rendered jsonPath) Hvalid).
Qed.

Lemma extraction_returns (jsonObject : json) (jsonPath : string) :
  exists v, extractValueFromJSON_completion jsonObject jsonPath = Return v.
Proof.
  unfold extractValueFromJSON_completion.
  destruct (str_is_empty jsonPath || negb (truthy (jv jsonObject))); [eauto|].
  destruct (extract_parts (split jsonPath ".") (jv jsonObject)); eauto.
Qed.

(** C7, as the code has it.  Extraction never ends with an exception,
    for any document and any path.  Every text the validation accepts, the
    empty one apart, renders a well-formed path; when no segment of that
    path carries more than one index, extraction returns the value the
    path addresses in a document of that shape, provided no mapping in
    which a segment without an index is looked up has a member named
    hasOwnProperty; and it returns an absent value (null or undefined) in
    a document the path does not fit, provided no segment without an index
    is named length. *)
Theorem extraction_on_single_level_paths (doc : json) (jsonPath : string) :
  validateJSONPath jsonPath = true -> str_is_empty jsonPath = false ->
  (exists v, extractValueFromJSON_completion doc jsonPath = Return v)
  /\ (exists parts, well_formed_path parts = true /\ render_path parts = jsonPath)
  /\ (forall parts,
         well_formed_path parts = true -> render_path parts = jsonPath ->
         single_level parts = true ->
         (forall v, addressed parts doc = Some v -> unshadowed parts doc = true ->
                    extractValueFromJSON doc jsonPath = jv v)
         /\ (addressed parts doc = None -> no_plain_length parts = true ->
             is_absent (extractValueFromJSON doc jsonPath) = true)).
Proof.
  intros Hvalid Hne.
  split; [apply extraction_returns|].
  split; [apply valid_path_is_rendered; assumption|].
  intros parts Hwf <- Hsingle.
  pose proof (split_render parts Hwf) as Hsplit.
  pose proof Hwf as Hwf'. unfold well_formed_path in Hwf'.
  apply andb_true_iff in Hwf' as [_ Hparts].
  unfold extractValueFromJSON, extractValueFromJSON_completion.
  rewrite Hne, Hsplit. cbn [orb].
  split.
  - intros v Haddr Hsafe.
    assert (Htruthy : truthy (jv doc) = true).
    { destruct parts as [|[n indices] rest]; [discriminate Hwf|].
      destruct doc; try discriminate Haddr. reflexivity. }
    rewrite Htruthy. cbn [negb].
    rewrite (extract_addressed parts doc v Hparts Hsingle Hsafe Haddr). reflexivity.
  - intros Haddr Hlen.
    destruct (truthy (jv doc)); [|reflexivity]. cbn [negb].
    pose proof (extract_not_addressed parts (jv doc) Hparts Hsingle Hlen
                  (or_intror (ex_intro _ doc (conj eq_refl Haddr)))) as Habs.
    destruct (extract_parts (List.map render_part parts) (jv doc)); [exact Habs|reflexivity].
Qed.

Lemma extraction_on_single_level_paths_witness :
  extractValueFromJSON uplink_document "object.temperature_c" = jv (JNum (num_of_Z 40)).
Proof.
  destruct (extraction_on_single_level_paths uplink_document "object.temperature_c"
              eq_refl eq_refl) as (_ & _ & H).
  destruct (H [("object", []); ("temperature_c", [])] eq_refl eq_refl eq_refl) as [Hfound _].
  apply Hfound; reflexivity.
Defined.

(** C7 as claimed fails on accepted paths outside that subset.  The text
    [a[0][1]] is accepted and addresses 20 in the document, yet extraction
    returns the whole inner array: the second index is not read.  The text
    [a.length] is accepted and the document has no key [length] under [a],
    yet extraction returns the length of the array.  The text [a] addresses
    5 in a document that also has a member named hasOwnProperty, yet
    extraction returns null. *)
Lemma extraction_beyond_single_level :
  validateJSONPath "a[0][1]" = true
  /\ render_path [("a", ["0"; "1"])] = "a[0][1]"
  /\ addressed [("a", ["0"; "1"])] nested_document = Some (JNum (num_of_Z 20))
  /\ extractValueFromJSON nested_document "a[0][1]"
     = jv (JArr [JNum (num_of_Z 10); JNum (num_of_Z 20)])
  /\ validateJSONPath "a.length" = true
  /\ render_path [("a", []); ("length", [])] = "a.length"
  /\ addressed [("a", []); ("length", [])] nested_document = None
  /\ extractValueFromJSON nested_document "a.length" = jv (JNum (num_of_Z 1))
  /\ is_absent (extractValueFromJSON nested_document "a.length") = false
  /\ validateJSONPath "a" = true
  /\ addressed [("a", [])] shadowing_document = Some (JNum (num_of_Z 5))
  /\ extractValueFromJSON shadowing_document "a" = null.
Proof. repeat split; vm_compute; reflexivity. Qed.

Example extraction_misses :
  extractValueFromJSON uplink_document "object.humidity" = null
  /\ extractValueFromJSON nested_document "a[7]" = undefined
  /\ extractValueFromJSON nested_document "a[7].b[0]" = null
  /\ extractValueFromJSON uplink_document "" = null.
Proof. repeat split. Qed.

(** ** Further properties *)

(** X1.  A non-empty text is accepted by the validation exactly when it
    is the rendering of a well-formed path of the grammar: a non-empty
    sequence of identifiers separated by dots, each followed by any number
    of bracketed runs of digits. *)
Theorem validation_accepts_the_grammar (jsonPath : string) :
  str_is_empty jsonPath = false ->
  validateJSONPath jsonPath = true <->
  exists parts, well_formed_path parts = true /\ render_path parts = jsonPath.
Proof.
  intros Hne. split.
  - intros Hvalid. apply valid_path_is_rendered; assumption.
  - intros (parts & Hwf & <-). apply rendered_path_valid, Hwf.
Qed.

Lemma validation_accepts_the_grammar_witness :
  validateJSONPath "data.sensors[0].temp" = true.
Proof.
  apply (validation_accepts_the_grammar "data.sensors[0].temp" eq_refl).
  exists [("data", []); ("sensors", ["0"]); ("temp", [])]. split; reflexivity.
Defined.

(** ** Removal of an entity *)

Lemma In_delete {A : Type} (l : list A) (i : nat) (x : A) :
  In x (delete i l) -> exists j, j <> i /\ l !! j = Some x.
Proof.
  intros H. apply list_elem_of_In, list_elem_of_lookup in H. destruct H as [j Hj].
  destruct (decide (j < i)%nat) as [Hlt|Hge].
  - exists j. split; [lia|]. rewrite list_lookup_delete_lt in Hj by exact Hlt. exact Hj.
  - exists (S j). split; [lia|]. rewrite list_lookup_delete_ge in Hj by lia. exact Hj.
Qed.

Lemma on_topic_false (r : Reservoir.t) (T : string) :
  ~ on_topic r T ->
  (Reservoir.topic r =? T)%string || topic_is (Reservoir.pumpTopic r) T
  || topic_is (Reservoir.fillTopic r) T || topic_is (Reservoir.modeTopic r) T = false.
Proof.
  intros H. unfold on_topic in H.
  destruct (Reservoir.topic r =? T)%string eqn:E1.
  { apply String.eqb_eq in E1. tauto. }
  destruct (topic_is (Reservoir.pumpTopic r) T) eqn:E2.
  { apply topic_is_spec in E2. tauto. }
  destruct (topic_is (Reservoir.fillTopic r) T) eqn:E3.
  { apply topic_is_spec in E3. tauto. }
  destruct (topic_is (Reservoir.modeTopic r) T) eqn:E4.
  { apply topic_is_spec in E4. tauto. }
  reflexivity.
Qed.

(** A topic no sensor and no reservoir is configured with reaches no
    handler. *)
Lemma route_unbound (st : StationData) (T : string) :
  (forall s, In s (sensors st) -> Sensor.topic s <> T) ->
  (forall r, In r (reservoirs st) -> ~ on_topic r T) ->
  route st T = [].
Proof.
  intros Hs Hr. rewrite route_without_sensor by exact Hs.
  replace (relatedReservoirs st T) with (@nil nat); [reflexivity|].
  symmetry. apply positions_nil_iff. intros r Hin. apply on_topic_false, Hr, Hin.
Qed.



Lemma post_sensor_stores (st st1 : StationData) (body : SensorBody.t) (sensor : Sensor.t)
    (now : Time) :
  post_sensor st body now = inr (sensor, st1) ->
  st1 = mkStationData (sensors st ++ [sensor])%list (reservoirs st)
          (match slot_of (sensorHistory st) (Sensor.id sensor) with
           | missing => <[Sensor.id sensor := []]> (sensorHistory st)
           | _ => sensorHistory st
           end)
          (reservoirHistory st) now.
Proof.
  unfold post_sensor.
  destruct (or_bool (SensorBody.isJsonPayload body) false
            && negb (str_is_empty (or_string (SensorBody.jsonPath body) ""))
            && negb (validateJSONPath (or_string (SensorBody.jsonPath body) "")));
    [discriminate|].
  intros H. injection H as <- <-. reflexivity.
Qed.

Lemma find_sensor_last (l : list Sensor.t) (sensor : Sensor.t) :
  (forall s, In s l -> Sensor.id s <> Sensor.id sensor) ->
  list_find (fun s => Sensor.id s = Sensor.id sensor) (l ++ [sensor])
  = Some (List.length l, sensor).
Proof.
  intros Hfresh. rewrite list_find_app_r.
  - cbn. rewrite decide_True by reflexivity. reflexivity.
  - apply list_find_None, Forall_forall. intros s Hin.
    apply Hfresh, list_elem_of_In, Hin.
Qed.

(** X3.  Registering a sensor and then deleting it by its id gives back
    the sensors, the reservoirs and both history tables of before, when
    the id was fresh: carried by no sensor and by no stored history. *)
Theorem register_then_delete_sensor
    (st st1 : StationData) (body : SensorBody.t) (sensor : Sensor.t)
    (connected : bool) (now now' : Time) :
  post_sensor st body now = inr (sensor, st1) ->
  (forall s, In s (sensors st) -> Sensor.id s <> Sensor.id sensor) ->
  sensorHistory st !! Sensor.id sensor = None ->
  exists st2 calls,
    delete_sensor st1 connected (Sensor.id sensor) now'
    = inr (st2, calls, [sensor_deleted (Sensor.id sensor)])
    /\ sensors st2 = sensors st
    /\ reservoirs st2 = reservoirs st
    /\ sensorHistory st2 = sensorHistory st
    /\ reservoirHistory st2 = reservoirHistory st.
Proof.
  intros Hpost Hfresh Hnone.
  apply post_sensor_stores in Hpost. subst st1.
  unfold slot_of. rewrite Hnone.
  unfold delete_sensor, find_sensor. cbn [sensors sensorHistory reservoirs reservoirHistory].
  rewrite (find_sensor_last _ _ Hfresh).
  eexists. eexists. split; [reflexivity|].
  cbn [sensors sensorHistory reservoirs reservoirHistory].
  split.
  { rewrite (delete_middle (sensors st) [] sensor). apply app_nil_r. }
  split; [reflexivity|].
  split; [|reflexivity].
  destruct (inherited (Sensor.id sensor)).
  - apply delete_id, Hnone.
  - apply delete_insert_id, Hnone.
Qed.

Lemma register_then_delete_sensor_witness :
  exists st2 calls,
    delete_sensor soil_station false "20" 30%Z = inr (st2, calls, [sensor_deleted "20"])
    /\ sensors st2 = [greenhouse]
    /\ sensorHistory st2 = ∅.
Proof.
  destruct (register_then_delete_sensor sensor_station soil_station soil_body soil_sensor
              false 20%Z 30%Z)
    as (st2 & calls & Hdel & Hsens & _ & Hhist & _).
  - reflexivity.
  - intros s [<-|[]]. discriminate.
  - reflexivity.
  - exists st2, calls. split; [exact Hdel|]. split; [exact Hsens|exact Hhist].
Defined.

(** ** Texts through [JSON.stringify] and [JSON.parse] *)

Lemma code_inj_at (c : ascii) (n : N) : code c = n -> c = ascii_of_N n.
Proof. intros <-. unfold code. symmetry. apply ascii_N_embedding. Qed.

Lemma parse_string_plain (fuel : nat) (c : ascii) (r : string) :
  (c =? dquote)%char = false -> (code c <? 32)%N = false ->
  (c =? backslash)%char = false ->
  parse_string_body (S fuel) (String c r)
  = match parse_string_body fuel r with
    | Some (body, rest) => Some (String c body, rest)
    | None => None
    end.
Proof. intros H1 H2 H3. cbn [parse_string_body]. rewrite H1, H2, H3. reflexivity. Qed.

(** The tests [parse_string_body] makes on a backslash and on the letter
    that follows it. *)
Ltac read_backslash :=
  cbn [parse_string_body];
  change (backslash =? dquote)%char with false;
  change (code backslash <? 32)%N with false;
  change (backslash =? backslash)%char with true.

Ltac read_letter :=
  repeat match goal with
         | |- context [(?a =? ?b)%char] =>
             first [ change (a =? b)%char with true | change (a =? b)%char with false ]
         end;
  cbv iota.

(** The body of a quoted text, up to its closing quote, reads back as the
    text. *)
Lemma quote_body_reads_back (s : string) :
  forall (fuel : nat) (rest : string),
    (String.length (quote_body s) < fuel)%nat ->
    parse_string_body fuel (quote_body s ++ String dquote rest) = Some (s, rest).
Proof.
  induction s as [|c s IH]; intros fuel rest Hfuel.
  - destruct fuel as [|fuel]; [simpl in Hfuel; lia|]. reflexivity.
  - destruct fuel as [|fuel]; [simpl in Hfuel; lia|].
    cbn [quote_body] in *.
    destruct (c =? dquote)%char eqn:E1.
    { apply Ascii.eqb_eq in E1. subst c. simpl in Hfuel.
      rewrite !append_cons. read_backslash. read_letter.
      rewrite IH by lia. reflexivity. }
    destruct (c =? backslash)%char eqn:E2.
    { apply Ascii.eqb_eq in E2. subst c. simpl in Hfuel.
      rewrite !append_cons. read_backslash. read_letter.
      rewrite IH by lia. reflexivity. }
    destruct (code c =? 8)%N eqn:E3.
    { apply N.eqb_eq, code_inj_at in E3. subst c. simpl in Hfuel.
      rewrite !append_cons. read_backslash. read_letter.
      rewrite IH by lia. reflexivity. }
    destruct (code c =? 12)%N eqn:E4.
    { apply N.eqb_eq, code_inj_at in E4. subst c. simpl in Hfuel.
      rewrite !append_cons. read_backslash. read_letter.
      rewrite IH by lia. reflexivity. }
    destruct (code c =? 10)%N eqn:E5.
    { apply N.eqb_eq, code_inj_at in E5. subst c. simpl in Hfuel.
      rewrite !append_cons. read_backslash. read_letter.
      rewrite IH by lia. reflexivity. }
    destruct (code c =? 13)%N eqn:E6.
    { apply N.eqb_eq, code_inj_at in E6. subst c. simpl in Hfuel.
      rewrite !append_cons. read_backslash. read_letter.
      rewrite IH by lia. reflexivity. }
    destruct (code c =? 9)%N eqn:E7.
    { apply N.eqb_eq, code_inj_at in E7. subst c. simpl in Hfuel.
      rewrite !append_cons. read_backslash. read_letter.
      rewrite IH by lia. reflexivity. }
    destruct (code c <? 32)%N eqn:E8.
    { (* the other control characters are written as a four-digit escape *)
      destruct c as [b0 b1 b2 b3 b4 b5 b6 b7].
      destruct b0, b1, b2, b3, b4, b5, b6, b7;
        try (exfalso; cbv in E8; discriminate E8);
        try (exfalso; cbv in E3; discriminate E3);
        try (exfalso; cbv in E4; discriminate E4);
        try (exfalso; cbv in E5; discriminate E5);
        try (exfalso; cbv in E6; discriminate E6);
        try (exfalso; cbv in E7; discriminate E7);
        (simpl in Hfuel; rewrite !append_cons;
         read_backslash; read_letter;
         cbn [hex4];
         match goal with
         | |- context [is_hex_digit ?a && is_hex_digit ?b && is_hex_digit ?c
                       && is_hex_digit ?d] =>
             change (is_hex_digit a && is_hex_digit b && is_hex_digit c
                     && is_hex_digit d) with true
         end; cbv iota;
         match goal with
         | |- context [Z.to_N ?z] =>
             let v := eval vm_compute in (Z.to_N z) in change (Z.to_N z) with v
         end;
         cbv beta iota zeta;
         match goal with
         | |- context [((55296 <=? ?u) && (?u <? 56320))%N] =>
             change ((55296 <=? u) && (u <? 56320))%N with false
         end; cbv iota;
         rewrite IH by lia;
         match goal with
         | |- context [utf8_encode ?u] =>
             let v := eval vm_compute in (utf8_encode u) in change (utf8_encode u) with v
         end;
         reflexivity). }
    rewrite append_cons. rewrite parse_string_plain by assumption.
    simpl in Hfuel. rewrite IH by lia. reflexivity.
Qed.
Lemma substring_tail (a b : string) :
  substring (a ++ b) (Z.of_nat (String.length a)) (Z.of_nat (String.length (a ++ b))) = b.
Proof.
  rewrite substring_exact.
  - rewrite Nat2Z.id, substring_skip.
    rewrite length_append.
    replace (Z.to_nat (Z.of_nat (String.length a + String.length b) - Z.of_nat (String.length a)))
      with (String.length b) by lia.
    rewrite <- (append_empty_r b) at 2. apply substring_prefix.
  - rewrite length_append. lia.
  - lia.
Qed.

Lemma parse_quoted (fuel : nat) (s rest : string) :
  parse_value (S fuel) (quote s ++ rest) = Some (JStr s, rest).
Proof.
  unfold quote. rewrite append_cons, append_assoc, append_cons. 
  cbn [parse_value skip_ws].
  change (is_json_ws dquote) with false. cbv iota.
  change (dquote =? "{")%char with false.
  change (dquote =? "[")%char with false.
  change (dquote =? dquote)%char with true. cbv iota.
  rewrite quote_body_reads_back; [reflexivity|].
  rewrite length_append. simpl. lia.
Qed.

Lemma parse_member (fuel : nat) (key r1 rest : string) (v : json)
    (acc : list (string * json)) :
  parse_value fuel r1 = Some (v, rest) ->
  parse_members (S fuel) (quote key ++ String ":" r1) acc
  = match skip_ws rest with
    | String "," r2 => parse_members fuel r2 (define_property acc key v)
    | String "}" r2 => Some (JObj (define_property acc key v), r2)
    | _ => None
    end.
Proof.
  intros Hv. unfold quote. rewrite append_cons, append_assoc, append_cons.
  cbn [parse_members skip_ws].
  change (is_json_ws dquote) with false. cbv iota.
  change (dquote =? dquote)%char with true. cbv iota.
  rewrite quote_body_reads_back by (rewrite length_append; simpl; lia).
  rewrite append_nil. cbn [skip_ws].
  change (is_json_ws ":") with false. cbv iota.
  rewrite Hv. reflexivity.
Qed.

Lemma parse_object (fuel : nat) (key r : string) :
  parse_value (S fuel) (String "{" (quote key ++ r))
  = parse_members fuel (quote key ++ r) [].
Proof. unfold quote. rewrite append_cons. reflexivity. Qed.

Lemma parse_true (fuel : nat) (rest : string) :
  parse_value (S fuel) (String "t" (String "r" (String "u" (String "e" rest))))
  = Some (JBool true, rest).
Proof.
  cbn [parse_value skip_ws]. change (is_json_ws "t") with false. cbv iota.
  change ("t" =? "{")%char with false.
  change ("t" =? "[")%char with false.
  change ("t" =? dquote)%char with false. cbv iota.
  change (starts_with "true" (String "t" (String "r" (String "u" (String "e" rest)))))
    with true. cbv iota.
  change (String "r" (String "u" (String "e" rest))) with ("rue" ++ rest).
  change 3%Z with (Z.of_nat (String.length "rue")).
  rewrite substring_tail. reflexivity.
Qed.

Lemma parse_one (fuel : nat) (rest : string) :
  parse_value (S fuel) (String "1" (String "}" rest))
  = Some (JNum (num_of_Z 1), String "}" rest).
Proof. reflexivity. Qed.


(** The payload of a command in the ChirpStack send format is a JSON text
    of three members. *)
Lemma send_payload_parses (data : string) :
  JSON_parse (createChirpStackSendPayload data true 1)
  = Some (command_document (base64 data)).
Proof.
  unfold JSON_parse.
  assert (Htext :
    createChirpStackSendPayload data true 1
    = "{" ++ quote "confirmed" ++ ":true," ++ quote "data" ++ ":" ++ quote (base64 data)
      ++ "," ++ quote "fPort" ++ ":1}").
  { unfold createChirpStackSendPayload.
    cbn [JSON_stringify List.map join fold_left fst snd].
    change (number_to_json (num_of_Z 1)) with "1".
    rewrite !append_assoc. reflexivity. }
  rewrite Htext. clear Htext. rewrite !append_cons, !append_nil.
  set (text := String "{" _).
  assert (Hlen : (5 <= String.length text)%nat).
  { subst text. unfold quote. rewrite !append_cons. cbn [String.length].
    rewrite !length_append. cbn [String.length]. lia. }
  destruct (String.length text) as [|[|[|[|[|n]]]]]; [lia|lia|lia|lia|lia|]. subst text.
  rewrite parse_object.
  rewrite (parse_member _ "confirmed" _ _ (JBool true)) by apply parse_true.
  cbn [skip_ws]. change (is_json_ws ",") with false. cbv iota.
  rewrite (parse_member _ "data" _ _ (JStr (base64 data))) by apply parse_quoted.
  cbn [skip_ws]. change (is_json_ws ",") with false. cbv iota.
  rewrite (parse_member _ "fPort" _ _ (JNum (num_of_Z 1))) by apply parse_one.
  reflexivity.
Qed.

(** ** The command encoder *)

(** X4.  Whatever the data, the payload [createChirpStackSendPayload]
    builds, as every command route calls it, is a JSON text that decodes
    to an object of the three members [confirmed], [data] and [fPort];
    the detection of the format recognises it as the send format and not
    as the receive format; and the path [data] addresses the base64 text
    of the data, not the data. *)
Theorem send_payload_is_an_envelope (data : string) :
  let doc := command_document (base64 data) in
  JSON_parse (createChirpStackSendPayload data true 1) = Some doc
  /\ isChirpStackSendFormat doc = Return true
  /\ isChirpStackReceiveFormat doc = Return false
  /\ actualFormat "auto" doc = Return "chirpstack_send"
  /\ actualFormat "" doc = Return "chirpstack_send"
  /\ extractValueFromJSON doc "data" = jv (JStr (base64 data))
  /\ extractValueFromJSON doc "confirmed" = jv (JBool true)
  /\ extractValueFromJSON doc "fPort" = jv (JNum (num_of_Z 1)).
Proof.
  cbv zeta. split; [apply send_payload_parses|].
  repeat split; reflexivity.
Qed.

(** ** Mode commands and their feedback *)







Lemma split_not_nil (s : string) (sep : ascii) : split s sep <> [].
Proof.
  destruct s as [|c r]; [discriminate|]. simpl.
  destruct (c =? sep)%char; [discriminate|]. destruct (split r sep); discriminate.
Qed.

Lemma extract_from_command_document (data jsonPath : string) :
  extractValueFromJSON (command_document data) jsonPath = null
  \/ extractValueFromJSON (command_document data) jsonPath = jv (JBool true)
  \/ extractValueFromJSON (command_document data) jsonPath = jv (JStr data)
  \/ extractValueFromJSON (command_document data) jsonPath = jv (JNum (num_of_Z 1)).
Proof.
  unfold extractValueFromJSON, extractValueFromJSON_completion.
  destruct (str_is_empty jsonPath); [left; reflexivity|]. simpl.
  pose proof (split_not_nil jsonPath ".") as Hparts.
  destruct (split jsonPath ".") as [|part rest]; [congruence|]. clear Hparts.
  cbn [extract_parts].
  destruct (includes part "[" && includes part "]").
  - unfold array_property, command_document. cbn [own_property].
    destruct ("confirmed" =? substring part 0 (indexOf part "["))%string;
      [left; reflexivity|].
    destruct ("data" =? substring part 0 (indexOf part "["))%string; [left; reflexivity|].
    destruct ("fPort" =? substring part 0 (indexOf part "["))%string; left; reflexivity.
  - unfold command_document. cbn [truthy typeof_object andb].
    unfold own_value.
    change (own_property _ "hasOwnProperty") with (@None json) at 1.
    cbn [own_property].
    destruct ("confirmed" =? part)%string.
    { destruct rest as [|part2 rest2]; [right; left; reflexivity|].
      left. cbn [extract_parts].
      destruct (includes part2 "[" && includes part2 "]"); reflexivity. }
    destruct ("data" =? part)%string.
    { destruct rest as [|part2 rest2]; [right; right; left; reflexivity|].
      left. rewrite extract_parts_below_text by discriminate. reflexivity. }
    destruct ("fPort" =? part)%string; [|left; reflexivity].
    destruct rest as [|part2 rest2]; [right; right; right; reflexivity|].
    left. cbn [extract_parts].
    destruct (includes part2 "[" && includes part2 "]"); reflexivity.
Qed.

(** X6.  In the ChirpStack send format the feedback of a mode command
    never reads as automatic: whatever path is configured, the payload of
    the command [auto] or [manual], fed back through ingestion, is either
    dropped or stores the manual mode, because the mode travels as
    base64 text that ingestion does not decode. *)
Theorem mode_feedback_never_automatic
    (reservoir : Reservoir.t) (mode_name : string)
    (receivedTimestamp : option Time) (now : Time) (h : History) :
  Reservoir.isJsonPayloadMode reservoir = true ->
  Reservoir.jsonFormatMode reservoir = "chirpstack_send" ->
  mode_name = "auto" \/ mode_name = "manual" ->
  let fed_back :=
    handleReservoirTopicMessage reservoir (mode_payload reservoir mode_name) mode
      receivedTimestamp now h in
  fed_back = None
  \/ fed_back
     = Some (set_reservoir_state reservoir (Reservoir.currentLevel reservoir)
               (Reservoir.pumpStatus reservoir) false now
               (received_of reservoir receivedTimestamp),
             h, [reservoir_mode_changed (Reservoir.id reservoir) false "manual" (Some now)]).
Proof.
  intros Hjson Hformat Hmode. cbv zeta.
  unfold handleReservoirTopicMessage, mode_payload, reservoir_extract.
  cbn [topicConfig]. rewrite Hjson, Hformat.
  change ("chirpstack_send" =? "chirpstack_send")%string with true. cbv iota.
  rewrite send_payload_parses.
  change (actualFormat "chirpstack_send" (command_document (base64 mode_name)))
    with (@Return string "chirpstack_send"). cbv iota.
  destruct (extract_from_command_document (base64 mode_name)
              (Reservoir.jsonPathMode reservoir)) as [-> | [-> | [-> | ->]]].
  - left. reflexivity.
  - right. reflexivity.
  - right. destruct Hmode as [-> | ->]; reflexivity.
  - right. reflexivity.
Qed.

Lemma mode_feedback_never_automatic_witness :
  let tank := set_mode_format north_tank true "data" "chirpstack_send" in
  handleReservoirTopicMessage tank (mode_payload tank "auto") mode (Some 10%Z) 10%Z ∅
  = Some (set_reservoir_state tank (num_of_Z 50) false false 10%Z None, ∅,
          [reservoir_mode_changed "1700000000001" false "manual" (Some 10%Z)]).
Proof.
  cbv zeta.
  destruct (mode_feedback_never_automatic
              (set_mode_format north_tank true "data" "chirpstack_send") "auto"
              (Some 10%Z) 10%Z ∅ eq_refl eq_refl (or_introl eq_refl)) as [H|H].
  - vm_compute in H. discriminate H.
  - exact H.
Defined.

(** ** Pump commands and their feedback *)





(** ** Commands of the socket *)

Lemma find_reservoir_stored (st : StationData) (id : string) (index : nat)
    (reservoir reservoir' : Reservoir.t) (now : Time) :
  find_reservoir st id = Some (index, reservoir) ->
  Reservoir.id reservoir' = id ->
  find_reservoir (store_reservoir st index reservoir' now) id = Some (index, reservoir').
Proof.
  unfold find_reservoir, store_reservoir. cbn [reservoirs].
  intros Hfind Hid. apply list_find_Some in Hfind as (Hlook & _ & Hfirst).
  apply list_find_Some. split; [|split].
  - apply list_lookup_insert_eq. apply lookup_lt_Some in Hlook. exact Hlook.
  - exact Hid.
  - intros j y Hj Hlt. rewrite list_lookup_insert_ne in Hj by lia.
    exact (Hfirst j y Hj Hlt).
Qed.

Lemma store_reservoir_back (st : StationData) (index : nat)
    (reservoir reservoir' : Reservoir.t) (now now' : Time) :
  reservoirs st !! index = Some reservoir ->
  reservoirs (store_reservoir (store_reservoir st index reservoir' now) index reservoir now')
  = reservoirs st.
Proof.
  intros Hlook. unfold store_reservoir. cbn [reservoirs].
  rewrite list_insert_insert_eq. apply list_insert_id, Hlook.
Qed.

(** X8.  The toggle commands of the socket are their own inverse: with
    the client connected and the topic of the command configured, a
    second [pump_toggle] (or [mode_toggle]) gives back the list of
    reservoirs of before the first, time of last update included, since
    a toggle assigns nothing but the pump state (or the mode).  The first
    command publishes the payload of the opposite state and the second
    the payload of the original one. *)
Theorem toggle_twice_restores
    (st : StationData) (reservoirId : string) (now now' : Time)
    (index : nat) (reservoir : Reservoir.t) :
  find_reservoir st reservoirId = Some (index, reservoir) ->
  (forall pumpTopic,
      topic_set (Reservoir.pumpTopic reservoir) = Some pumpTopic ->
      let once := reservoir_command st true reservoirId "pump_toggle" now in
      let twice := reservoir_command once.1.1 true reservoirId "pump_toggle" now' in
      reservoirs once.1.1
      = <[index := set_reservoir_state reservoir (Reservoir.currentLevel reservoir)
                     (negb (Reservoir.pumpStatus reservoir))
                     (Reservoir.isAutoMode reservoir) (Reservoir.lastUpdate reservoir)
                     (Reservoir.receivedTimestamp reservoir)]> (reservoirs st)
      /\ once.1.2
         = [publish pumpTopic (pump_payload reservoir (negb (Reservoir.pumpStatus reservoir)))
              (Reservoir.mqttQosPump reservoir)]
      /\ twice.1.2
         = [publish pumpTopic (pump_payload reservoir (Reservoir.pumpStatus reservoir))
              (Reservoir.mqttQosPump reservoir)]
      /\ reservoirs twice.1.1 = reservoirs st
      /\ sensors twice.1.1 = sensors st
      /\ sensorHistory twice.1.1 = sensorHistory st
      /\ reservoirHistory twice.1.1 = reservoirHistory st)
  /\ (forall modeTopic,
      topic_set (Reservoir.modeTopic reservoir) = Some modeTopic ->
      let once := reservoir_command st true reservoirId "mode_toggle" now in
      let twice := reservoir_command once.1.1 true reservoirId "mode_toggle" now' in
      reservoirs once.1.1
      = <[index := set_reservoir_state reservoir (Reservoir.currentLevel reservoir)
                     (Reservoir.pumpStatus reservoir)
                     (negb (Reservoir.isAutoMode reservoir)) (Reservoir.lastUpdate reservoir)
                     (Reservoir.receivedTimestamp reservoir)]> (reservoirs st)
      /\ once.1.2
         = [publish modeTopic
              (mode_payload reservoir (if Reservoir.isAutoMode reservoir then "manual" else "auto"))
              (Reservoir.mqttQosMode reservoir)]
      /\ twice.1.2
         = [publish modeTopic
              (mode_payload reservoir (if Reservoir.isAutoMode reservoir then "auto" else "manual"))
              (Reservoir.mqttQosMode reservoir)]
      /\ reservoirs twice.1.1 = reservoirs st
      /\ sensors twice.1.1 = sensors st
      /\ sensorHistory twice.1.1 = sensorHistory st
      /\ reservoirHistory twice.1.1 = reservoirHistory st).
Proof.
  intros Hfind.
  assert (Hid : Reservoir.id reservoir = reservoirId).
  { apply list_find_Some in Hfind as (_ & Hid & _). exact Hid. }
  assert (Hlook : reservoirs st !! index = Some reservoir).
  { apply list_find_Some in Hfind as (Hlook & _ & _). exact Hlook. }
  split.
  - intros pumpTopic Htopic. cbv zeta.
    assert (Honce : reservoir_command st true reservoirId "pump_toggle" now
                    = pump_toggle st index reservoir reservoirId pumpTopic now).
    { unfold reservoir_command. rewrite Hfind.
      change ("pump_toggle" =? "pump_toggle")%string with true. cbv iota.
      rewrite Htopic. reflexivity. }
    rewrite Honce. unfold pump_toggle. cbn [fst snd].
    set (toggled := set_reservoir_state reservoir _ _ _ _ _).
    assert (Htwice : reservoir_command (store_reservoir st index toggled now) true
                       reservoirId "pump_toggle" now'
                     = pump_toggle (store_reservoir st index toggled now) index toggled
                         reservoirId pumpTopic now').
    { unfold reservoir_command.
      rewrite (find_reservoir_stored st reservoirId index reservoir toggled now Hfind Hid).
      change ("pump_toggle" =? "pump_toggle")%string with true. cbv iota.
      change (Reservoir.pumpTopic toggled) with (Reservoir.pumpTopic reservoir).
      rewrite Htopic. reflexivity. }
    rewrite Htwice. unfold pump_toggle. cbn [fst snd].
    split; [reflexivity|]. split; [reflexivity|].
    split.
    { subst toggled. cbn. rewrite negb_involutive. reflexivity. }
    split.
    { unfold store_reservoir. cbn [reservoirs].
      match goal with
      | |- <[index := ?back]> _ = _ =>
          assert (Hback : back = reservoir)
            by (subst toggled; destruct reservoir; cbn; rewrite negb_involutive;
                reflexivity);
          rewrite Hback
      end.
      rewrite list_insert_insert_eq. apply list_insert_id, Hlook. }
    repeat split; reflexivity.
  - intros modeTopic Htopic. cbv zeta.
    assert (Honce : reservoir_command st true reservoirId "mode_toggle" now
                    = mode_toggle st index reservoir reservoirId modeTopic now).
    { unfold reservoir_command. rewrite Hfind.
      change ("mode_toggle" =? "pump_toggle")%string with false.
      change ("mode_toggle" =? "mode_toggle")%string with true. cbv iota.
      rewrite Htopic. reflexivity. }
    rewrite Honce. unfold mode_toggle. cbn [fst snd].
    set (toggled := set_reservoir_state reservoir _ _ _ _ _).
    assert (Htwice : reservoir_command (store_reservoir st index toggled now) true
                       reservoirId "mode_toggle" now'
                     = mode_toggle (store_reservoir st index toggled now) index toggled
                         reservoirId modeTopic now').
    { unfold reservoir_command.
      rewrite (find_reservoir_stored st reservoirId index reservoir toggled now Hfind Hid).
      change ("mode_toggle" =? "pump_toggle")%string with false.
      change ("mode_toggle" =? "mode_toggle")%string with true. cbv iota.
      change (Reservoir.modeTopic toggled) with (Reservoir.modeTopic reservoir).
      rewrite Htopic. reflexivity. }
    rewrite Htwice. unfold mode_toggle. cbn [fst snd].
    split; [reflexivity|]. split; [reflexivity|].
    split.
    { subst toggled. cbn. destruct (Reservoir.isAutoMode reservoir); reflexivity. }
    split.
    { unfold store_reservoir. cbn [reservoirs].
      match goal with
      | |- <[index := ?back]> _ = _ =>
          assert (Hback : back = reservoir)
            by (subst toggled; destruct reservoir; cbn; rewrite negb_involutive;
                reflexivity);
          rewrite Hback
      end.
      rewrite list_insert_insert_eq. apply list_insert_id, Hlook. }
    repeat split; reflexivity.
Qed.

Lemma toggle_twice_restores_witness :
  let once := reservoir_command plain_station true "1700000000002" "pump_toggle" 30%Z in
  let twice := reservoir_command once.1.1 true "1700000000002" "pump_toggle" 40%Z in
  once.1.2 = [publish "farm/south/pump" "0" 1%Z]
  /\ twice.1.2 = [publish "farm/south/pump" "1" 1%Z]
  /\ reservoirs twice.1.1 = [plain_tank].
Proof.
  destruct (toggle_twice_restores plain_station "1700000000002" 30%Z 40%Z 0 plain_tank
              eq_refl) as [Hpump _].
  destruct (Hpump "farm/south/pump" eq_refl) as (_ & Hfirst & Hsecond & Hback & _).
  split; [exact Hfirst|]. split; [exact Hsecond|exact Hback].
Defined.

(** ** What a command leaves alone *)

Lemma store_reservoir_changes_only (st : StationData) (index : nat)
    (reservoir reservoir' : Reservoir.t) (now : Time) :
  reservoirs st !! index = Some reservoir ->
  reservoir_settings reservoir' = reservoir_settings reservoir ->
  changes_only_reservoir st (store_reservoir st index reservoir' now) index.
Proof.
  intros Hlook Hsame. unfold changes_only_reservoir, store_reservoir.
  cbn [sensors sensorHistory reservoirHistory reservoirs].
  split; [reflexivity|]. split; [reflexivity|]. split; [reflexivity|].
  split.
  - change (List.map reservoir_settings) with (fmap (M := list) reservoir_settings).
    rewrite list_fmap_insert, Hsame. apply list_insert_id.
    rewrite list_lookup_fmap, Hlook. reflexivity.
  - intros j Hj. apply list_lookup_insert_ne. congruence.
Qed.

Lemma changes_only_refl (st : StationData) (index : nat) :
  changes_only_reservoir st st index.
Proof. unfold changes_only_reservoir. repeat split; reflexivity. Qed.

(** X9.  No command reaches past the reservoir it names.  The pump,
    fill and mode routes and the commands of the socket leave the
    sensors, both history tables, every other reservoir and the
    configuration of the addressed reservoir as they are; in particular
    the fill route, which sets the level to 100 when no fill topic is
    configured, adds no point to the history of the reservoir. *)
Theorem commands_change_one_reservoir
    (st : StationData) (connected : bool) (id : string) (now : Time)
    (index : nat) (reservoir : Reservoir.t) :
  find_reservoir st id = Some (index, reservoir) ->
  (forall action st' calls events,
      api_pump st connected id action now = inr (st', calls, events) ->
      changes_only_reservoir st st' index)
  /\ (forall st' calls events,
      api_fill st connected id now = inr (st', calls, events) ->
      changes_only_reservoir st st' index
      /\ (topic_set (Reservoir.fillTopic reservoir) = None ->
          exists filled,
            reservoirs st' !! index = Some filled
            /\ Reservoir.currentLevel filled = num_of_Z 100
            /\ events = [reservoir_realtime_update (Reservoir.id reservoir) (num_of_Z 100)
                           now None])
      /\ (topic_set (Reservoir.fillTopic reservoir) <> None -> st' = st /\ events = []))
  /\ (forall mode_name st' calls events,
      api_mode st connected id mode_name now = inr (st', calls, events) ->
      changes_only_reservoir st st' index)
  /\ (forall command,
      changes_only_reservoir st (reservoir_command st connected id command now).1.1 index).
Proof.
  intros Hfind.
  assert (Hlook : reservoirs st !! index = Some reservoir).
  { apply list_find_Some in Hfind as (Hlook & _ & _). exact Hlook. }
  split; [|split; [|split]].
  - intros action st' calls events. unfold api_pump, post_pump. rewrite Hfind.
    unfold topic_set.
    destruct (Reservoir.pumpTopic reservoir) as [t|]; [|discriminate].
    destruct (str_is_empty t); [discriminate|].
    intros H. injection H as <- _ _.
    apply (store_reservoir_changes_only st index reservoir _ now Hlook). reflexivity.
  - intros st' calls events. unfold api_fill. rewrite Hfind.
    destruct (topic_set (Reservoir.fillTopic reservoir)) as [fillTopic|].
    + intros H. injection H as <- _ <-.
      split; [apply changes_only_refl|]. split; [discriminate|].
      intros _. split; reflexivity.
    + intros H. injection H as <- _ <-.
      split.
      { apply (store_reservoir_changes_only st index reservoir _ now Hlook). reflexivity. }
      split; [|congruence].
      intros _. eexists. split.
      { unfold store_reservoir. cbn [reservoirs].
        apply list_lookup_insert_eq. apply lookup_lt_Some in Hlook. exact Hlook. }
      split; reflexivity.
  - intros mode_name st' calls events. unfold api_mode. rewrite Hfind.
    intros H. injection H as <- _ _.
    apply (store_reservoir_changes_only st index reservoir _ now Hlook). reflexivity.
  - intros command. unfold reservoir_command. rewrite Hfind.
    destruct connected; [|apply changes_only_refl].
    destruct (command =? "pump_toggle")%string.
    { destruct (topic_set (Reservoir.pumpTopic reservoir)); [|apply changes_only_refl].
      apply (store_reservoir_changes_only st index reservoir _ now Hlook). reflexivity. }
    destruct (command =? "mode_toggle")%string; [|apply changes_only_refl].
    destruct (topic_set (Reservoir.modeTopic reservoir)); [|apply changes_only_refl].
    apply (store_reservoir_changes_only st index reservoir _ now Hlook). reflexivity.
Qed.

Lemma commands_change_one_reservoir_witness :
  exists st',
    api_fill plain_station true "1700000000002" 30%Z
    = inr (st', [], [reservoir_realtime_update "1700000000002" (num_of_Z 100) 30%Z None])
    /\ reservoirHistory st' = ∅
    /\ sensors st' = [greenhouse].
Proof.
  destruct (commands_change_one_reservoir plain_station true "1700000000002" 30%Z 0
              plain_tank eq_refl) as (_ & Hfill & _).
  eexists. split; [reflexivity|].
  destruct (Hfill _ _ _ eq_refl) as ((Hsensors & _ & Hhistory & _) & _).
  split; [exact Hhistory|exact Hsensors].
Defined.

(** ** Registration of a reservoir *)

Lemma path_accepted (field : option bool) (pathField : option string) :
  path_refused field pathField = false ->
  or_bool field false = true -> validateJSONPath (or_string pathField "") = true.
Proof.
  unfold path_refused. intros H Hon. rewrite Hon in H. cbn [andb] in H.
  destruct (or_string pathField "") as [|c r]; [reflexivity|].
  cbn [str_is_empty negb andb] in H. apply negb_false_iff in H. exact H.
Qed.

Lemma reservoir_validation_None (body : ReservoirBody.t) :
  reservoir_validation body = None ->
  path_refused (ReservoirBody.isJsonPayloadLevel body) (ReservoirBody.jsonPathLevel body) = false
  /\ path_refused (ReservoirBody.isJsonPayloadPump body) (ReservoirBody.jsonPathPump body) = false
  /\ path_refused (ReservoirBody.isJsonPayloadFill body) (ReservoirBody.jsonPathFill body) = false
  /\ path_refused (ReservoirBody.isJsonPayloadMode body) (ReservoirBody.jsonPathMode body) = false.
Proof.
  unfold reservoir_validation.
  destruct (path_refused (ReservoirBody.isJsonPayloadLevel body) _); [discriminate|].
  destruct (path_refused (ReservoirBody.isJsonPayloadPump body) _); [discriminate|].
  destruct (path_refused (ReservoirBody.isJsonPayloadFill body) _); [discriminate|].
  destruct (path_refused (ReservoirBody.isJsonPayloadMode body) _); [discriminate|].
  intros _. repeat split; reflexivity.
Qed.

Lemma post_reservoir_stores (st st' : StationData) (connected : bool)
    (body : ReservoirBody.t) (now : Time) (reservoir : Reservoir.t)
    (calls : list MqttCall) (notices : list Notice) :
  post_reservoir st connected body now = inr (reservoir, st', calls, notices) ->
  reservoir_validation body = None
  /\ reservoir = new_reservoir body now
  /\ st' = mkStationData (sensors st) (reservoirs st ++ [reservoir])%list (sensorHistory st)
             (match slot_of (reservoirHistory st) (Reservoir.id reservoir) with
              | missing => <[Reservoir.id reservoir := []]> (reservoirHistory st)
              | _ => reservoirHistory st
              end) now
  /\ notices = [reservoir_added reservoir].
Proof.
  unfold post_reservoir.
  destruct (reservoir_validation body); [discriminate|].
  intros H. injection H as <- <- _ <-. repeat split; reflexivity.
Qed.

(** X10.  Every reservoir created through registration starts at level
    50 with the pump off, the automatic mode on and no reception time;
    a format left out is [chirpstack_receive] for the level topic and
    [chirpstack_send] for the pump, fill and mode topics; on every topic
    in JSON mode the stored path is empty or matches the validation
    pattern.  The reservoir is appended to the list; an empty history
    is created for it when the table yields nothing under its id, and
    the table is left as it is when a series is stored under the id or
    the id names a member every object inherits; the sensors and their
    histories are not touched. *)
Theorem registered_reservoir_initial_state
    (st st' : StationData) (connected : bool) (body : ReservoirBody.t) (now : Time)
    (reservoir : Reservoir.t) (calls : list MqttCall) (notices : list Notice) :
  post_reservoir st connected body now = inr (reservoir, st', calls, notices) ->
  Reservoir.currentLevel reservoir = num_of_Z 50
  /\ Reservoir.pumpStatus reservoir = false
  /\ Reservoir.isAutoMode reservoir = true
  /\ Reservoir.receivedTimestamp reservoir = None
  /\ Reservoir.lastUpdate reservoir = now
  /\ (ReservoirBody.jsonFormatLevel body = None ->
      Reservoir.jsonFormatLevel reservoir = "chirpstack_receive")
  /\ (ReservoirBody.jsonFormatPump body = None ->
      Reservoir.jsonFormatPump reservoir = "chirpstack_send")
  /\ (ReservoirBody.jsonFormatFill body = None ->
      Reservoir.jsonFormatFill reservoir = "chirpstack_send")
  /\ (ReservoirBody.jsonFormatMode body = None ->
      Reservoir.jsonFormatMode reservoir = "chirpstack_send")
  /\ (Reservoir.isJsonPayloadLevel reservoir = true ->
      validateJSONPath (Reservoir.jsonPathLevel reservoir) = true)
  /\ (Reservoir.isJsonPayloadPump reservoir = true ->
      validateJSONPath (Reservoir.jsonPathPump reservoir) = true)
  /\ (Reservoir.isJsonPayloadFill reservoir = true ->
      validateJSONPath (Reservoir.jsonPathFill reservoir) = true)
  /\ (Reservoir.isJsonPayloadMode reservoir = true ->
      validateJSONPath (Reservoir.jsonPathMode reservoir) = true)
  /\ reservoirs st' = (reservoirs st ++ [reservoir])%list
  /\ sensors st' = sensors st
  /\ sensorHistory st' = sensorHistory st
  /\ (reservoirHistory st !! Reservoir.id reservoir = None ->
      inherited (Reservoir.id reservoir) = false ->
      reservoirHistory st' = <[Reservoir.id reservoir := []]> (reservoirHistory st))
  /\ (is_Some (reservoirHistory st !! Reservoir.id reservoir)
      \/ inherited (Reservoir.id reservoir) = true ->
      reservoirHistory st' = reservoirHistory st)
  /\ notices = [reservoir_added reservoir].
Proof.
  intros Hpost. apply post_reservoir_stores in Hpost as (Hvalid & -> & -> & ->).
  apply reservoir_validation_None in Hvalid as (Hlevel & Hpump & Hfill & Hmode).
  split; [reflexivity|]. split; [reflexivity|]. split; [reflexivity|].
  split; [reflexivity|]. split; [reflexivity|].
  split; [intros H; cbn; rewrite H; reflexivity|].
  split; [intros H; cbn; rewrite H; reflexivity|].
  split; [intros H; cbn; rewrite H; reflexivity|].
  split; [intros H; cbn; rewrite H; reflexivity|].
  split; [exact (path_accepted _ _ Hlevel)|].
  split; [exact (path_accepted _ _ Hpump)|].
  split; [exact (path_accepted _ _ Hfill)|].
  split; [exact (path_accepted _ _ Hmode)|].
  split; [reflexivity|]. split; [reflexivity|]. split; [reflexivity|].
  cbn [reservoirHistory].
  set (id := Reservoir.id (new_reservoir body now)).
  split; [|split; [|reflexivity]].
  - intros Hnone Hown. unfold slot_of. rewrite Hnone, Hown. reflexivity.
  - unfold slot_of. intros [[points Hp]|Hinh].
    + rewrite Hp. reflexivity.
    + rewrite Hinh. destruct (reservoirHistory st !! id); reflexivity.
Qed.

Lemma registered_reservoir_initial_state_witness :
  exists reservoir st' calls notices,
    post_reservoir plain_station true east_body 50%Z = inr (reservoir, st', calls, notices)
    /\ Reservoir.id reservoir = "50"
    /\ Reservoir.currentLevel reservoir = num_of_Z 50
    /\ Reservoir.jsonFormatPump reservoir = "chirpstack_send"
    /\ validateJSONPath (Reservoir.jsonPathLevel reservoir) = true
    /\ reservoirs st' = [plain_tank; reservoir].
Proof.
  eexists. eexists. eexists. eexists. split; [reflexivity|].
  split; [reflexivity|].
  destruct (registered_reservoir_initial_state plain_station _ true east_body 50%Z _ _ _
              eq_refl)
    as (Hlevel & _ & _ & _ & _ & _ & Hformat & _ & _ & Hpath & _ & _ & _ & Hlist & _).
  split; [exact Hlevel|]. split; [exact (Hformat eq_refl)|].
  split; [exact (Hpath eq_refl)|exact Hlist].
Defined.

(** ** A JSON topic without a path *)

Lemma empty_path_extracts_nothing (isJson : bool) (jsonFormat messageStr : string) :
  isJson = true -> reservoir_extract isJson "" jsonFormat messageStr = None.
Proof.
  intros ->. unfold reservoir_extract.
  destruct (JSON_parse messageStr) as [doc|]; [|reflexivity].
  destruct (actualFormat jsonFormat doc); reflexivity.
Qed.

(** X11.  Registration accepts a sensor in JSON mode whose body carries
    no path, or an empty one, and stores the empty path; such a sensor
    takes in no message at all: whatever the payload, nothing is
    extracted, and a delivery to it changes nothing and emits nothing.
    The same holds for a topic of a reservoir in JSON mode with an empty
    path. *)
Theorem json_topic_without_path_is_deaf
    (st : StationData) (body : SensorBody.t) (now : Time) :
  SensorBody.isJsonPayload body = Some true ->
  SensorBody.jsonPath body = None \/ SensorBody.jsonPath body = Some "" ->
  exists sensor st',
    post_sensor st body now = inr (sensor, st')
    /\ Sensor.isJsonPayload sensor = true
    /\ Sensor.jsonPath sensor = ""
    /\ (forall messageStr, sensor_extract sensor messageStr = None)
    /\ (forall station index messageStr receivedTimestamp now',
           sensors station !! index = Some sensor ->
           deliver messageStr receivedTimestamp now' station (to_sensor index)
           = (station, [], false))
    /\ (forall reservoir channel jsonFormat messageStr receivedTimestamp now' h,
           topicConfig reservoir channel = Some (true, "", jsonFormat) ->
           handleReservoirTopicMessage reservoir messageStr channel receivedTimestamp
             now' h = None).
Proof.
  intros Hjson Hpath.
  assert (Hstored : or_string (SensorBody.jsonPath body) "" = "").
  { destruct Hpath as [-> | ->]; reflexivity. }
  unfold post_sensor. rewrite Hjson, Hstored. cbn [or_bool str_is_empty negb andb].
  eexists. eexists. split; [reflexivity|].
  split; [reflexivity|]. split; [reflexivity|].
  assert (Hdeaf : forall messageStr,
             sensor_extract
               (Sensor.make
                  (match SensorBody.id body with Some i => i | None => pretty now end)
                  (SensorBody.name body) (SensorBody.topic body) true ""
                  (or_string (SensorBody.jsonFormat body) "chirpstack_receive")
                  (or_bool (SensorBody.showReceivedTimestamp body) false)
                  (or_Z (SensorBody.mqttQos body) 1)
                  (SensorBody.minValue body) (SensorBody.maxValue body)
                  (num_of_Z 0) offline now None) messageStr = None).
  { intros messageStr. unfold sensor_extract. cbn [Sensor.isJsonPayload Sensor.jsonPath].
    destruct (JSON_parse messageStr) as [doc|]; [|reflexivity].
    destruct (actualFormat _ doc); reflexivity. }
  split; [exact Hdeaf|]. split.
  - intros station index messageStr receivedTimestamp now' Hlook.
    unfold deliver. rewrite Hlook, Hdeaf. reflexivity.
  - intros reservoir channel jsonFormat messageStr receivedTimestamp now' h Hconfig.
    unfold handleReservoirTopicMessage. rewrite Hconfig.
    rewrite empty_path_extracts_nothing by reflexivity. reflexivity.
Qed.

Lemma json_topic_without_path_is_deaf_witness :
  exists sensor st',
    post_sensor sensor_station pathless_body 20%Z = inr (sensor, st')
    /\ Sensor.jsonPath sensor = ""
    /\ sensor_extract sensor uplink = None.
Proof.
  destruct (json_topic_without_path_is_deaf sensor_station pathless_body 20%Z eq_refl
              (or_introl eq_refl))
    as (sensor & st' & Hpost & _ & Hpath & Hdeaf & _).
  exists sensor, st'. split; [exact Hpost|]. split; [exact Hpath|exact (Hdeaf uplink)].
Defined.

(** ** What a message leaves alone *)

Lemma handleSensorData_settings (sensor : Sensor.t) (value : number)
    (receivedTimestamp : option Time) (now : Time) (h : History) :
  sensor_settings (handleSensorData sensor value receivedTimestamp now h).1.1
  = sensor_settings sensor.
Proof.
  unfold handleSensorData, update_sensor.
  destruct (breached (Sensor.minValue sensor) _);
    [|destruct (breached (Sensor.maxValue sensor) _)];
    destruct (history_of h (Sensor.id sensor)); reflexivity.
Qed.

Lemma handleReservoirTopicMessage_settings (reservoir reservoir' : Reservoir.t)
    (messageStr : string) (ch : Channel) (receivedTimestamp : option Time) (now : Time)
    (h h' : History) (events : list Event) :
  handleReservoirTopicMessage reservoir messageStr ch receivedTimestamp now h
  = Some (reservoir', h', events) ->
  reservoir_settings reservoir' = reservoir_settings reservoir.
Proof.
  unfold handleReservoirTopicMessage.
  destruct (topicConfig reservoir ch) as [[[isJson jsonPath] jsonFormat]|]; [|discriminate].
  destruct (reservoir_extract isJson jsonPath jsonFormat messageStr) as [v|];
    [|discriminate].
  destruct ch; try discriminate.
  - destruct (negb (isNaN (parseFloat_of v))); [|discriminate].
    unfold handleReservoirLevelData.
    destruct (history_of h (Reservoir.id reservoir));
      intros H; injection H as <- _ _; reflexivity.
  - intros H. injection H as <- _ _. reflexivity.
  - intros H. injection H as <- _ _. reflexivity.
Qed.

Lemma map_insert_same {A B : Type} (f : A -> B) (l : list A) (i : nat) (x y : A) :
  l !! i = Some x -> f y = f x -> List.map f (<[i := y]> l) = List.map f l.
Proof.
  intros Hlook Hsame.
  change (List.map f) with (fmap (M := list) f).
  rewrite list_fmap_insert, Hsame. apply list_insert_id.
  rewrite list_lookup_fmap, Hlook. reflexivity.
Qed.

Lemma deliver_settings (messageStr : string) (receivedTimestamp now : Time)
    (st : StationData) (target : Target) :
  let st' := (deliver messageStr receivedTimestamp now st target).1.1 in
  List.map sensor_settings (sensors st') = List.map sensor_settings (sensors st)
  /\ List.map reservoir_settings (reservoirs st')
     = List.map reservoir_settings (reservoirs st).
Proof.
  cbv zeta. unfold deliver. destruct target as [i|i ch].
  - destruct (sensors st !! i) as [sensor|] eqn:Hlook; [|split; reflexivity].
    destruct (sensor_extract sensor messageStr) as [v|]; [|split; reflexivity].
    pose proof (handleSensorData_settings sensor v (Some receivedTimestamp) now
                  (sensorHistory st)) as Hsame.
    destruct (handleSensorData sensor v (Some receivedTimestamp) now (sensorHistory st))
      as [[sensor' h] ev].
    cbn [fst sensors reservoirs]. split; [|reflexivity].
    exact (map_insert_same sensor_settings _ i sensor sensor' Hlook Hsame).
  - destruct (reservoirs st !! i) as [reservoir|] eqn:Hlook; [|split; reflexivity].
    destruct (handleReservoirTopicMessage reservoir messageStr ch (Some receivedTimestamp)
                now (reservoirHistory st)) as [[[reservoir' h] ev]|] eqn:Hhandle;
      [|split; reflexivity].
    cbn [fst sensors reservoirs]. split; [reflexivity|].
    apply (map_insert_same reservoir_settings _ i reservoir reservoir' Hlook).
    exact (handleReservoirTopicMessage_settings _ _ _ _ _ _ _ _ _ Hhandle).
Qed.

Lemma deliver_all_settings (messageStr : string) (receivedTimestamp now : Time)
    (targets : list Target) (st : StationData) :
  let st' := (deliver_all messageStr receivedTimestamp now st targets).1 in
  List.map sensor_settings (sensors st') = List.map sensor_settings (sensors st)
  /\ List.map reservoir_settings (reservoirs st')
     = List.map reservoir_settings (reservoirs st).
Proof.
  cbv zeta. revert st. induction targets as [|t rest IH]; intros st; [split; reflexivity|].
  cbn [deliver_all].
  pose proof (deliver_settings messageStr receivedTimestamp now st t) as Hone.
  cbv zeta in Hone.
  destruct (deliver messageStr receivedTimestamp now st t) as [[st1 ev1] thrown].
  cbn [fst] in Hone. destruct thrown; [exact Hone|].
  specialize (IH st1).
  destruct (deliver_all messageStr receivedTimestamp now st1 rest) as [st2 ev2].
  cbn [fst] in *. destruct Hone as [H1 H2]. destruct IH as [H3 H4].
  split; congruence.
Qed.

Lemma positions_map {A B : Type} (f : A -> B) (p : A -> bool) (q : B -> bool)
    (l : list A) (from : nat) :
  (forall x, p x = q (f x)) -> positions p l from = positions q (List.map f l) from.
Proof.
  intros Hpq. revert from. induction l as [|x l IH]; intros from; [reflexivity|].
  cbn [positions List.map]. rewrite <- Hpq, IH. reflexivity.
Qed.

Lemma omap_pointwise {A B : Type} (f g : A -> option B) (l : list A) :
  (forall x, f x = g x) -> omap f l = omap g l.
Proof.
  intros Hfg. induction l as [|x l IH]; [reflexivity|].
  cbn [omap list_omap]. rewrite Hfg, IH. reflexivity.
Qed.

(** The targets of a topic depend on the configuration only. *)
Lemma route_settings (st st' : StationData) :
  List.map sensor_settings (sensors st') = List.map sensor_settings (sensors st) ->
  List.map reservoir_settings (reservoirs st')
  = List.map reservoir_settings (reservoirs st) ->
  forall T, route st' T = route st T.
Proof.
  intros Hs Hr T.
  assert (HrelS : relatedSensors st' T = relatedSensors st T).
  { unfold relatedSensors.
    rewrite (positions_map sensor_settings _
               (fun s => (Sensor.topic s =? T)%string) (sensors st'))
      by reflexivity.
    rewrite (positions_map sensor_settings _
               (fun s => (Sensor.topic s =? T)%string) (sensors st))
      by reflexivity.
    rewrite Hs. reflexivity. }
  assert (HrelR : relatedReservoirs st' T = relatedReservoirs st T).
  { unfold relatedReservoirs.
    rewrite (positions_map reservoir_settings _
               (fun r => (Reservoir.topic r =? T)%string
                         || topic_is (Reservoir.pumpTopic r) T
                         || topic_is (Reservoir.fillTopic r) T
                         || topic_is (Reservoir.modeTopic r) T) (reservoirs st'))
      by reflexivity.
    rewrite (positions_map reservoir_settings _
               (fun r => (Reservoir.topic r =? T)%string
                         || topic_is (Reservoir.pumpTopic r) T
                         || topic_is (Reservoir.fillTopic r) T
                         || topic_is (Reservoir.modeTopic r) T) (reservoirs st))
      by reflexivity.
    rewrite Hr. reflexivity. }
  unfold route. rewrite HrelS, HrelR.
  destruct (0 <? List.length (relatedSensors st T))%nat; [reflexivity|].
  apply omap_pointwise. intros i.
  assert (Hi : reservoir_settings <$> reservoirs st' !! i
               = reservoir_settings <$> reservoirs st !! i).
  { rewrite <- !list_lookup_fmap.
    change (fmap (M := list) reservoir_settings) with (List.map reservoir_settings).
    rewrite Hr. reflexivity. }
  destruct (reservoirs st' !! i) as [r'|], (reservoirs st !! i) as [r|];
    [|discriminate Hi|discriminate Hi|reflexivity].
  change (Some (reservoir_settings r') = Some (reservoir_settings r)) in Hi.
  apply (inj Some) in Hi.
  change (reservoir_channel r' T) with (reservoir_channel (reservoir_settings r') T).
  change (reservoir_channel r T) with (reservoir_channel (reservoir_settings r) T).
  rewrite Hi. reflexivity.
Qed.

(** X12.  A message changes state, never configuration.  After any
    message the sensors and the reservoirs are those of before, one for
    one and in the same order, each with the id, name, topics, payload
    modes, paths, formats, QoS and thresholds of before; so the handlers
    a topic reaches are the same before and after any sequence of
    messages. *)
Theorem messages_keep_the_configuration (st : StationData) (messages : list Message) :
  List.map sensor_settings (sensors (run st messages))
  = List.map sensor_settings (sensors st)
  /\ List.map reservoir_settings (reservoirs (run st messages))
     = List.map reservoir_settings (reservoirs st)
  /\ forall T, route (run st messages) T = route st T.
Proof.
  assert (Hrun : List.map sensor_settings (sensors (run st messages))
                 = List.map sensor_settings (sensors st)
                 /\ List.map reservoir_settings (reservoirs (run st messages))
                    = List.map reservoir_settings (reservoirs st)).
  { revert st. induction messages as [|m rest IH]; intros st; [split; reflexivity|].
    cbn [run]. unfold on_message.
    destruct (deliver_all_settings (msg_payload m) (msg_time m) (msg_time m)
                (route st (msg_topic m)) st) as [H1 H2].
    destruct (IH (deliver_all (msg_payload m) (msg_time m) (msg_time m) st
                    (route st (msg_topic m))).1) as [H3 H4].
    split; congruence. }
  destruct Hrun as [Hs Hr]. split; [exact Hs|]. split; [exact Hr|].
  apply route_settings; assumption.
Qed.

(** ** The history routes *)

Lemma select_history_in_window (history : list HistoryEntry.t) (period : string)
    (maxPoints : number) (now : Time) (record : HistoryEntry.t) :
  In record (select_history history period maxPoints now) ->
  (now - window period <= HistoryEntry.timestamp record)%Z.
Proof.
  unfold select_history. intros Hin.
  assert (Hw : In record
                 (List.filter
                    (fun record => (now - window period <=? HistoryEntry.timestamp record)%Z)
                    history)).
  { destruct (num_gt _ maxPoints); [|exact Hin].
    rewrite <- list_elem_of_In in *.
    eapply elem_of_sublist; [exact Hin|apply filter_index_sublist]. }
  apply filter_In in Hw as [_ Hw]. apply Z.leb_le, Hw.
Qed.

Lemma select_history_at_most (history : list HistoryEntry.t) (period : string)
    (m : Z) (now : Time) :
  (1 <= m)%Z ->
  (Z.of_nat (List.length (select_history history period (num_of_Z m) now)) <= m)%Z.
Proof.
  intros Hm. rewrite (select_history_stride history period m now Hm). cbv zeta.
  set (inWindow := List.filter _ history).
  destruct (Z.ltb_spec m (Z.of_nat (List.length inWindow))) as [Hlt|Hge]; [|lia].
  destruct (stride_bound _ m Hm Hlt) as [Hs Hb].
  rewrite (stride_count _ inWindow 0 Hs). exact Hb.
Qed.

Lemma select_history_not_a_number (history : list HistoryEntry.t) (period : string)
    (now : Time) :
  select_history history period NaN now
  = List.filter
      (fun record => (now - window period <=? HistoryEntry.timestamp record)%Z) history.
Proof.
  reflexivity.
Qed.

Lemma filterHistoryByPeriod_sound (formatTimeForChart : Time -> string -> string)
    {A : Type} (subject : A) (history : list HistoryEntry.t)
    (period points : option string) (now : Time) :
  history_answer_sound formatTimeForChart history period points now
    (HistoryAnswer.make subject
       (filterHistoryByPeriod formatTimeForChart history (period_of period)
          (points_of points) now)
       (period_of period) (List.length history)).
Proof.
  unfold history_answer_sound, filterHistoryByPeriod.
  cbn [HistoryAnswer.period HistoryAnswer.totalPoints HistoryAnswer.data].
  split; [reflexivity|]. split; [reflexivity|]. split; [|split; [|split]].
  - intros point Hin. apply in_map_iff in Hin as (record & <- & Hin).
    cbn [render_point ChartPoint.timestamp].
    exact (select_history_in_window _ _ _ _ _ Hin).
  - intros ->. rewrite length_map. cbn [points_of].
    pose proof (select_history_at_most history (period_of period) 50 now ltac:(lia)). lia.
  - intros text m -> Hparse Hm. rewrite length_map. cbn [points_of]. rewrite Hparse.
    exact (select_history_at_most history (period_of period) m now Hm).
  - intros text -> Hparse. cbn [points_of]. rewrite Hparse.
    rewrite select_history_not_a_number. reflexivity.
Qed.

Lemma history_route_answers (formatTimeForChart : Time -> string -> string)
    {A : Type} (table : History) (id : string) (subject : A)
    (period points : option string) (now : Time) :
  history_route_sound formatTimeForChart table id subject period points now
    match history_of table id with
    | Some history =>
        answer_200
          (HistoryAnswer.make subject
             (filterHistoryByPeriod formatTimeForChart history (period_of period)
                (points_of points) now)
             (period_of period) (List.length history))
    | None => answer_500
    end.
Proof.
  unfold history_route_sound, history_of, slot_of.
  destruct (table !! id) as [stored|].
  - eexists. split; [reflexivity|]. split; [reflexivity|].
    apply filterHistoryByPeriod_sound.
  - destruct (inherited id); [reflexivity|].
    eexists. split; [reflexivity|]. split; [reflexivity|].
    apply filterHistoryByPeriod_sound.
Qed.

(** X13.  The history routes.  For an id that names a sensor (a
    reservoir) the answer describes the first sensor (reservoir) with
    that id and is computed from the series stored under the id, or
    from an empty series when none is stored: [totalPoints] is the
    length of the whole series, whatever the period; every point
    returned lies in the window of the period, the period being [1h]
    when the query names none; without [points] at most 50 points are
    returned; with a [points] that [parseInt] reads as a number of at
    least 1, at most that many; and with a [points] that holds no
    number, every point of the window, undecimated.  When no series is
    stored and the id names a member every object inherits, the answer
    is 500.  An id that names no entity is answered 404, whether or not
    a series is stored under it. *)
Theorem history_routes_answer
    (formatTimeForChart : Time -> string -> string)
    (st : StationData) (id : string) (period points : option string) (now : Time) :
  (forall index sensor,
      find_sensor st id = Some (index, sensor) ->
      history_route_sound formatTimeForChart (sensorHistory st) id sensor period points
        now (get_sensor_history formatTimeForChart st id period points now))
  /\ (forall index reservoir,
      find_reservoir st id = Some (index, reservoir) ->
      history_route_sound formatTimeForChart (reservoirHistory st) id reservoir period
        points now (get_reservoir_history formatTimeForChart st id period points now))
  /\ (find_sensor st id = None ->
      get_sensor_history formatTimeForChart st id period points now = answer_404)
  /\ (find_reservoir st id = None ->
      get_reservoir_history formatTimeForChart st id period points now = answer_404).
Proof.
  split; [|split; [|split]].
  - intros index sensor Hfind. unfold get_sensor_history. rewrite Hfind.
    apply history_route_answers.
  - intros index reservoir Hfind. unfold get_reservoir_history. rewrite Hfind.
    apply history_route_answers.
  - intros Hfind. unfold get_sensor_history. rewrite Hfind. reflexivity.
  - intros Hfind. unfold get_reservoir_history. rewrite Hfind. reflexivity.
Qed.

Lemma history_routes_answer_witness :
  exists answer,
    get_sensor_history no_format charted_station "1700000000000" None (Some "3") 10%Z
    = answer_200 answer
    /\ HistoryAnswer.subject answer = greenhouse
    /\ HistoryAnswer.totalPoints answer = 10%nat
    /\ (Z.of_nat (List.length (HistoryAnswer.data answer)) <= 3)%Z.
Proof.
  destruct (history_routes_answer no_format charted_station "1700000000000" None
              (Some "3") 10%Z) as (Hsensor & _).
  destruct (Hsensor 0%nat greenhouse eq_refl)
    as (answer & Hget & Hsubject & _ & Htotal & _ & _ & Hbound & _).
  exists answer. split; [exact Hget|]. split; [exact Hsubject|].
  split; [exact Htotal|]. exact (Hbound "3" 3%Z eq_refl eq_refl ltac:(lia)).
Defined.

(** ** Removal of a reservoir *)

(** X14.  Deleting a reservoir removes the first reservoir that carries
    the id and the history stored under the id, leaves the sensors, their
    histories and the other reservoir histories as they are, and, when
    connected, unsubscribes the level topic and each of the pump, fill
    and mode topics that is set.  A later message on a topic that no
    sensor and no remaining reservoir is configured with reaches no
    handler. *)
Theorem deleted_reservoir_is_unbound
    (st : StationData) (connected : bool) (id : string) (now : Time)
    (index : nat) (reservoir : Reservoir.t) :
  find_reservoir st id = Some (index, reservoir) ->
  exists st' calls,
    delete_reservoir st connected id now = inr (st', calls, [reservoir_deleted id])
    /\ reservoirs st' = delete index (reservoirs st)
    /\ sensors st' = sensors st
    /\ sensorHistory st' = sensorHistory st
    /\ reservoirHistory st' !! id = None
    /\ (forall k, k <> id -> reservoirHistory st' !! k = reservoirHistory st !! k)
    /\ (connected = true ->
        forall T, on_topic reservoir T -> T <> "" -> In (unsubscribe T) calls)
    /\ (connected = false -> calls = [])
    /\ (forall T,
          (forall s, In s (sensors st) -> Sensor.topic s <> T) ->
          (forall j r, reservoirs st !! j = Some r -> j <> index -> ~ on_topic r T) ->
          forall messageStr now', on_message st' T messageStr now' = (st', [])).
Proof.
  intros Hfind. unfold delete_reservoir. rewrite Hfind.
  eexists. eexists. split; [reflexivity|].
  cbn [sensors sensorHistory reservoirs reservoirHistory].
  split; [reflexivity|]. split; [reflexivity|]. split; [reflexivity|].
  split; [apply lookup_delete_eq|].
  split; [intros k Hk; apply lookup_delete_ne; congruence|].
  split; [|split].
  - intros -> T Htopic Hset. unfold on_topic in Htopic.
    assert (Hopt : forall t, t = Some T -> unsubscribe_if_set t = [unsubscribe T]).
    { intros t ->. unfold unsubscribe_if_set, topic_set.
      destruct T; [congruence|reflexivity]. }
    cbn [In]. rewrite !in_app_iff.
    destruct Htopic as [H|[H|[H|H]]].
    + left. rewrite H. reflexivity.
    + right. left. rewrite (Hopt _ H). left. reflexivity.
    + right. right. left. rewrite (Hopt _ H). left. reflexivity.
    + right. right. right. rewrite (Hopt _ H). left. reflexivity.
  - intros ->. reflexivity.
  - intros T Hsensors Hothers messageStr now'. unfold on_message.
    rewrite route_unbound; [reflexivity|exact Hsensors|].
    cbn [reservoirs]. intros r Hin.
    apply In_delete in Hin as (j & Hj & Hlook).
    exact (Hothers j r Hlook Hj).
Qed.

Lemma deleted_reservoir_is_unbound_witness :
  exists st' calls,
    delete_reservoir plain_station true "1700000000002" 30%Z
    = inr (st', calls, [reservoir_deleted "1700000000002"])
    /\ reservoirs st' = []
    /\ In (unsubscribe "farm/south/mode") calls
    /\ on_message st' "farm/south/level" "42" 40%Z = (st', []).
Proof.
  destruct (deleted_reservoir_is_unbound plain_station true "1700000000002" 30%Z 0
              plain_tank eq_refl)
    as (st' & calls & Hdel & Hlist & _ & _ & _ & _ & Hcalls & _ & Hmsg).
  exists st', calls. split; [exact Hdel|]. split; [exact Hlist|]. split.
  - apply (Hcalls eq_refl "farm/south/mode"); [|discriminate].
    right. right. right. reflexivity.
  - apply Hmsg.
    + intros s [<-|[]]. discriminate.
    + intros j r Hlook Hj. destruct j as [|j]; [congruence|discriminate].
Defined.

(** ** Subscriptions on connection *)








Example connect_groups_by_qos :
  subscriptions_on_connect mixed_station
  = [subscribe "farm/b" 1%Z; subscribe "farm/a" 2%Z; subscribe "farm/c" 2%Z;
     subscribe "farm/south/level" 1%Z; subscribe "farm/south/pump" 1%Z;
     subscribe "farm/south/mode" 1%Z].
Proof. reflexivity. Qed.

(** ** Invariants of the station data *)

Lemma delete_bounded (h : History) (id : string) :
  histories_bounded h -> histories_bounded (delete id h).
Proof.
  intros Hb k points Hk. apply lookup_delete_Some in Hk as [_ Hk]. exact (Hb k points Hk).
Qed.

Lemma Forall_settings {A : Type} (f : A -> A) (P : A -> Prop) (l l' : list A) :
  (forall x, P (f x) <-> P x) ->
  List.map f l' = List.map f l -> Forall P l -> Forall P l'.
Proof.
  intros Hf Hmap Hl.
  assert (H : Forall P (List.map f l')).
  { rewrite Hmap. apply Forall_forall. intros y Hy.
    apply list_elem_of_In, in_map_iff in Hy as (x & <- & Hx).
    apply Hf. rewrite Forall_forall in Hl. apply Hl, list_elem_of_In, Hx. }
  apply Forall_forall. intros x Hx. apply Hf.
  rewrite Forall_forall in H. apply H, list_elem_of_In, in_map, list_elem_of_In, Hx.
Qed.

Lemma sensor_well_configured_settings (s : Sensor.t) :
  sensor_well_configured (sensor_settings s) <-> sensor_well_configured s.
Proof. reflexivity. Qed.

Lemma reservoir_well_configured_settings (r : Reservoir.t) :
  reservoir_well_configured (reservoir_settings r) <-> reservoir_well_configured r.
Proof. reflexivity. Qed.

Lemma changes_only_sound (st st' : StationData) (index : nat) :
  changes_only_reservoir st st' index -> station_sound st -> station_sound st'.
Proof.
  intros (Hs & Hsh & Hrh & Hmap & _) (H1 & H2 & H3 & H4).
  unfold station_sound. rewrite Hs, Hsh, Hrh.
  split; [exact H1|]. split; [exact H2|]. split; [exact H3|].
  exact (Forall_settings reservoir_settings _ _ _ reservoir_well_configured_settings
           Hmap H4).
Qed.

Lemma or_Z_not_zero (x : option Z) : or_Z x 1 <> 0%Z.
Proof.
  destruct x as [z|]; cbn; [|discriminate].
  destruct (Z.eqb_spec z 0); [discriminate|assumption].
Qed.

Lemma post_sensor_well_configured (st st' : StationData) (body : SensorBody.t)
    (now : Time) (sensor : Sensor.t) :
  post_sensor st body now = inr (sensor, st') -> sensor_well_configured sensor.
Proof.
  unfold post_sensor.
  destruct (or_bool (SensorBody.isJsonPayload body) false) eqn:Hjson;
    cbn [andb].
  - destruct (or_string (SensorBody.jsonPath body) "") as [|c r] eqn:Hpath;
      cbn [str_is_empty negb andb].
    + intros H. injection H as <- _. split; [reflexivity|apply or_Z_not_zero].
    + destruct (validateJSONPath (String c r)) eqn:Hvalid; [|discriminate].
      intros H. injection H as <- _. split; [intros _; exact Hvalid|apply or_Z_not_zero].
  - intros H. injection H as <- _. split; [discriminate|apply or_Z_not_zero].
Qed.

Lemma new_reservoir_well_configured (body : ReservoirBody.t) (now : Time) :
  reservoir_validation body = None -> reservoir_well_configured (new_reservoir body now).
Proof.
  intros Hvalid.
  apply reservoir_validation_None in Hvalid as (Hlevel & Hpump & Hfill & Hmode).
  unfold reservoir_well_configured. cbn.
  split; [exact (path_accepted _ _ Hlevel)|].
  split; [exact (path_accepted _ _ Hpump)|].
  split; [exact (path_accepted _ _ Hfill)|].
  split; [exact (path_accepted _ _ Hmode)|].
  repeat split; apply or_Z_not_zero.
Qed.

Lemma serve_one_sound (st : StationData) (connected : bool) (request : Request)
    (now : Time) :
  station_sound st -> station_sound (serve_one st connected request now).
Proof.
  intros Hsound. pose proof Hsound as (H1 & H2 & H3 & H4).
  destruct request as [topic payload|body|id|body|id|id action|id|id mode_name|rid command];
    cbn [serve_one].
  - (* a message *)
    unfold on_message.
    destruct (deliver_all_bounded payload now now (route st topic) st H1 H2) as [B1 B2].
    destruct (deliver_all_settings payload now now (route st topic) st) as [S1 S2].
    split; [exact B1|]. split; [exact B2|]. split.
    + exact (Forall_settings sensor_settings _ _ _ sensor_well_configured_settings S1 H3).
    + exact (Forall_settings reservoir_settings _ _ _ reservoir_well_configured_settings
               S2 H4).
  - (* registration of a sensor *)
    destruct (post_sensor st body now) as [e|[sensor st']] eqn:Hpost; [exact Hsound|].
    destruct (post_sensor_bounded st st' body now sensor Hpost H1 H2) as [B1 B2].
    pose proof (post_sensor_well_configured st st' body now sensor Hpost) as Hw.
    apply post_sensor_stores in Hpost. subst st'.
    split; [exact B1|]. split; [exact B2|]. cbn [sensors reservoirs].
    split; [|exact H4].
    apply Forall_app. split; [exact H3|]. apply Forall_cons. split; [exact Hw|constructor].
  - (* removal of a sensor *)
    unfold delete_sensor. destruct (find_sensor st id) as [[i s]|]; [|exact Hsound].
    split; [apply delete_bounded, H1|]. split; [exact H2|].
    cbn [sensors reservoirs]. split; [apply Forall_delete, H3|exact H4].
  - (* registration of a reservoir *)
    unfold post_reservoir.
    destruct (reservoir_validation body) eqn:Hvalid; [exact Hsound|].
    split; [exact H1|]. cbn [sensors reservoirs sensorHistory reservoirHistory].
    split; [|split; [exact H3|]].
    + destruct (slot_of (reservoirHistory st) (Reservoir.id (new_reservoir body now)));
        try exact H2.
      intros k points Hk.
      destruct (decide (k = Reservoir.id (new_reservoir body now))) as [->|Hne].
      * rewrite lookup_insert_eq in Hk. injection Hk as <-. cbn. lia.
      * rewrite lookup_insert_ne in Hk by congruence. exact (H2 k points Hk).
    + apply Forall_app. split; [exact H4|]. apply Forall_cons.
      split; [exact (new_reservoir_well_configured body now Hvalid)|constructor].
  - (* removal of a reservoir *)
    unfold delete_reservoir. destruct (find_reservoir st id) as [[i r]|]; [|exact Hsound].
    split; [exact H1|]. split; [apply delete_bounded, H2|].
    cbn [sensors reservoirs]. split; [exact H3|apply Forall_delete, H4].
  - (* the pump route *)
    unfold api_pump, post_pump.
    destruct (find_reservoir st id) as [[i r]|] eqn:Hfind; [|exact Hsound].
    apply list_find_Some in Hfind as (Hlook & _ & _).
    unfold topic_set.
    destruct (Reservoir.pumpTopic r) as [t|]; [|exact Hsound].
    destruct (str_is_empty t); [exact Hsound|].
    refine (changes_only_sound st _ i _ Hsound).
    apply (store_reservoir_changes_only st i r _ now Hlook). reflexivity.
  - (* the fill route *)
    unfold api_fill.
    destruct (find_reservoir st id) as [[i r]|] eqn:Hfind; [|exact Hsound].
    apply list_find_Some in Hfind as (Hlook & _ & _).
    destruct (topic_set (Reservoir.fillTopic r)); [exact Hsound|].
    refine (changes_only_sound st _ i _ Hsound).
    apply (store_reservoir_changes_only st i r _ now Hlook). reflexivity.
  - (* the mode route *)
    unfold api_mode.
    destruct (find_reservoir st id) as [[i r]|] eqn:Hfind; [|exact Hsound].
    apply list_find_Some in Hfind as (Hlook & _ & _).
    refine (changes_only_sound st _ i _ Hsound).
    apply (store_reservoir_changes_only st i r _ now Hlook). reflexivity.
  - (* a command of the socket *)
    unfold reservoir_command.
    destruct (find_reservoir st rid) as [[i r]|] eqn:Hfind; [|exact Hsound].
    apply list_find_Some in Hfind as (Hlook & _ & _).
    destruct connected; [|exact Hsound].
    destruct (command =? "pump_toggle")%string.
    { destruct (topic_set (Reservoir.pumpTopic r)); [|exact Hsound].
      refine (changes_only_sound st _ i _ Hsound).
      apply (store_reservoir_changes_only st i r _ now Hlook). reflexivity. }
    destruct (command =? "mode_toggle")%string; [|exact Hsound].
    destruct (topic_set (Reservoir.modeTopic r)); [|exact Hsound].
    refine (changes_only_sound st _ i _ Hsound).
    apply (store_reservoir_changes_only st i r _ now Hlook). reflexivity.
Qed.

(** X16.  Two invariants of the station data hold after every sequence
    of messages, registrations, removals and commands, from the empty
    station or from any station where they hold: no history holds more
    than 1000 points; and the configuration of every entity is as
    registration checks it, that is, on every topic in JSON mode the
    path is empty or matches the validation pattern, and no QoS is 0. *)
Theorem served_station_stays_sound :
  (forall st requests, station_sound st -> station_sound (serve st requests))
  /\ station_sound empty_station
  /\ (forall requests, station_sound (serve empty_station requests)).
Proof.
  assert (Hserve : forall requests st, station_sound st -> station_sound (serve st requests)).
  { induction requests as [|[[connected request] now] rest IH]; intros st Hsound;
      [exact Hsound|].
    cbn [serve]. apply IH, serve_one_sound, Hsound. }
  assert (Hempty : station_sound empty_station).
  { split; [apply empty_bounded|]. split; [apply empty_bounded|].
    split; apply Forall_nil; exact I. }
  split; [intros st requests; apply Hserve|].
  split; [exact Hempty|]. intros requests. apply Hserve, Hempty.
Qed.
